(** * anime-data-scraper: retrying fetcher, paginator and CSV projection

    A shallow embedding of the Go packages [config], [types], [api],
    [exporter] and [collector].

    - Go [int] is [Z]; a Go [string] and a [[]byte] are a [string] (a
      sequence of bytes, so [String.length] is Go's [len]); a slice is a
      [list] (the nil slice and the empty slice are both [[]]); a pointer
      that may be nil is an [option]; a [float64] is a [spec_float].
    - A Go [map] is a [gmap]; the order in which a [range] statement
      visits it is chosen by the runtime, so it is an input of the model.
    - The network, the JSON decoder and the file system are the
      environment: oracles that answer each call, threaded through an
      explicit [World].
    - The loggers only print; they are left out. *)

From Stdlib Require Import ZArith Lia String Ascii List.
From Stdlib Require Import DecimalString DecimalZ.
From Stdlib Require Import Floats.SpecFloat.
From Equations Require Import Equations.
From stdpp Require Import base option list gmap strings.

Open Scope Z_scope.

(** ** Errors

    Go errors are values; [fmt.Errorf] with the verb [%w] wraps a
    cause. *)

Inductive error : Type :=
| ExternalError (msg : string)             (* raised by net/http, io, json, os *)
| StatusError (code : Z)                   (* "API returned non-200 status code: %d" *)
| Wrapped (prefix : string) (cause : error). (* fmt.Errorf(prefix + ": %w", cause) *)

(** ** Package strconv (the functions the exporter calls) *)

Module Strconv.

(** [strconv.Itoa]: decimal digits, a leading minus for negatives. *)
Definition Itoa (i : Z) : string := NilZero.string_of_int (Z.to_int i).

Definition FormatBool (b : bool) : string := if b then "true" else "false".

Definition digit (c : ascii) : option Z :=
  let n := Z.of_N (N_of_ascii c) in
  if (48 <=? n) && (n <=? 57) then Some (n - 48) else None.

Fixpoint digits (s : string) (acc : Z) : option Z :=
  match s with
  | EmptyString => Some acc
  | String c s' =>
      match digit c with
      | Some d => digits s' (acc * 10 + d)
      | None => None
      end
  end.

Definition minInt : Z := - 2 ^ 63.
Definition maxInt : Z := 2 ^ 63 - 1.

(** [strconv.Atoi]: an optional sign, then one or more decimal digits;
    [None] is a non-nil error (syntax, or a value outside [int]). *)
Definition Atoi (s : string) : option Z :=
  let '(neg, body) :=
    match s with
    | String "-" rest => (true, rest)
    | String "+" rest => (false, rest)
    | _ => (false, s)
    end in
  match body with
  | EmptyString => None
  | _ =>
      match digits body 0 with
      | None => None
      | Some n =>
          let v := if neg then - n else n in
          if (minInt <=? v) && (v <=? maxInt) then Some v else None
      end
  end.

(** Round a non-negative rational [n / d] to the nearest integer, ties
    to the even one. *)
Definition roundHalfEven (n d : Z) : Z :=
  let q := n / d in
  let r := n mod d in
  if 2 * r <? d then q
  else if d <? 2 * r then q + 1
  else if Z.even q then q else q + 1.

Fixpoint padZeros (width : nat) (s : string) : string :=
  match width with
  | O => s
  | S w => if (String.length s <? width)%nat then padZeros w ("0" +:+ s) else s
  end.

(** [strconv.FormatFloat(f, 'f', prec, 64)]: the exact decimal value of
    [f] rounded to [prec] fractional digits, ties to even. *)
Definition FormatFloat (f : spec_float) (prec : nat) : string :=
  let scale := 10 ^ Z.of_nat prec in
  let fixed (neg : bool) (q : Z) :=
    (if neg then "-" else EmptyString) +:+ Itoa (q / scale) +:+
    (match prec with
     | O => EmptyString
     | _ => "." +:+ padZeros prec (Itoa (q mod scale))
     end) in
  match f with
  | S754_nan => "NaN"
  | S754_infinity neg => if neg then "-Inf" else "+Inf"
  | S754_zero neg => fixed neg 0
  | S754_finite neg m e =>
      let q :=
        if 0 <=? e then Z.pos m * 2 ^ e * scale
        else roundHalfEven (Z.pos m * scale) (2 ^ (- e)) in
      fixed neg q
  end.

End Strconv.

(** ** Package strings (the functions the exporter calls) *)

Module Strings.

(** [strings.ReplaceAll(s, old, new)] for a one-byte [old], which is how
    the exporter calls it: every occurrence of the byte becomes [new]. *)
Fixpoint ReplaceAll (s : string) (old : ascii) (new : string) : string :=
  match s with
  | EmptyString => EmptyString
  | String c s' =>
      if Ascii.eqb c old then new +:+ ReplaceAll s' old new
      else String c (ReplaceAll s' old new)
  end.

(** [strings.Join(elems, sep)]. *)
Fixpoint Join (elems : list string) (sep : string) : string :=
  match elems with
  | [] => EmptyString
  | [e] => e
  | e :: rest => e +:+ sep +:+ Join rest sep
  end.

End Strings.

(** ** Package config *)

Module Config.

Definition Second : Z := 1000000000. (* time.Duration counts nanoseconds *)

Definition JikanBaseURL : string := "https://api.jikan.moe/v4".
Definition AnimeEndpoint : string := "/anime".
Definition TopAnimeEndpoint : string := "/top/anime".
Definition ReviewsEndpoint : string := "/reviews/anime".
Definition MaxRetries : Z := 3.
Definition RetryDelay : Z := 1 * Second.
Definition RateLimitDelay : Z := 1 * Second.
Definition DefaultPageSize : Z := 25.
Definition MaxItemsToFetch : Z := 1000.
Definition OutputDirectory : string := "anime_data".

(** [filepath.Join(OutputDirectory, name)] *)
Definition AnimeBasicCSV : string := OutputDirectory +:+ "/anime_basic.csv".
Definition AnimeGenresCSV : string := OutputDirectory +:+ "/anime_genres.csv".
Definition AnimeStudiosCSV : string := OutputDirectory +:+ "/anime_studios.csv".
Definition AnimeStatisticsCSV : string := OutputDirectory +:+ "/anime_statistics.csv".
Definition AnimeReviewsCSV : string := OutputDirectory +:+ "/anime_reviews.csv".

End Config.

(** ** Package types

    One module per Go struct, so that the fields keep their names. *)

Module Types.

Module Items.
Record t := { Count : Z; Total : Z; PerPage : Z }.
End Items.

Module Pagination.
Record t := {
  LastVisiblePage : Z;
  HasNextPage : bool;
  CurrentPage : Z;
  Items : Items.t
}.
End Pagination.

(** The anonymous struct of [AnimeData.Aired]. *)
Module Aired.
Record t := { From : string; To : string }.
End Aired.

(** The anonymous struct of [AnimeData.Genres] and [AnimeData.Studios]. *)
Module Tag.
Record t := { MalID : Z; Type_ : string; Name : string }.
End Tag.

(** The anonymous struct of the values of [AnimeStatistics.Scores]. *)
Module ScoreData.
Record t := { Votes : Z; Percentage : spec_float }.
End ScoreData.

Module AnimeStatistics.
Record t := {
  Watching : Z;
  Completed : Z;
  OnHold : Z;
  Dropped : Z;
  PlanToWatch : Z;
  Total : Z;
  Scores : gmap string ScoreData.t
}.
End AnimeStatistics.

Module AnimeData.
Record t := {
  MalID : Z;
  URL : string;
  Title : string;
  TitleEnglish : string;
  TitleJapanese : string;
  Type_ : string;
  Source : string;
  Episodes : Z;
  Status : string;
  Airing : bool;
  Aired : Aired.t;
  Duration : string;
  Rating : string;
  Score : spec_float;
  ScoredBy : Z;
  Rank : Z;
  Popularity : Z;
  Members : Z;
  Favorites : Z;
  Synopsis : string;
  Background : string;
  Season : string;
  Year : Z;
  Genres : list Tag.t;
  Studios : list Tag.t;
  Statistics : option AnimeStatistics.t
}.
End AnimeData.

(** The anonymous structs of [ReviewData.User] (its nested image URL
    flattened) and [ReviewData.Anime]. *)
Module User.
Record t := { Username : string; URL : string; ImageURL : string }.
End User.

Module AnimeRef.
Record t := { MalID : Z; URL : string; Title : string }.
End AnimeRef.

Module ReviewData.
Record t := {
  MalID : Z;
  URL : string;
  Type_ : string;
  ReviewedAt : string;
  Review : string;
  Score : Z;
  Tags : list string;
  IsSpoiler : bool;
  User : User.t;
  Anime : AnimeRef.t
}.
End ReviewData.

(** [AnimeResponse] and [ReviewResponse] have the same two fields. *)
Module Response.
Record t (T : Type) := { Data : list T; Pagination : Pagination.t }.
Arguments Data {T} _.
Arguments Pagination {T} _.
Arguments Build_t {T} _ _.
End Response.

Definition AnimeResponse : Type := Response.t AnimeData.t.
Definition ReviewResponse : Type := Response.t ReviewData.t.

Module SingleAnimeResponse.
Record t := { Data : AnimeData.t }.
End SingleAnimeResponse.

End Types.

Import Types.

(** ** The environment and the world

    [World] is what a run changes: the requests sent, the time slept and
    the files written. [Env] is what answers the run. *)

Definition Row : Type := list string.

Record World := {
  requests : list string;        (* URLs of the GETs sent, oldest first *)
  slept : Z;                     (* total of time.Sleep, nanoseconds *)
  files : gmap string (list Row) (* records written to each file *)
}.

Definition World0 : World := {| requests := []; slept := 0; files := ∅ |}.

(** What one [httpClient.Get] followed by [io.ReadAll] can give. *)
Inductive Attempt : Type :=
| TransportError (err : error)
| HTTPResponse (StatusCode : Z) (read : string) (readErr : option error).

Record Env := {
  (* the answer to the GET of a URL, given how many GETs came before *)
  http : string → nat → Attempt;
  (* json.Unmarshal into each of the three response types *)
  unmarshalAnimeResponse : string → error + AnimeResponse;
  unmarshalSingleAnimeResponse : string → error + SingleAnimeResponse.t;
  unmarshalReviewResponse : string → error + ReviewResponse;
  (* the order in which the range over the Scores of the i-th entry of
     the list visits the map *)
  rangeScores : nat → gmap string ScoreData.t → list (string * ScoreData.t);
  (* os.MkdirAll, os.Create and the n-th csv Write to a file *)
  mkdirAll : string → option error;
  create : string → option error;
  write : string → nat → Row → option error
}.

(** A [range] visits every entry of the map exactly once. *)
Definition rangeValid (env : Env) : Prop :=
  ∀ i m, rangeScores env i m ≡ₚ map_to_list m.

Definition M (A : Type) : Type := World → A * World.

#[global] Instance M_ret : MRet M := λ A a w, (a, w).
#[global] Instance M_bind : MBind M :=
  λ A B f m w, let '(a, w') := m w in f a w'.

(** [time.Sleep] *)
Definition Sleep (d : Z) : M unit :=
  λ w, (tt, {| requests := requests w; slept := slept w + d; files := files w |}).

(** Run [k] unless [c] returned an error ([if err != nil { return err }]). *)
Definition orReturn (c : M (option error)) (k : M (option error)) : M (option error) :=
  err ← c; match err with Some e => mret (Some e) | None => k end.

(** ** Package api *)

Module Api.
Import Config Strconv.

(** [c.httpClient.Get(url)] and the [io.ReadAll] of its body. *)
Definition Get (env : Env) (url : string) : M Attempt :=
  λ w, (http env url (length (requests w)),
        {| requests := requests w ++ [url]; slept := slept w; files := files w |}).

(** The loop of [fetchData] with [n] iterations left; [err] and [body]
    are the function's variables of those names. *)
Fixpoint fetchAttempts (env : Env) (n : nat) (attempt : Z) (url : string)
    (err : option error) (body : string) : M (option error * string) :=
  match n with
  | O => mret (err, body)
  | S n' =>
      (if 1 <? attempt then Sleep RetryDelay else mret tt);;
      resp ← Get env url;
      match resp with
      | TransportError e =>
          fetchAttempts env n' (attempt + 1) url (Some e) body
      | HTTPResponse StatusCode read readErr =>
          if StatusCode =? 429 then
            Sleep (RateLimitDelay * 2);;
            fetchAttempts env n' (attempt + 1) url None body
          else if negb (StatusCode =? 200) then
            fetchAttempts env n' (attempt + 1) url (Some (StatusError StatusCode)) body
          else
            match readErr with
            | Some e => fetchAttempts env n' (attempt + 1) url (Some e) read
            | None => mret (None, read)
            end
      end
  end.

(** [fmt.Errorf("failed after %d attempts: %w", config.MaxRetries, err)] *)
Definition Exhausted (cause : error) : error :=
  Wrapped ("failed after " +:+ Itoa MaxRetries +:+ " attempts") cause.

Definition fetchData (env : Env) (url : string) : M (string * option error) :=
  '(err, body) ← fetchAttempts env (Z.to_nat MaxRetries) 1 url None EmptyString;
  match err with
  | Some e => mret (EmptyString, Some (Exhausted e))
  | None => Sleep RateLimitDelay;; mret (body, None)
  end.

(** The loops of [GetTopAnime] and [GetAnimeReviews] are the same
    statement for statement; [pageLoop] is that loop, with the URL of a
    page, the decoder and the message of the decode error as parameters.
    Every turn that goes round again has appended a non-empty page, so
    [limit - len(all)] decreases. *)
Section PageLoop.
Context {T : Type}.
Variable env : Env.
Variable pageURL : Z → string.
Variable unmarshal : string → error + Response.t T.
Variable unmarshalFailed : string.

Equations? pageLoop (limit page : Z) (all : list T) (w : World)
  : (list T * option error) * World
  by wf (Z.to_nat (limit - Z.of_nat (length all))) lt :=
pageLoop limit page all w with decide (Z.of_nat (length all) < limit) := {
  | right _ => ((all, None), w)
  | left _ with fetchData env (pageURL page) w := {
    | ((_, Some err), w1) => (([], Some err), w1)
    | ((body, None), w1) with unmarshal body := {
      | inl err => (([], Some (Wrapped unmarshalFailed err)), w1)
      | inr response
          with decide (length (Response.Data response) = 0%nat
                       ∨ Pagination.HasNextPage (Response.Pagination response) = false) := {
        | left _ => ((all, None), w1)
        | right _
            with decide (limit ≤ Z.of_nat (length (all ++ Response.Data response))) := {
          | left _ =>
              ((take (Z.to_nat limit) (all ++ Response.Data response), None), w1)
          | right _ =>
              pageLoop limit (page + 1) (all ++ Response.Data response) w1 } } } } }.
Proof.
  rewrite length_app in *.
  destruct (Response.Data response); simpl in *; [tauto | lia].
Qed.
End PageLoop.

Definition topAnimeURL (page : Z) : string :=
  JikanBaseURL +:+ TopAnimeEndpoint +:+ "?page=" +:+ Itoa page.

Definition GetTopAnime (env : Env) (limit : Z) : M (list AnimeData.t * option error) :=
  pageLoop env topAnimeURL (unmarshalAnimeResponse env)
    "failed to unmarshal response" limit 1 [].

Definition animeDetailsURL (malID : Z) : string :=
  JikanBaseURL +:+ AnimeEndpoint +:+ "/" +:+ Itoa malID +:+ "/full".

Definition GetAnimeDetails (env : Env) (malID : Z) : M (option AnimeData.t * option error) :=
  '(body, err) ← fetchData env (animeDetailsURL malID);
  match err with
  | Some e => mret (None, Some e)
  | None =>
      match unmarshalSingleAnimeResponse env body with
      | inl e => mret (None, Some (Wrapped "failed to unmarshal anime details" e))
      | inr response => mret (Some (SingleAnimeResponse.Data response), None)
      end
  end.

Definition animeReviewsURL (malID page : Z) : string :=
  JikanBaseURL +:+ AnimeEndpoint +:+ "/" +:+ Itoa malID +:+ "/reviews?page=" +:+ Itoa page.

Definition GetAnimeReviews (env : Env) (malID limit : Z)
  : M (list ReviewData.t * option error) :=
  pageLoop env (animeReviewsURL malID) (unmarshalReviewResponse env)
    "failed to unmarshal reviews" limit 1 [].

End Api.

(** ** Package exporter

    A file holds the records handed to [csv.Writer.Write], in order;
    [os.Create] empties it. [csv.Writer] keeps what it is given in a
    buffer, and the exports drop the error of the deferred [Flush]:
    neither is modelled. [Write] puts each record into the file at once
    and reports a refusal at the record refused, which is what the code
    leaves on a file system that takes every write; where a write is
    refused the code may report it later, or not at all, and may leave a
    record cut short. *)

Module Exporter.
Import Config Strconv Strings.

Definition Create (env : Env) (path : string) : M (option error) :=
  λ w, match create env path with
       | Some e => (Some e, w)
       | None => (None, {| requests := requests w; slept := slept w;
                           files := <[path := []]> (files w) |})
       end.

Definition Write (env : Env) (path : string) (row : Row) : M (option error) :=
  λ w, let written := default [] (files w !! path) in
       match write env path (length written) row with
       | Some e => (Some e, w)
       | None => (None, {| requests := requests w; slept := slept w;
                           files := <[path := written ++ [row]]> (files w) |})
       end.

Definition Initialize (env : Env) : M (option error) :=
  λ w, (mkdirAll env OutputDirectory, w).

(** *** anime_basic.csv *)

Definition basicHeader : Row :=
  ["mal_id"; "title"; "title_english"; "title_japanese"; "type";
   "source"; "episodes"; "status"; "airing"; "aired_from"; "aired_to";
   "duration"; "rating"; "score"; "scored_by"; "rank"; "popularity";
   "members"; "favorites"; "season"; "year"].

Definition basicRow (anime : AnimeData.t) : Row :=
  [Itoa (AnimeData.MalID anime);
   AnimeData.Title anime;
   AnimeData.TitleEnglish anime;
   AnimeData.TitleJapanese anime;
   AnimeData.Type_ anime;
   AnimeData.Source anime;
   Itoa (AnimeData.Episodes anime);
   AnimeData.Status anime;
   FormatBool (AnimeData.Airing anime);
   Aired.From (AnimeData.Aired anime);
   Aired.To (AnimeData.Aired anime);
   AnimeData.Duration anime;
   AnimeData.Rating anime;
   FormatFloat (AnimeData.Score anime) 2;
   Itoa (AnimeData.ScoredBy anime);
   Itoa (AnimeData.Rank anime);
   Itoa (AnimeData.Popularity anime);
   Itoa (AnimeData.Members anime);
   Itoa (AnimeData.Favorites anime);
   AnimeData.Season anime;
   Itoa (AnimeData.Year anime)].

Fixpoint basicRows (env : Env) (animeList : list AnimeData.t) : M (option error) :=
  match animeList with
  | [] => mret None
  | anime :: rest =>
      orReturn (Write env AnimeBasicCSV (basicRow anime)) (basicRows env rest)
  end.

Definition ExportAnimeBasicData (env : Env) (animeList : list AnimeData.t)
  : M (option error) :=
  orReturn (Create env AnimeBasicCSV)
    (orReturn (Write env AnimeBasicCSV basicHeader) (basicRows env animeList)).

(** *** anime_genres.csv and anime_studios.csv *)

Definition genresHeader : Row := ["anime_id"; "genre_id"; "genre_name"].
Definition studiosHeader : Row := ["anime_id"; "studio_id"; "studio_name"].

Definition tagRow (anime : AnimeData.t) (tag : Tag.t) : Row :=
  [Itoa (AnimeData.MalID anime); Itoa (Tag.MalID tag); Tag.Name tag].

(** The inner loop, over the tags of one entry. *)
Fixpoint tagRows (env : Env) (path : string) (anime : AnimeData.t) (tags : list Tag.t)
  : M (option error) :=
  match tags with
  | [] => mret None
  | tag :: rest =>
      orReturn (Write env path (tagRow anime tag)) (tagRows env path anime rest)
  end.

Fixpoint genreRows (env : Env) (animeList : list AnimeData.t) : M (option error) :=
  match animeList with
  | [] => mret None
  | anime :: rest =>
      orReturn (tagRows env AnimeGenresCSV anime (AnimeData.Genres anime))
        (genreRows env rest)
  end.

Definition ExportAnimeGenres (env : Env) (animeList : list AnimeData.t)
  : M (option error) :=
  orReturn (Create env AnimeGenresCSV)
    (orReturn (Write env AnimeGenresCSV genresHeader) (genreRows env animeList)).

Fixpoint studioRows (env : Env) (animeList : list AnimeData.t) : M (option error) :=
  match animeList with
  | [] => mret None
  | anime :: rest =>
      orReturn (tagRows env AnimeStudiosCSV anime (AnimeData.Studios anime))
        (studioRows env rest)
  end.

Definition ExportAnimeStudios (env : Env) (animeList : list AnimeData.t)
  : M (option error) :=
  orReturn (Create env AnimeStudiosCSV)
    (orReturn (Write env AnimeStudiosCSV studiosHeader) (studioRows env animeList)).

(** *** anime_statistics.csv *)

Definition statisticsHeader : Row :=
  ["anime_id"; "watching"; "completed"; "on_hold"; "dropped";
   "plan_to_watch"; "total_stats";
   "score_1_votes"; "score_1_percentage";
   "score_2_votes"; "score_2_percentage";
   "score_3_votes"; "score_3_percentage";
   "score_4_votes"; "score_4_percentage";
   "score_5_votes"; "score_5_percentage";
   "score_6_votes"; "score_6_percentage";
   "score_7_votes"; "score_7_percentage";
   "score_8_votes"; "score_8_percentage";
   "score_9_votes"; "score_9_percentage";
   "score_10_votes"; "score_10_percentage"].

(** The two slices [scoreVotes] and [scorePercentages]. *)
Definition Slots : Type := list string * list string.

Definition emptySlots : Slots := (replicate 10 "0", replicate 10 "0").

(** The body of the range over [anime.Statistics.Scores]. *)
Definition fillScore (slots : Slots) (entry : string * ScoreData.t) : Slots :=
  let '(scoreStr, scoreData) := entry in
  match Atoi scoreStr with
  | None => slots
  | Some scoreInt =>
      if (1 <=? scoreInt) && (scoreInt <=? 10) then
        let idx := Z.to_nat (scoreInt - 1) in
        (<[idx := Itoa (ScoreData.Votes scoreData)]> slots.1,
         <[idx := FormatFloat (ScoreData.Percentage scoreData) 2]> slots.2)
      else slots
  end.

(** The row of one entry, its scores visited in the order [visit]. *)
Definition statisticsRow (anime : AnimeData.t) (stats : AnimeStatistics.t)
    (visit : list (string * ScoreData.t)) : Row :=
  let '(scoreVotes, scorePercentages) := foldl fillScore emptySlots visit in
  [Itoa (AnimeData.MalID anime);
   Itoa (AnimeStatistics.Watching stats);
   Itoa (AnimeStatistics.Completed stats);
   Itoa (AnimeStatistics.OnHold stats);
   Itoa (AnimeStatistics.Dropped stats);
   Itoa (AnimeStatistics.PlanToWatch stats);
   Itoa (AnimeStatistics.Total stats)]
  ++ flat_map (λ i, [nth i scoreVotes EmptyString; nth i scorePercentages EmptyString]) (seq 0 10).

(** The loop over [animeList]; [i] is the position of its head in the
    list the export was called with. *)
Fixpoint statisticsRows (env : Env) (i : nat) (animeList : list AnimeData.t)
  : M (option error) :=
  match animeList with
  | [] => mret None
  | anime :: rest =>
      match AnimeData.Statistics anime with
      | None => statisticsRows env (S i) rest
      | Some stats =>
          orReturn
            (Write env AnimeStatisticsCSV
               (statisticsRow anime stats
                  (rangeScores env i (AnimeStatistics.Scores stats))))
            (statisticsRows env (S i) rest)
      end
  end.

Definition ExportAnimeStatistics (env : Env) (animeList : list AnimeData.t)
  : M (option error) :=
  orReturn (Create env AnimeStatisticsCSV)
    (orReturn (Write env AnimeStatisticsCSV statisticsHeader)
       (statisticsRows env 0 animeList)).

(** *** anime_reviews.csv *)

Definition reviewsHeader : Row :=
  ["review_id"; "anime_id"; "anime_title";
   "reviewer_username"; "score"; "date";
   "is_spoiler"; "tags"; "review_text"].

Definition LF : ascii := ascii_of_nat 10.
Definition CR : ascii := ascii_of_nat 13.

Definition maxReviewLen : Z := 32000.

(** "Clean and truncate review text" *)
Definition cleanReview (review : string) : string :=
  ReplaceAll (ReplaceAll review LF " ") CR " ".

Definition reviewText (review : ReviewData.t) : string :=
  let reviewText := cleanReview (ReviewData.Review review) in
  if maxReviewLen <? Z.of_nat (String.length reviewText)
  then substring 0 (Z.to_nat maxReviewLen) reviewText +:+ "..."
  else reviewText.

Definition reviewRow (review : ReviewData.t) : Row :=
  [Itoa (ReviewData.MalID review);
   Itoa (AnimeRef.MalID (ReviewData.Anime review));
   AnimeRef.Title (ReviewData.Anime review);
   User.Username (ReviewData.User review);
   Itoa (ReviewData.Score review);
   ReviewData.ReviewedAt review;
   FormatBool (ReviewData.IsSpoiler review);
   Join (ReviewData.Tags review) "|";
   reviewText review].

Fixpoint reviewRows (env : Env) (reviews : list ReviewData.t) : M (option error) :=
  match reviews with
  | [] => mret None
  | review :: rest =>
      orReturn (Write env AnimeReviewsCSV (reviewRow review)) (reviewRows env rest)
  end.

Definition ExportAnimeReviews (env : Env) (reviews : list ReviewData.t)
  : M (option error) :=
  orReturn (Create env AnimeReviewsCSV)
    (orReturn (Write env AnimeReviewsCSV reviewsHeader) (reviewRows env reviews)).

End Exporter.

(** ** Package collector *)

Module Collector.
Import Config Api Exporter.

(** [fmt.Errorf(msg + ": %w", err)] around a step of the workflow. *)
Definition step (msg : string) (c : M (option error)) (k : M (option error))
  : M (option error) :=
  err ← c; match err with Some e => mret (Some (Wrapped msg e)) | None => k end.

(** The loop of step 5 over [topAnime], [i] the index of the head of
    [items]. *)
Fixpoint collectDetails (env : Env) (limit i : Z) (items enrichedAnime : list AnimeData.t)
  : M (list AnimeData.t) :=
  match items with
  | [] => mret enrichedAnime
  | anime :: rest =>
      if limit <=? i then mret enrichedAnime
      else
        '(detailedAnime, err) ← GetAnimeDetails env (AnimeData.MalID anime);
        match err with
        | Some _ => collectDetails env limit (i + 1) rest enrichedAnime
        | None =>
            match detailedAnime with
            | Some detailed =>
                Sleep RateLimitDelay;;
                collectDetails env limit (i + 1) rest (enrichedAnime ++ [detailed])
            | None => (* a nil pointer with a nil error: GetAnimeDetails never returns it *)
                collectDetails env limit (i + 1) rest enrichedAnime
            end
        end
  end.

Definition reviewLimit : Z := 50.

(** The loop of step 7, [n] iterations left: [i] runs up to
    [animeForReviews = min(20, len(topAnime))], so [topAnime[i]] is in
    range. *)
Fixpoint collectReviews (env : Env) (topAnime : list AnimeData.t) (n : nat) (i : nat)
    (allReviews : list ReviewData.t) : M (list ReviewData.t) :=
  match n with
  | O => mret allReviews
  | S n' =>
      match topAnime !! i with
      | None => mret allReviews
      | Some anime =>
          '(reviews, err) ← GetAnimeReviews env (AnimeData.MalID anime) reviewLimit;
          match err with
          | Some _ => collectReviews env topAnime n' (S i) allReviews
          | None => collectReviews env topAnime n' (S i) (allReviews ++ reviews)
          end
      end
  end.

Definition CollectAnimeData (env : Env) : M (option error) :=
  orReturn (Initialize env)
    ('(topAnime, err) ← GetTopAnime env MaxItemsToFetch;
     match err with
     | Some e => mret (Some (Wrapped "failed to fetch top anime" e))
     | None =>
         step "failed to export basic anime data" (ExportAnimeBasicData env topAnime)
        (step "failed to export anime genres" (ExportAnimeGenres env topAnime)
        (step "failed to export anime studios" (ExportAnimeStudios env topAnime)
        (enrichedAnime ← collectDetails env (Z.min MaxItemsToFetch 100) 0 topAnime [];
         step "failed to export anime statistics" (ExportAnimeStatistics env enrichedAnime)
        (let animeForReviews := Nat.min 20 (length topAnime) in
         allReviews ← collectReviews env topAnime animeForReviews 0 [];
         step "failed to export anime reviews" (ExportAnimeReviews env allReviews)
           (mret None)))))
     end).

End Collector.

(** ** Vocabulary of the properties *)

Module Spec.
Import Config Api.

(** What an attempt leaves in the variable [err] of [fetchData] when it
    fails; [None] when the attempt succeeds. *)
Definition failure (a : Attempt) : option (option error) :=
  match a with
  | TransportError e => Some (Some e)
  | HTTPResponse StatusCode _ readErr =>
      if StatusCode =? 429 then Some None
      else if negb (StatusCode =? 200) then Some (Some (StatusError StatusCode))
      else match readErr with
           | Some e => Some (Some e)
           | None => None
           end
  end.

(** The answer to the [k]-th GET that a call starting in [w] sends. *)
Definition answer (env : Env) (url : string) (w : World) (k : nat) : Attempt :=
  http env url (length (requests w) + k).

(** *** Pages *)

Section Pages.
Context {T : Type}.
Variable env : Env.
Variable pageURL : Z → string.
Variable unmarshal : string → error + Response.t T.

(** One page fetched and decoded the way a turn of the loop does it;
    [None] when the fetch or the decoding fails. *)
Definition servePage (page : Z) (w : World) : option (Response.t T * World) :=
  match fetchData env (pageURL page) w with
  | ((_, Some _), _) => None
  | ((body, None), w1) =>
      match unmarshal body with
      | inl _ => None
      | inr response => Some (response, w1)
      end
  end.

(** The [n] pages from [page] on, read one after the other from [w]. *)
Fixpoint servePages (n : nat) (page : Z) (w : World)
  : option (list (Response.t T) * World) :=
  match n with
  | O => Some ([], w)
  | S n' =>
      '(response, w1) ← servePage page w;
      '(rest, w2) ← servePages n' (page + 1) w1;
      Some (response :: rest, w2)
  end.

End Pages.

(** The items of a sequence of pages. *)
Definition items {T : Type} (pages : list (Response.t T)) : list T :=
  concat (map Response.Data pages).

(** Conditions (a) and (b): the page is empty, or it is the last one. *)
Definition exhausted {T : Type} (response : Response.t T) : Prop :=
  length (Response.Data response) = 0%nat
  ∨ Pagination.HasNextPage (Response.Pagination response) = false.

(** None of (a), (b), (c) holds at any of [pages], read after [all] was
    accumulated. *)
Fixpoint allContinue {T : Type} (limit : Z) (all : list T) (pages : list (Response.t T))
  : Prop :=
  match pages with
  | [] => True
  | response :: rest =>
      ¬ exhausted response
      ∧ Z.of_nat (length (all ++ Response.Data response)) < limit
      ∧ allContinue limit (all ++ Response.Data response) rest
  end.

(** A successful run for [limit] from world [w] that returned [res] in
    world [w'] stopped at the first page at which (a), (b) or (c) held. *)
Definition stopsAtFirst {T : Type} (env : Env) (pageURL : Z → string)
    (unmarshal : string → error + Response.t T)
    (limit : Z) (w : World) (res : list T) (w' : World) : Prop :=
  (limit = 0 ∧ res = [] ∧ w' = w)
  ∨ ∃ before last,
      0 < limit
      ∧ servePages env pageURL unmarshal (S (length before)) 1 w
        = Some (before ++ [last], w')
      ∧ allContinue limit [] before
      ∧ ((exhausted last ∧ res = items before)
         ∨ (¬ exhausted last
            ∧ limit ≤ Z.of_nat (length (items before ++ Response.Data last))
            ∧ res = take (Z.to_nat limit) (items before ++ Response.Data last)
            ∧ Z.of_nat (length res) = limit)).

(** *** Tables *)

(** The records of a file, none if it was never created. *)
Definition table (w : World) (path : string) : list Row :=
  default [] (files w !! path).

(** Writing a sequence of records, stopping at the first refusal. *)
Fixpoint writeAll (env : Env) (path : string) (rows : list Row) : M (option error) :=
  match rows with
  | [] => mret None
  | row :: rest => orReturn (Exporter.Write env path row) (writeAll env path rest)
  end.

(** The shape of every export: create the file, write the header, write
    the rows. *)
Definition export (env : Env) (path : string) (header : Row) (rows : list Row)
  : M (option error) :=
  orReturn (Exporter.Create env path)
    (orReturn (Exporter.Write env path header) (writeAll env path rows)).

(** The file system accepts everything. *)
Definition healthy (env : Env) : Prop :=
  (∀ path, mkdirAll env path = None)
  ∧ (∀ path, create env path = None)
  ∧ (∀ path n row, write env path n row = None).

(** The error [e] was raised by [os.Create] or by a [Write]. *)
Definition raisedByDisk (env : Env) (e : error) : Prop :=
  (∃ path, create env path = Some e) ∨ (∃ path n row, write env path n row = Some e).

(** The statistics rows of a list whose head is at position [i]: one for
    each entry that has a snapshot. *)
Fixpoint statisticsTable (env : Env) (i : nat) (animeList : list AnimeData.t) : list Row :=
  match animeList with
  | [] => []
  | anime :: rest =>
      match AnimeData.Statistics anime with
      | None => statisticsTable env (S i) rest
      | Some stats =>
          Exporter.statisticsRow anime stats
            (rangeScores env i (AnimeStatistics.Scores stats))
          :: statisticsTable env (S i) rest
      end
  end.

Definition hasStatistics (anime : AnimeData.t) : bool :=
  match AnimeData.Statistics anime with Some _ => true | None => false end.

(** The column of a score key: [idx] in the exporter, if the key is the
    decimal form of a score from 1 to 10. *)
Definition slotOf (key : string) : option nat :=
  match Strconv.Atoi key with
  | Some n => if (1 <=? n) && (n <=? 10) then Some (Z.to_nat (n - 1)) else None
  | None => None
  end.

(** No two keys of the map name the same score. *)
Definition unambiguous (scores : gmap string ScoreData.t) : Prop :=
  ∀ k1 k2 i, is_Some (scores !! k1) → is_Some (scores !! k2) →
    slotOf k1 = Some i → slotOf k2 = Some i → k1 = k2.

(** The same environment with another visiting order of the maps. *)
Definition withRange (env : Env)
    (range : nat → gmap string ScoreData.t → list (string * ScoreData.t)) : Env :=
  {| http := http env;
     unmarshalAnimeResponse := unmarshalAnimeResponse env;
     unmarshalSingleAnimeResponse := unmarshalSingleAnimeResponse env;
     unmarshalReviewResponse := unmarshalReviewResponse env;
     rangeScores := range;
     mkdirAll := mkdirAll env;
     create := create env;
     write := write env |}.

(** Line feeds and carriage returns turned into one space each, byte by
    byte. *)
Fixpoint breaksToSpaces (s : string) : string :=
  match s with
  | EmptyString => EmptyString
  | String c s' =>
      String (if Ascii.eqb c Exporter.LF || Ascii.eqb c Exporter.CR then " "%char else c)
        (breaksToSpaces s')
  end.

(** The byte [c] occurs in [s]. *)
Fixpoint occurs (c : ascii) (s : string) : Prop :=
  match s with
  | EmptyString => False
  | String c' s' => c' = c ∨ occurs c s'
  end.

(** The [review_text] column is the ninth. *)
Definition review_text (row : Row) : option string := row !! 8%nat.

(** A byte that continues a character of a UTF-8 text: 10xxxxxx. *)
Definition continuation (c : ascii) : bool :=
  let n := nat_of_ascii c in ((128 <=? n) && (n <? 192))%nat.

(** The characters of a UTF-8 text, as [utf8.RuneCountInString] counts
    them in a valid one: the bytes that start a character. *)
Fixpoint characters (s : string) : nat :=
  match s with
  | EmptyString => 0%nat
  | String c s' => ((if continuation c then 0 else 1) + characters s')%nat
  end.

(** The binary64 numbers nearest to 12.34 and equal to 3. *)
Definition pct_12_34 : spec_float := S754_finite false 6946802425218990 (-49).
Definition pct_3 : spec_float := S754_finite false 6755399441055744 (-51).

(** The scores of the round trip: 1 with 5 votes and 12.34 percent, 7
    with 2 votes and 3.00 percent. *)
Definition roundTripScores : gmap string ScoreData.t :=
  {[ "1"%string := {| ScoreData.Votes := 5; ScoreData.Percentage := pct_12_34 |};
     "7"%string := {| ScoreData.Votes := 2; ScoreData.Percentage := pct_3 |} ]}.

(** No two entries of a visiting order go to the same column. *)
Definition compatible (visit : list (string * ScoreData.t)) : Prop :=
  ∀ e1 e2 i, e1 ∈ visit → e2 ∈ visit →
    slotOf e1.1 = Some i → slotOf e2.1 = Some i → e1 = e2.

(** *** The enrichment passes

    What the detail pass makes of a list of entries, from one world to
    another: an entry whose fetch fails is skipped and the pass goes on
    with the rest; the record of an entry whose fetch succeeds is kept,
    and the pass sleeps before the next. *)
Inductive Enriched (env : Env)
  : World → list AnimeData.t → list AnimeData.t → World → Prop :=
| Enriched_done w :
    Enriched env w [] [] w
| Enriched_skip w anime rest detailed e w1 out w' :
    GetAnimeDetails env (AnimeData.MalID anime) w = ((detailed, Some e), w1) →
    Enriched env w1 rest out w' →
    Enriched env w (anime :: rest) out w'
| Enriched_keep w anime rest detailed w1 out w' :
    GetAnimeDetails env (AnimeData.MalID anime) w = ((Some detailed, None), w1) →
    Enriched env (Sleep RateLimitDelay w1).2 rest out w' →
    Enriched env w (anime :: rest) (detailed :: out) w'.

(** The same for the review pass, which keeps all the reviews of an
    entry whose fetch succeeds. *)
Inductive Reviewed (env : Env)
  : World → list AnimeData.t → list ReviewData.t → World → Prop :=
| Reviewed_done w :
    Reviewed env w [] [] w
| Reviewed_skip w anime rest reviews e w1 out w' :
    GetAnimeReviews env (AnimeData.MalID anime) Collector.reviewLimit w
    = ((reviews, Some e), w1) →
    Reviewed env w1 rest out w' →
    Reviewed env w (anime :: rest) out w'
| Reviewed_keep w anime rest reviews w1 out w' :
    GetAnimeReviews env (AnimeData.MalID anime) Collector.reviewLimit w
    = ((reviews, None), w1) →
    Reviewed env w1 rest out w' →
    Reviewed env w (anime :: rest) (reviews ++ out) w'.

(** *** Accounting of a fetch *)

(** The answers to the first [k] GETs that a call starting in [w] sends. *)
Definition answers (env : Env) (url : string) (w : World) (k : nat) : list Attempt :=
  map (answer env url w) (seq 0 k).

(** The answer is a 429. *)
Definition rateLimitedAnswer (a : Attempt) : bool :=
  match a with
  | TransportError _ => false
  | HTTPResponse StatusCode _ _ => StatusCode =? 429
  end.

(** How many of the answers are 429s. *)
Definition backoffs (l : list Attempt) : Z :=
  Z.of_nat (length (List.filter rateLimitedAnswer l)).

(** How many of [k] turns of the loop, the first of them numbered
    [attempt], start with the retry delay: all but attempt 1. *)
Definition retrySleeps (attempt : Z) (k : nat) : Z :=
  if 1 <? attempt then Z.of_nat k else Z.of_nat (Nat.pred k).

(** The requests for the pages from [page] on, the [i]-th of them sent
    as many times as the [i]-th number of [tries]. *)
Fixpoint pageRequests (pageURL : Z → string) (page : Z) (tries : list nat) : list string :=
  match tries with
  | [] => []
  | k :: rest => replicate k (pageURL page) ++ pageRequests pageURL (page + 1) rest
  end.

(** *** The five tables, header first *)

Definition basicFile (animeList : list AnimeData.t) : list Row :=
  Exporter.basicHeader :: map Exporter.basicRow animeList.

Definition genresFile (animeList : list AnimeData.t) : list Row :=
  Exporter.genresHeader
  :: flat_map (λ anime, map (Exporter.tagRow anime) (AnimeData.Genres anime)) animeList.

Definition studiosFile (animeList : list AnimeData.t) : list Row :=
  Exporter.studiosHeader
  :: flat_map (λ anime, map (Exporter.tagRow anime) (AnimeData.Studios anime)) animeList.

Definition statisticsFile (env : Env) (animeList : list AnimeData.t) : list Row :=
  Exporter.statisticsHeader :: statisticsTable env 0 animeList.

Definition reviewsFile (reviews : list ReviewData.t) : list Row :=
  Exporter.reviewsHeader :: map Exporter.reviewRow reviews.

(** The run changed nothing but the file at [path]. *)
Definition touchedOnly (path : string) (w w' : World) : Prop :=
  requests w' = requests w
  ∧ slept w' = slept w
  ∧ ∀ p, p ≠ path → files w' !! p = files w !! p.

(** The five exports of a run over a list of entries and a list of
    reviews: the file of each, the records it is to leave there, header
    first, and the function. *)
Definition exports (env : Env) (animeList : list AnimeData.t) (reviews : list ReviewData.t)
  : list (string * list Row * M (option error)) :=
  [(AnimeBasicCSV, basicFile animeList, Exporter.ExportAnimeBasicData env animeList);
   (AnimeGenresCSV, genresFile animeList, Exporter.ExportAnimeGenres env animeList);
   (AnimeStudiosCSV, studiosFile animeList, Exporter.ExportAnimeStudios env animeList);
   (AnimeStatisticsCSV, statisticsFile env animeList,
    Exporter.ExportAnimeStatistics env animeList);
   (AnimeReviewsCSV, reviewsFile reviews, Exporter.ExportAnimeReviews env reviews)].

End Spec.

(** ** Environments to run the model on *)

Module Mock.

Definition eof : error := ExternalError "unexpected end of JSON input".

(** An upstream that answers [http], decoders that reject every body, a
    file system that never fails, maps visited in [map_to_list] order. *)
Definition upstream (http : string → nat → Attempt) : Env :=
  {| http := http;
     unmarshalAnimeResponse := λ _, inl eof;
     unmarshalSingleAnimeResponse := λ _, inl eof;
     unmarshalReviewResponse := λ _, inl eof;
     rangeScores := λ _ m, map_to_list m;
     mkdirAll := λ _, None;
     create := λ _, None;
     write := λ _ _ _, None |}.

Definition rateLimited : Env := upstream (λ _ _, HTTPResponse 429 EmptyString None).

Definition unavailable : Env := upstream (λ _ _, HTTPResponse 503 EmptyString None).

(** Entries, reviews and pages with only the fields the loops look at. *)
Definition anime (id : Z) (statistics : option AnimeStatistics.t) : AnimeData.t :=
  {| AnimeData.MalID := id;
     AnimeData.URL := EmptyString;
     AnimeData.Title := "Title";
     AnimeData.TitleEnglish := EmptyString;
     AnimeData.TitleJapanese := EmptyString;
     AnimeData.Type_ := "TV";
     AnimeData.Source := "Manga";
     AnimeData.Episodes := 12;
     AnimeData.Status := "Finished Airing";
     AnimeData.Airing := false;
     AnimeData.Aired := {| Aired.From := "2008"; Aired.To := "2009" |};
     AnimeData.Duration := "24 min";
     AnimeData.Rating := "PG-13";
     AnimeData.Score := S754_finite false 9 (-1);
     AnimeData.ScoredBy := 100;
     AnimeData.Rank := id;
     AnimeData.Popularity := id;
     AnimeData.Members := 1000;
     AnimeData.Favorites := 10;
     AnimeData.Synopsis := EmptyString;
     AnimeData.Background := EmptyString;
     AnimeData.Season := "fall";
     AnimeData.Year := 2008;
     AnimeData.Genres := [];
     AnimeData.Studios := [];
     AnimeData.Statistics := statistics |}.

Definition review (id animeID : Z) (text : string) : ReviewData.t :=
  {| ReviewData.MalID := id;
     ReviewData.URL := EmptyString;
     ReviewData.Type_ := "anime";
     ReviewData.ReviewedAt := "2020-01-01";
     ReviewData.Review := text;
     ReviewData.Score := 8;
     ReviewData.Tags := ["Recommended"; "Funny"];
     ReviewData.IsSpoiler := false;
     ReviewData.User :=
       {| User.Username := "reader"; User.URL := EmptyString; User.ImageURL := EmptyString |};
     ReviewData.Anime :=
       {| AnimeRef.MalID := animeID; AnimeRef.URL := EmptyString; AnimeRef.Title := "Title" |} |}.

Definition page {T : Type} (data : list T) (hasNextPage : bool) : Response.t T :=
  {| Response.Data := data;
     Response.Pagination :=
       {| Pagination.LastVisiblePage := 1;
          Pagination.HasNextPage := hasNextPage;
          Pagination.CurrentPage := 1;
          Pagination.Items :=
            {| Items.Count := Z.of_nat (length data);
               Items.Total := Z.of_nat (length data);
               Items.PerPage := 25 |} |} |}.

(** A site: the pages of the ranked list, the detail record and the
    review pages of some entries, and the URLs that are out of order. *)
Record Site := {
  topPages : list AnimeResponse;
  details : list AnimeData.t;
  reviewPages : list (Z * list ReviewResponse);
  down : list string
}.

(** The body of a good answer is the URL itself; the decoders find the
    page of that URL. *)
Fixpoint pageAt {R : Type} (url : Z → string) (page : Z) (pages : list R) (body : string)
  : error + R :=
  match pages with
  | [] => inl eof
  | p :: rest =>
      if String.eqb (url page) body then inr p else pageAt url (page + 1) rest body
  end.

Fixpoint detailAt (records : list AnimeData.t) (body : string)
  : error + SingleAnimeResponse.t :=
  match records with
  | [] => inl eof
  | a :: rest =>
      if String.eqb (Api.animeDetailsURL (AnimeData.MalID a)) body
      then inr {| SingleAnimeResponse.Data := a |}
      else detailAt rest body
  end.

Fixpoint reviewsAt (pages : list (Z * list ReviewResponse)) (body : string)
  : error + ReviewResponse :=
  match pages with
  | [] => inl eof
  | (malID, ps) :: rest =>
      match pageAt (Api.animeReviewsURL malID) 1 ps body with
      | inr p => inr p
      | inl _ => reviewsAt rest body
      end
  end.

Definition site (s : Site) : Env :=
  {| http := λ url _,
       if existsb (String.eqb url) (down s)
       then HTTPResponse 503 EmptyString None
       else HTTPResponse 200 url None;
     unmarshalAnimeResponse := pageAt Api.topAnimeURL 1 (topPages s);
     unmarshalSingleAnimeResponse := detailAt (details s);
     unmarshalReviewResponse := reviewsAt (reviewPages s);
     rangeScores := λ _ m, map_to_list m;
     mkdirAll := λ _, None;
     create := λ _, None;
     write := λ _ _ _, None |}.

(** A ranked list and a review list that fit on one page each. *)
Definition small : Site :=
  {| topPages := [page [anime 1 None; anime 2 None; anime 3 None] false];
     details := [];
     reviewPages := [(1, [page [review 11 1 "Good."; review 12 1 "Bad."] false])];
     down := [] |}.

(** Pages of two. *)
Definition paged : Site :=
  {| topPages := [page [anime 1 None; anime 2 None] true;
                  page [anime 3 None; anime 4 None] true;
                  page [anime 5 None] false];
     details := [];
     reviewPages := [(1, [page [review 11 1 "Good."; review 12 1 "Bad."] true;
                          page [review 13 1 "Fine."] false])];
     down := [] |}.

(** Review bodies: one with line breaks of both styles, one of 32050
    bytes without any. *)
Definition brokenBody : string :=
  "Line one." +:+ String Exporter.LF ("Line two." +:+
  String Exporter.CR (String Exporter.LF "Line three.")).

Definition longBody : string :=
  string_of_list_ascii (repeat "a"%char (Z.to_nat 32050)).

(** A body of 20000 characters of two bytes each, the letter e with an
    acute accent (C3 A9), without a line break: 40000 bytes. *)
Fixpoint copies (n : nat) (s : string) : string :=
  match n with
  | O => EmptyString
  | S n' => s +:+ copies n' s
  end.

Definition accentedBody : string :=
  copies (Z.to_nat 20000) (String (ascii_of_nat 195) (String (ascii_of_nat 169) EmptyString)).

(** Two keys for the score 7. *)
Definition twoSevens : gmap string ScoreData.t :=
  {[ "7"%string := {| ScoreData.Votes := 1; ScoreData.Percentage := Spec.pct_3 |};
     "07"%string := {| ScoreData.Votes := 2; ScoreData.Percentage := Spec.pct_12_34 |} ]}.

(** The key of the score 1 among keys that name no score from 1 to 10. *)
Definition strayKeys : gmap string ScoreData.t :=
  {[ "1"%string := {| ScoreData.Votes := 5; ScoreData.Percentage := Spec.pct_12_34 |};
     "11"%string := {| ScoreData.Votes := 9; ScoreData.Percentage := Spec.pct_3 |};
     "0"%string := {| ScoreData.Votes := 8; ScoreData.Percentage := Spec.pct_3 |};
     "ten"%string := {| ScoreData.Votes := 7; ScoreData.Percentage := Spec.pct_3 |} ]}.

Definition statistics (scores : gmap string ScoreData.t) : AnimeStatistics.t :=
  {| AnimeStatistics.Watching := 10;
     AnimeStatistics.Completed := 20;
     AnimeStatistics.OnHold := 3;
     AnimeStatistics.Dropped := 4;
     AnimeStatistics.PlanToWatch := 5;
     AnimeStatistics.Total := 42;
     AnimeStatistics.Scores := scores |}.

(** A ranked list of two entries; the detail of the first and the
    reviews of the second are out of order. *)
Definition flaky : Site :=
  {| topPages := [page [anime 1 None; anime 2 None] true; page [] false];
     details := [anime 2 (Some (statistics Spec.roundTripScores))];
     reviewPages := [(1, [page [review 11 1 brokenBody] true; page [] false])];
     down := [Api.animeDetailsURL 1; Api.animeReviewsURL 2 1] |}.

(** An upstream that answers 429 to the first two requests and 200 with
    a body to the others. *)
Definition busy : Env :=
  upstream (λ _ n, match n with
                   | O | S O => HTTPResponse 429 EmptyString None
                   | _ => HTTPResponse 200 "{}" None
                   end).

(** The small site on a disk where no file can be created. *)
Definition denied : error := ExternalError "permission denied".

Definition onDisk (s : Site) (create : string → option error)
    (write : string → nat → Row → option error) : Env :=
  {| http := http (site s);
     unmarshalAnimeResponse := unmarshalAnimeResponse (site s);
     unmarshalSingleAnimeResponse := unmarshalSingleAnimeResponse (site s);
     unmarshalReviewResponse := unmarshalReviewResponse (site s);
     rangeScores := rangeScores (site s);
     mkdirAll := λ _, None;
     create := create;
     write := write |}.

Definition readOnly : Env := onDisk small (λ _, Some denied) (λ _ _ _, None).

(** Entries with genres and studios. *)
Definition tag (id : Z) (name : string) : Tag.t :=
  {| Tag.MalID := id; Tag.Type_ := "anime"; Tag.Name := name |}.

Definition tagged (id : Z) (genres studios : list Tag.t) : AnimeData.t :=
  {| AnimeData.MalID := id;
     AnimeData.URL := EmptyString;
     AnimeData.Title := "Title";
     AnimeData.TitleEnglish := EmptyString;
     AnimeData.TitleJapanese := EmptyString;
     AnimeData.Type_ := "TV";
     AnimeData.Source := "Manga";
     AnimeData.Episodes := 12;
     AnimeData.Status := "Finished Airing";
     AnimeData.Airing := false;
     AnimeData.Aired := {| Aired.From := "2008"; Aired.To := "2009" |};
     AnimeData.Duration := "24 min";
     AnimeData.Rating := "PG-13";
     AnimeData.Score := S754_finite false 9 (-1);
     AnimeData.ScoredBy := 100;
     AnimeData.Rank := id;
     AnimeData.Popularity := id;
     AnimeData.Members := 1000;
     AnimeData.Favorites := 10;
     AnimeData.Synopsis := EmptyString;
     AnimeData.Background := EmptyString;
     AnimeData.Season := "fall";
     AnimeData.Year := 2008;
     AnimeData.Genres := genres;
     AnimeData.Studios := studios;
     AnimeData.Statistics := None |}.

Definition shelf : list AnimeData.t :=
  [tagged 1 [tag 1 "Action"; tag 2 "Drama"] [tag 4 "Bones"];
   tagged 2 [] [];
   tagged 3 [tag 2 "Drama"] [tag 4 "Bones"; tag 5 "Madhouse"]].

(** A site whose ranked list is the shelf; it has no detail records and
    no reviews. *)
Definition library : Site :=
  {| topPages := [page shelf true; page [] false];
     details := [];
     reviewPages := [];
     down := [] |}.

End Mock.

(** * Properties *)

Import Config Strconv Strings Api Exporter Collector Spec.

Ltac unfoldM :=
  unfold orReturn, step, mbind, M_bind, mret, M_ret, Sleep, Get in *.

(** ** strconv *)

Example Itoa_samples :
  (Itoa 0, Itoa 7, Itoa 120, Itoa (-45)) = ("0", "7", "120", "-45")%string.
Proof. reflexivity. Qed.

Example Atoi_samples :
  (Atoi "7", Atoi "07", Atoi "+7", Atoi "-3", Atoi EmptyString, Atoi "-", Atoi "7a",
   Atoi " 7", Atoi "9223372036854775808")
  = (Some 7, Some 7, Some 7, Some (-3), None, None, None, None, None).
Proof. reflexivity. Qed.

(** 0.125 and 0.375 are exact ties at two digits. *)
Example FormatFloat_samples :
  (FormatFloat (S754_finite false 1 (-3)) 2,
   FormatFloat (S754_finite false 3 (-3)) 2,
   FormatFloat (S754_finite true 5 (-1)) 2,
   FormatFloat (S754_zero true) 2,
   FormatFloat (S754_finite false 1 (-10)) 2)
  = ("0.12", "0.38", "-2.50", "-0.00", "0.00")%string.
Proof. reflexivity. Qed.

(** ** The retrying fetcher *)

Section Fetcher.
Variable env : Env.

(** A failing attempt costs one request and leaves its cause in [err]. *)
Lemma fetchAttempts_step n attempt url err body w c :
  failure (answer env url w 0) = Some c →
  ∃ body' w',
    length (requests w') = S (length (requests w)) ∧
    fetchAttempts env (S n) attempt url err body w
    = fetchAttempts env n (attempt + 1) url c body' w'.
Proof.
  unfold answer. rewrite Nat.add_0_r. intros Hc.
  cbn [fetchAttempts]. unfoldM.
  assert (Hlen : ∀ t, length (requests w ++ [t]) = S (length (requests w)))
    by (intros; rewrite length_app; cbn; lia).
  destruct (1 <? attempt); cbn [requests];
    destruct (http env url (length (requests w))) as [e|status read readErr];
    cbn [failure] in Hc;
    try (destruct (status =? 429)); try (destruct (negb (status =? 200)));
    try (destruct readErr); inversion Hc; subst;
    eexists _, _; (split; [|reflexivity]); cbn [requests]; apply Hlen.
Qed.

(** A run of failing attempts ends with the cause of the last one in
    [err]: none if that attempt was answered 429. *)
Lemma fetchAttempts_fail n : ∀ attempt url err body w,
  (∀ k, (k < n)%nat → failure (answer env url w k) ≠ None) →
  ∃ body',
    (fetchAttempts env n attempt url err body w).1
    = (match n with
       | O => err
       | S n' => default None (failure (answer env url w n'))
       end, body').
Proof.
  induction n as [|n IH]; intros attempt url err body w Hfail.
  { exists body. reflexivity. }
  destruct (failure (answer env url w 0)) as [c|] eqn:Hc;
    [|exfalso; apply (Hfail 0%nat); [lia|exact Hc]].
  destruct (fetchAttempts_step n attempt url err body w c Hc) as (body' & w' & Hlen & ->).
  assert (Hshift : ∀ k, answer env url w' k = answer env url w (S k)).
  { intros k. unfold answer. rewrite Hlen. f_equal. lia. }
  destruct (IH (attempt + 1) url c body' w') as [b Hb].
  { intros k Hk. rewrite Hshift. apply Hfail. lia. }
  exists b. rewrite Hb. destruct n as [|n'].
  - rewrite Hc. reflexivity.
  - rewrite Hshift. reflexivity.
Qed.

(** When every attempt fails and the last failure has a cause,
    [fetchData] returns [Exhausted] around that cause and no data. *)
Lemma fetchData_exhausted url w e :
  (∀ k, (k < 3)%nat → failure (answer env url w k) ≠ None) →
  failure (answer env url w 2) = Some (Some e) →
  (fetchData env url w).1 = (EmptyString, Some (Exhausted e)).
Proof.
  intros Hfail Hlast. unfold fetchData. unfoldM.
  destruct (fetchAttempts_fail 3 1 url None EmptyString w Hfail) as [b Hb].
  change (Z.to_nat MaxRetries) with 3%nat.
  destruct (fetchAttempts env 3 1 url None EmptyString w) as [[err body] w1].
  cbn [fst] in Hb. rewrite Hlast in Hb. cbn in Hb. inversion Hb; subst.
  reflexivity.
Qed.

(** When every attempt fails and the last one was answered 429,
    [fetchData] returns a nil error. *)
Lemma fetchData_last_429 url w :
  (∀ k, (k < 3)%nat → failure (answer env url w k) ≠ None) →
  failure (answer env url w 2) = Some None →
  ∃ body, (fetchData env url w).1 = (body, None).
Proof.
  intros Hfail Hlast. unfold fetchData. unfoldM.
  destruct (fetchAttempts_fail 3 1 url None EmptyString w Hfail) as [b Hb].
  change (Z.to_nat MaxRetries) with 3%nat.
  destruct (fetchAttempts env 3 1 url None EmptyString w) as [[err body] w1].
  cbn [fst] in Hb. rewrite Hlast in Hb. cbn in Hb. inversion Hb; subst.
  exists b. reflexivity.
Qed.

End Fetcher.

(** C1, at the failing input: an upstream that answers 429 to every
    request. All three attempts of [fetchData] fail, and it returns a nil
    error with an empty body, after three requests and nine seconds of
    sleep, where the claim has [Exhausted]. *)
Theorem fetchData_rate_limited_throughout :
  let url := topAnimeURL 1 in
  (∀ k, (k < 3)%nat → failure (answer Mock.rateLimited url World0 k) ≠ None) ∧
  fetchData Mock.rateLimited url World0
  = ((EmptyString, None),
     {| requests := [url; url; url]; slept := 9 * Second; files := ∅ |}).
Proof.
  split.
  - intros k _. discriminate.
  - vm_compute. reflexivity.
Qed.

(** The same slip can hand back a body that [io.ReadAll] gave up on:
    a read error on the first attempt, then 429 twice. *)
Example fetchData_partial_body :
  (fetchData
     (Mock.upstream (λ _ n, match n with
                            | O => HTTPResponse 200 "{da" (Some (ExternalError "unexpected EOF"))
                            | _ => HTTPResponse 429 EmptyString None
                            end))
     (topAnimeURL 1) World0).1
  = ("{da"%string, None).
Proof. vm_compute. reflexivity. Qed.

(** With another failure on every attempt the error is the one of the
    claim. *)
Example fetchData_unavailable :
  (fetchData Mock.unavailable (topAnimeURL 1) World0).1
  = (EmptyString, Some (Exhausted (StatusError 503))).
Proof. vm_compute. reflexivity. Qed.

(** ** The paginator *)

Section Paginator.
Context {T : Type}.
Variable env : Env.
Variable pageURL : Z → string.
Variable unmarshal : string → error + Response.t T.
Variable unmarshalFailed : string.

Abbreviation loop := (pageLoop env pageURL unmarshal unmarshalFailed).

(** A run that fails returns the nil slice. *)
Lemma pageLoop_error limit page all w res err w' :
  loop limit page all w = ((res, Some err), w') → res = [].
Proof.
  funelim (loop limit page all w); intros Hrun; try rewrite <- Heqcall in Hrun;
    [inversion Hrun..|]; subst; eauto.
Qed.

Lemma servePage_ok page w body w1 response :
  fetchData env (pageURL page) w = ((body, None), w1) →
  unmarshal body = inr response →
  servePage env pageURL unmarshal page w = Some (response, w1).
Proof. intros Hfetch Hdec. unfold servePage. rewrite Hfetch, Hdec. reflexivity. Qed.

(** A run that succeeds either never entered the loop, or read some
    pages [before] at which no condition held, then one page [last] at
    which (a) or (b) held, and returned what it had, or else (c) held
    there, and it returned the first [limit] items. *)
Lemma pageLoop_stops limit page all w res w' :
  loop limit page all w = ((res, None), w') →
  (limit ≤ Z.of_nat (length all) ∧ res = all ∧ w' = w)
  ∨ (Z.of_nat (length all) < limit
     ∧ ∃ before last,
         servePages env pageURL unmarshal (S (length before)) page w
         = Some (before ++ [last], w')
         ∧ allContinue limit all before
         ∧ ((exhausted last ∧ res = all ++ items before)
            ∨ (¬ exhausted last
               ∧ limit ≤ Z.of_nat (length (all ++ items before ++ Response.Data last))
               ∧ res = take (Z.to_nat limit)
                         (all ++ items before ++ Response.Data last)))).
Proof.
  funelim (loop limit page all w); intros Hrun; try rewrite <- Heqcall in Hrun.
  - inversion Hrun; subst. left. repeat split; lia.
  - discriminate.
  - discriminate.
  - inversion Hrun; subst. right. split; [assumption|].
    exists [], response. cbn [length servePages app items map concat allContinue].
    rewrite (servePage_ok _ _ _ _ _ Heq1 Heq0). cbn.
    split; [reflexivity|]. split; [exact I|].
    left. rewrite app_nil_r. auto.
  - inversion Hrun; subst. right. split; [assumption|].
    exists [], response. cbn [length servePages app items map concat allContinue].
    rewrite (servePage_ok _ _ _ _ _ Heq2 Heq1). cbn.
    split; [reflexivity|]. split; [exact I|].
    right. auto.
  - right. split; [assumption|].
    destruct (H _ _ Hrun) as [(Hle & _ & _) | (Hlt & before & last & Hserve & Hcont & Hend)];
      [contradiction|].
    exists (response :: before), last.
    split; [|split].
    + change (S (length (response :: before))) with (S (S (length before))).
      cbn [servePages]. rewrite (servePage_ok _ _ _ _ _ Heq2 Heq1). cbn [mbind option_bind].
      cbn [servePages] in Hserve. rewrite Hserve. reflexivity.
    + cbn [allContinue]. repeat split; [assumption|lia|assumption].
    + unfold items in *. cbn [map concat].
      rewrite <- !app_assoc in Hend. rewrite <- !(app_assoc (Response.Data response)).
      exact Hend.
Qed.

(** While no condition holds the accumulated count is below the limit. *)
Lemma allContinue_below limit (before : list (Response.t T)) : ∀ all,
  Z.of_nat (length all) < limit →
  allContinue limit all before →
  Z.of_nat (length (all ++ items before)) < limit.
Proof.
  induction before as [|response rest IH]; intros all Hlt Hcont.
  - unfold items. cbn. rewrite app_nil_r. exact Hlt.
  - destruct Hcont as (_ & Hlt' & Hrest).
    unfold items in *. cbn [map concat]. rewrite app_assoc. apply IH; assumption.
Qed.

(** Whatever the run, it returns at most [limit] items when it started
    with at most that many. *)
Lemma pageLoop_length limit page all w :
  Z.of_nat (length all) ≤ limit →
  Z.of_nat (length (loop limit page all w).1.1) ≤ limit.
Proof.
  intros Hall.
  destruct (loop limit page all w) as [[res [err|]] w'] eqn:Hrun; cbn [fst].
  - rewrite (pageLoop_error _ _ _ _ _ _ _ Hrun). cbn. lia.
  - destruct (pageLoop_stops _ _ _ _ _ _ Hrun)
      as [(_ & -> & _) | (Hlt & before & last & _ & Hcont & [[_ ->] | (_ & Hle & ->)])].
    + exact Hall.
    + pose proof (allContinue_below _ _ _ Hlt Hcont). lia.
    + rewrite length_take. lia.
Qed.

End Paginator.

(** C10. For a limit of zero or less, [GetTopAnime] and [GetAnimeReviews]
    return the empty collection and no error, and leave the world as it
    was: no request is sent. *)
Theorem no_fetch_for_nonpositive_limit (env : Env) (malID limit : Z) (w : World) :
  limit ≤ 0 →
  GetTopAnime env limit w = (([], None), w)
  ∧ GetAnimeReviews env malID limit w = (([], None), w).
Proof.
  intros Hle. unfold GetTopAnime, GetAnimeReviews. simp pageLoop.
  destruct (decide (Z.of_nat (length []) < limit)) as [Hlt|Hge]; cbn in *; [lia|].
  split; reflexivity.
Qed.

Lemma no_fetch_for_nonpositive_limit_witness :
  GetTopAnime (Mock.site Mock.paged) (-5) World0 = (([], None), World0)
  ∧ GetAnimeReviews (Mock.site Mock.paged) 1 (-5) World0 = (([], None), World0).
Proof. apply (no_fetch_for_nonpositive_limit (Mock.site Mock.paged) 1 (-5) World0). lia. Defined.

Lemma stopsAtFirst_of_loop {T : Type} (env : Env) (pageURL : Z → string)
    (unmarshal : string → error + Response.t T) (msg : string) limit w res w' :
  0 ≤ limit →
  pageLoop env pageURL unmarshal msg limit 1 [] w = ((res, None), w') →
  stopsAtFirst env pageURL unmarshal limit w res w'.
Proof.
  intros Hpos Hrun.
  destruct (pageLoop_stops _ _ _ _ _ _ _ _ _ _ Hrun)
    as [(Hle & Hres & Hw) | (Hlt & before & last & Hserve & Hcont & Hend)].
  - left. cbn in Hle. repeat split; [lia|assumption..].
  - right. exists before, last. split; [cbn in Hlt; lia|].
    split; [exact Hserve|]. split; [exact Hcont|].
    cbn [app] in Hend. destruct Hend as [Hend | (Hne & Hle & ->)]; [left; exact Hend|].
    right. repeat split; try assumption. rewrite length_take. lia.
Qed.

(** C3. A run of either paginator that returns a collection stops at the
    first page that is empty (a), or has no next page (b), or brings the
    accumulated count to the target count (c): no condition held at a
    page before the one the run ended at. In case (c) it returns exactly
    the target count of items; and no run, whether it returns a
    collection or an error, returns more items than the target count.
    The target count is a count: zero or more. *)
Theorem paginator_stops_at_first_condition (env : Env) (malID limit : Z) (w : World) :
  0 ≤ limit →
  (∀ res w', GetTopAnime env limit w = ((res, None), w') →
     stopsAtFirst env topAnimeURL (unmarshalAnimeResponse env) limit w res w')
  ∧ (∀ res w', GetAnimeReviews env malID limit w = ((res, None), w') →
       stopsAtFirst env (animeReviewsURL malID) (unmarshalReviewResponse env) limit w res w')
  ∧ Z.of_nat (length (GetTopAnime env limit w).1.1) ≤ limit
  ∧ Z.of_nat (length (GetAnimeReviews env malID limit w).1.1) ≤ limit.
Proof.
  intros Hpos. unfold GetTopAnime, GetAnimeReviews.
  repeat split.
  - intros res w'. apply stopsAtFirst_of_loop, Hpos.
  - intros res w'. apply stopsAtFirst_of_loop, Hpos.
  - apply pageLoop_length. cbn. lia.
  - apply pageLoop_length. cbn. lia.
Qed.

Lemma paginator_stops_at_first_condition_witness :
  let env := Mock.site Mock.paged in
  let top := GetTopAnime env 3 World0 in
  let reviews := GetAnimeReviews env 1 3 World0 in
  stopsAtFirst env topAnimeURL (unmarshalAnimeResponse env) 3 World0 top.1.1 top.2
  ∧ stopsAtFirst env (animeReviewsURL 1) (unmarshalReviewResponse env) 3 World0
      reviews.1.1 reviews.2
  ∧ Z.of_nat (length top.1.1) ≤ 3
  ∧ Z.of_nat (length reviews.1.1) ≤ 3.
Proof.
  intros env top reviews.
  destruct (paginator_stops_at_first_condition env 1 3 World0) as (Htop & Hrev & Hlt & Hlr);
    [lia|].
  repeat split.
  - apply Htop. vm_compute. reflexivity.
  - apply Hrev. vm_compute. reflexivity.
  - exact Hlt.
  - exact Hlr.
Defined.

Example GetTopAnime_paged :
  (GetTopAnime (Mock.site Mock.paged) 3 World0).1
  = ([Mock.anime 1 None; Mock.anime 2 None; Mock.anime 3 None], None).
Proof. vm_compute. reflexivity. Qed.

(** What the length of a successful run is: the target count, or the
    number of items of the pages read before the one that ended the run
    when that one was empty or had no next page. The items of that last
    page are not counted: they are not returned. *)
Lemma paginator_length {T : Type} (env : Env) (pageURL : Z → string)
    (unmarshal : string → error + Response.t T) limit w res w' :
  stopsAtFirst env pageURL unmarshal limit w res w' →
  limit = 0 ∧ res = []
  ∨ ∃ before last,
      (fst <$> servePages env pageURL unmarshal (S (length before)) 1 w)
      = Some (before ++ [last])
      ∧ ((exhausted last
          ∧ Z.of_nat (length res) = Z.min limit (Z.of_nat (length (items before))))
         ∨ (¬ exhausted last
            ∧ Z.of_nat (length res)
              = Z.min limit (Z.of_nat (length (items (before ++ [last])))))).
Proof.
  intros [(-> & -> & _) | (before & last & Hpos & Hserve & Hcont & Hend)]; [left; auto|].
  right. exists before, last. rewrite Hserve. split; [reflexivity|].
  destruct Hend as [[Hex ->] | (Hne & Hle & _ & Hlen)].
  - left. split; [exact Hex|].
    pose proof (allContinue_below limit before [] ltac:(cbn; lia) Hcont) as Hbelow.
    cbn [app] in Hbelow. lia.
  - right. split; [exact Hne|].
    unfold items in *. rewrite map_app, concat_app. cbn [map concat].
    rewrite app_nil_r. lia.
Qed.

(** C2, at the failing input: a ranked list and a review list of one
    page each, the page holding all the items and no next page. Each
    paginator reads that page and returns nothing and no error, where
    the claim has [min(10, 3) = 3] entries and [min(10, 2) = 2]
    reviews. *)
Theorem last_page_dropped :
  let env := Mock.site Mock.small in
  let top := GetTopAnime env 10 World0 in
  let reviews := GetAnimeReviews env 1 10 World0 in
  (∃ pages,
     servePages env topAnimeURL (unmarshalAnimeResponse env) 1 1 World0
     = Some (pages, top.2)
     ∧ Z.min 10 (Z.of_nat (length (items pages))) = 3
     ∧ top.1 = ([], None))
  ∧ (∃ pages,
       servePages env (animeReviewsURL 1) (unmarshalReviewResponse env) 1 1 World0
       = Some (pages, reviews.2)
       ∧ Z.min 10 (Z.of_nat (length (items pages))) = 2
       ∧ reviews.1 = ([], None)).
Proof.
  split.
  - exists [Mock.page [Mock.anime 1 None; Mock.anime 2 None; Mock.anime 3 None] false].
    vm_compute. repeat split; reflexivity.
  - exists [Mock.page [Mock.review 11 1 "Good."; Mock.review 12 1 "Bad."] false].
    vm_compute. repeat split; reflexivity.
Qed.

(** ** The csv writer *)

Section Writer.
Variable env : Env.

Lemma Write_inv path row w err w' :
  Write env path row w = (err, w') →
  (err = None
   ∧ files w' !! path = Some (table w path ++ [row])
   ∧ requests w' = requests w ∧ slept w' = slept w)
  ∨ (w' = w ∧ ∃ e, err = Some e ∧ write env path (length (table w path)) row = Some e).
Proof.
  unfold Write, table. intros Hrun.
  destruct (write env path (length (default [] (files w !! path))) row) as [e|] eqn:Hw;
    inversion Hrun; subst; cbn.
  - right. split; [reflexivity|]. exists e. split; reflexivity.
  - left. rewrite lookup_insert_eq. auto.
Qed.

(** Records accepted so far stay in the file, also when a later one is
    refused. *)
Lemma writeAll_inv path rows : ∀ w err w',
  writeAll env path rows w = (err, w') →
  match err with
  | None =>
      table w' path = table w path ++ rows
      ∧ (rows ≠ [] → is_Some (files w' !! path))
      ∧ (rows = [] → w' = w)
  | Some e => raisedByDisk env e
  end.
Proof.
  induction rows as [|row rest IH]; intros w err w' Hrun.
  - inversion Hrun; subst. rewrite app_nil_r.
    split; [reflexivity|]. split; [intros []; reflexivity|reflexivity].
  - cbn [writeAll] in Hrun. unfoldM.
    destruct (Write env path row w) as [err1 w1] eqn:Hwrite.
    destruct (Write_inv _ _ _ _ _ Hwrite) as [(-> & Hfile & _) | (-> & e & -> & Hrefused)].
    + specialize (IH _ _ _ Hrun). destruct err as [e|]; [exact IH|].
      destruct IH as (Htab & Hsome & Hsame).
      assert (Htab1 : table w1 path = table w path ++ [row])
        by (unfold table at 1; rewrite Hfile; reflexivity).
      split; [|split].
      * rewrite Htab, Htab1, <- app_assoc. reflexivity.
      * intros _. destruct rest as [|r rest'].
        -- rewrite (Hsame eq_refl). rewrite Hfile. eauto.
        -- apply Hsome. discriminate.
      * discriminate.
    + inversion Hrun; subst. right. eauto.
Qed.

Lemma writeAll_healthy path rows : ∀ w,
  healthy env → ∃ w', writeAll env path rows w = (None, w').
Proof.
  intros w (_ & _ & Hwrite). revert w.
  induction rows as [|row rest IH]; intros w.
  - eexists. reflexivity.
  - cbn [writeAll]. unfoldM. unfold Write. rewrite Hwrite. apply IH.
Qed.

Lemma export_inv path header rows w err w' :
  export env path header rows w = (err, w') →
  match err with
  | None => files w' !! path = Some (header :: rows)
  | Some e => raisedByDisk env e
  end.
Proof.
  unfold export. unfoldM. unfold Create.
  destruct (create env path) as [e|] eqn:Hcreate.
  { intros Hrun. inversion Hrun; subst. left. eauto. }
  set (w0 := {| requests := requests w; slept := slept w; files := <[path:=[]]> (files w) |}).
  destruct (Write env path header w0) as [err1 w1] eqn:Hwrite.
  destruct (Write_inv _ _ _ _ _ Hwrite) as [(-> & Hfile & _) | (-> & e & -> & Hrefused)].
  - intros Hrun. pose proof (writeAll_inv _ _ _ _ _ Hrun) as Hrows.
    destruct err as [e|]; [exact Hrows|].
    destruct Hrows as (Htab & Hsome & Hsame).
    assert (Hhead : table w1 path = [header]).
    { unfold table at 1. rewrite Hfile. unfold table, w0. cbn.
      rewrite lookup_insert_eq. reflexivity. }
    destruct rows as [|r rest].
    + rewrite (Hsame eq_refl), Hfile. unfold table, w0. cbn.
      rewrite lookup_insert_eq. reflexivity.
    + destruct Hsome as [t Ht]; [discriminate|].
      unfold table in Htab at 1. rewrite Ht in Htab. cbn in Htab.
      rewrite Ht, Htab, Hhead. reflexivity.
  - intros Hrun. inversion Hrun; subst. right. eauto.
Qed.

Lemma export_healthy path header rows w :
  healthy env → ∃ w', export env path header rows w = (None, w').
Proof.
  intros Hdisk. pose proof Hdisk as (_ & Hcreate & Hwrite).
  unfold export. unfoldM. unfold Create, Write at 1. rewrite Hcreate, Hwrite.
  apply writeAll_healthy, Hdisk.
Qed.

Lemma writeAll_accepted path rows : ∀ w t,
  files w !! path = Some t →
  (∀ i row, rows !! i = Some row → write env path (length t + i) row = None) →
  writeAll env path rows w
  = (None, {| requests := requests w; slept := slept w;
              files := <[path := t ++ rows]> (files w) |}).
Proof.
  induction rows as [|row rest IH]; intros w t Ht Hacc.
  - cbn. rewrite app_nil_r, (insert_id _ _ _ Ht). destruct w; reflexivity.
  - assert (Hw0 : write env path (length t) row = None).
    { rewrite <- (Nat.add_0_r (length t)). apply Hacc. reflexivity. }
    cbn [writeAll]. unfoldM. unfold Write. rewrite Ht.
    change (default [] (Some t)) with t. rewrite Hw0.
    rewrite (IH _ (t ++ [row])).
    + cbn [requests slept files]. rewrite insert_insert_eq, <- app_assoc. reflexivity.
    + cbn [files]. apply lookup_insert_eq.
    + intros i r Hi. rewrite length_app. cbn [length].
      replace (length t + 1 + i)%nat with (length t + S i)%nat by lia.
      apply Hacc. exact Hi.
Qed.

(** On a file system that lets the file be created and takes every
    record, an export returns no error and leaves the header and the
    records in the file, and everything else as it was. *)
Lemma export_accepted path header rows w :
  create env path = None →
  (∀ n row, (header :: rows) !! n = Some row → write env path n row = None) →
  export env path header rows w
  = (None, {| requests := requests w; slept := slept w;
              files := <[path := header :: rows]> (files w) |}).
Proof.
  intros Hcreate Hall. unfold export. unfoldM. unfold Create. rewrite Hcreate.
  unfold Write. cbn [files]. rewrite lookup_insert_eq.
  change (length (default [] (Some []))) with 0%nat.
  change (default [] (Some []) ++ [header]) with [header].
  rewrite (Hall 0%nat header eq_refl).
  rewrite (writeAll_accepted path rows _ [header]).
  - cbn [requests slept files app]. rewrite !insert_insert_eq. reflexivity.
  - apply lookup_insert_eq.
  - intros i row Hi. apply (Hall (S i) row Hi).
Qed.

Lemma export_healthy_run path header rows w :
  healthy env →
  export env path header rows w = (None, (export env path header rows w).2).
Proof.
  intros Hdisk. destruct (export_healthy path header rows w Hdisk) as [w' Hrun].
  rewrite Hrun. reflexivity.
Qed.

Lemma basicRows_writeAll animeList : ∀ w,
  basicRows env animeList w = writeAll env AnimeBasicCSV (map basicRow animeList) w.
Proof.
  induction animeList as [|anime rest IH]; intros w; [reflexivity|].
  cbn [basicRows map writeAll]. unfoldM.
  destruct (Write env AnimeBasicCSV (basicRow anime) w) as [[e|] w1]; [reflexivity|apply IH].
Qed.

Lemma reviewRows_writeAll reviews : ∀ w,
  reviewRows env reviews w = writeAll env AnimeReviewsCSV (map reviewRow reviews) w.
Proof.
  induction reviews as [|review rest IH]; intros w; [reflexivity|].
  cbn [reviewRows map writeAll]. unfoldM.
  destruct (Write env AnimeReviewsCSV (reviewRow review) w) as [[e|] w1]; [reflexivity|apply IH].
Qed.

Lemma statisticsRows_writeAll animeList : ∀ i w,
  statisticsRows env i animeList w
  = writeAll env AnimeStatisticsCSV (statisticsTable env i animeList) w.
Proof.
  induction animeList as [|anime rest IH]; intros i w; [reflexivity|].
  cbn [statisticsRows statisticsTable].
  destruct (AnimeData.Statistics anime) as [stats|]; [|apply IH].
  cbn [writeAll]. unfoldM.
  destruct (Write env AnimeStatisticsCSV _ w) as [[e|] w1]; [reflexivity|apply IH].
Qed.

Lemma ExportAnimeReviews_export reviews w :
  ExportAnimeReviews env reviews w
  = export env AnimeReviewsCSV reviewsHeader (map reviewRow reviews) w.
Proof.
  unfold ExportAnimeReviews, export. unfoldM.
  destruct (Create env AnimeReviewsCSV w) as [[e|] w0]; [reflexivity|].
  destruct (Write env AnimeReviewsCSV reviewsHeader w0) as [[e|] w1]; [reflexivity|].
  apply reviewRows_writeAll.
Qed.

Lemma ExportAnimeStatistics_export animeList w :
  ExportAnimeStatistics env animeList w
  = export env AnimeStatisticsCSV statisticsHeader (statisticsTable env 0 animeList) w.
Proof.
  unfold ExportAnimeStatistics, export. unfoldM.
  destruct (Create env AnimeStatisticsCSV w) as [[e|] w0]; [reflexivity|].
  destruct (Write env AnimeStatisticsCSV statisticsHeader w0) as [[e|] w1]; [reflexivity|].
  apply statisticsRows_writeAll.
Qed.

End Writer.

(** ** The reviews table *)

Lemma append_cons (c : ascii) (s t : string) : String c s +:+ t = String c (s +:+ t).
Proof. reflexivity. Qed.

Lemma append_nil (t : string) : EmptyString +:+ t = t.
Proof. reflexivity. Qed.

Lemma cleanReview_breaksToSpaces (s : string) : cleanReview s = breaksToSpaces s.
Proof.
  unfold cleanReview. induction s as [|c s IH]; [reflexivity|].
  cbn [ReplaceAll breaksToSpaces].
  destruct (Ascii.eqb c LF) eqn:Hlf.
  - rewrite append_cons, append_nil. cbn. rewrite append_cons, append_nil.
    cbn [ReplaceAll]. change (Ascii.eqb " " CR) with false. cbn. rewrite IH. reflexivity.
  - cbn [ReplaceAll orb]. destruct (Ascii.eqb c CR) eqn:Hcr.
    + rewrite append_cons, append_nil, IH. reflexivity.
    + rewrite IH. reflexivity.
Qed.

Lemma breaksToSpaces_length (s : string) :
  String.length (breaksToSpaces s) = String.length s.
Proof. induction s as [|c s IH]; cbn; [reflexivity|]. rewrite IH. reflexivity. Qed.

Lemma breaksToSpaces_clean (s : string) :
  ¬ occurs LF (breaksToSpaces s) ∧ ¬ occurs CR (breaksToSpaces s).
Proof.
  induction s as [|c s [IHlf IHcr]]; cbn [breaksToSpaces occurs]; [tauto|].
  destruct (Ascii.eqb c LF) eqn:Hlf; cbn [orb].
  - split; intros [H|H]; solve [discriminate H | tauto].
  - destruct (Ascii.eqb c CR) eqn:Hcr.
    + split; intros [H|H]; solve [discriminate H | tauto].
    + apply Ascii.eqb_neq in Hlf, Hcr. tauto.
Qed.

(** Text without line breaks is left as it is. *)
Lemma breaksToSpaces_id (s : string) :
  ¬ occurs LF s → ¬ occurs CR s → breaksToSpaces s = s.
Proof.
  induction s as [|c s IH]; cbn [breaksToSpaces occurs]; [reflexivity|].
  intros Hlf Hcr.
  destruct (Ascii.eqb c LF) eqn:Elf; [apply Ascii.eqb_eq in Elf; tauto|].
  destruct (Ascii.eqb c CR) eqn:Ecr; [apply Ascii.eqb_eq in Ecr; tauto|].
  cbn. rewrite IH; tauto.
Qed.

Lemma occurs_substring (c : ascii) (n : nat) : ∀ s,
  occurs c (substring 0 n s) → occurs c s.
Proof.
  induction n as [|n IH]; intros [|c' s]; cbn; try tauto.
  intros [H|H]; [tauto|]. right. apply IH, H.
Qed.

Lemma occurs_append (c : ascii) (s t : string) :
  occurs c (s +:+ t) → occurs c s ∨ occurs c t.
Proof.
  induction s as [|c' s IH]; [rewrite append_nil; tauto|].
  rewrite append_cons. cbn [occurs].
  intros [H|H]; [tauto|]. apply IH in H. tauto.
Qed.

Lemma length_append' (s t : string) :
  String.length (s +:+ t) = (String.length s + String.length t)%nat.
Proof.
  induction s as [|c s IH]; [reflexivity|].
  rewrite append_cons. cbn [String.length]. rewrite IH. reflexivity.
Qed.

Lemma length_substring_0 (n : nat) : ∀ s,
  (n ≤ String.length s)%nat → String.length (substring 0 n s) = n.
Proof.
  induction n as [|n IH]; intros [|c s] Hn; cbn in *; try reflexivity; try lia.
  rewrite IH; [reflexivity|lia].
Qed.

(** The text of a review is its body with the line breaks turned into
    spaces, cut after 32000 bytes and marked when it was longer. *)
Lemma reviewText_spec (review : ReviewData.t) :
  let body := breaksToSpaces (ReviewData.Review review) in
  (32000 < Z.of_nat (String.length body) →
   reviewText review = substring 0 (Z.to_nat 32000) body +:+ "...")
  ∧ (Z.of_nat (String.length body) ≤ 32000 → reviewText review = body).
Proof.
  intros body. unfold reviewText, maxReviewLen.
  rewrite cleanReview_breaksToSpaces. fold body.
  destruct (32000 <? Z.of_nat (String.length body)) eqn:Hlen.
  - apply Z.ltb_lt in Hlen. split; [reflexivity|lia].
  - apply Z.ltb_ge in Hlen. split; [lia|reflexivity].
Qed.

Lemma reviewText_clean (review : ReviewData.t) :
  ¬ occurs LF (reviewText review) ∧ ¬ occurs CR (reviewText review).
Proof.
  destruct (breaksToSpaces_clean (ReviewData.Review review)) as [Hlf Hcr].
  unfold reviewText. rewrite cleanReview_breaksToSpaces.
  destruct (maxReviewLen <? _); [|tauto].
  split; intros H; apply occurs_append in H as [H|H].
  - apply occurs_substring in H. tauto.
  - cbn in H. repeat destruct H as [H|H]; try discriminate H. exact H.
  - apply occurs_substring in H. tauto.
  - cbn in H. repeat destruct H as [H|H]; try discriminate H. exact H.
Qed.

Lemma Forall2_map_r {A B : Type} (P : A → B → Prop) (f : A → B) (l : list A) :
  (∀ x, P x (f x)) → Forall2 P l (map f l).
Proof. intros H. induction l; constructor; auto. Qed.

(** C4. In the reviews table that a successful export leaves, the row
    of every review of the input has a [review_text] without line feed
    and without carriage return: it is the body with each of them
    replaced by one space, whole or cut after 32000 bytes. *)
Theorem review_text_has_no_line_break (env : Env) (reviews : list ReviewData.t)
    (w w' : World) :
  ExportAnimeReviews env reviews w = (None, w') →
  ∃ rows,
    files w' !! AnimeReviewsCSV = Some (reviewsHeader :: rows)
    ∧ Forall2
        (λ review row,
           ∃ text,
             review_text row = Some text
             ∧ ¬ occurs LF text ∧ ¬ occurs CR text
             ∧ let body := breaksToSpaces (ReviewData.Review review) in
               text = body ∨ text = substring 0 (Z.to_nat 32000) body +:+ "...")
        reviews rows.
Proof.
  intros Hrun. rewrite ExportAnimeReviews_export in Hrun.
  apply export_inv in Hrun. exists (map reviewRow reviews). split; [exact Hrun|].
  apply Forall2_map_r. intros review. exists (reviewText review).
  split; [reflexivity|].
  destruct (reviewText_clean review) as [Hlf Hcr]. split; [exact Hlf|]. split; [exact Hcr|].
  intros body. destruct (reviewText_spec review) as [Hlong Hshort]. fold body in Hlong, Hshort.
  destruct (Z.lt_ge_cases 32000 (Z.of_nat (String.length body))) as [Hlt|Hge].
  - right. apply Hlong, Hlt.
  - left. apply Hshort. lia.
Qed.

(** C5, amended. The limit of 32000 counts bytes, not characters. In
    the reviews table that a successful export leaves, a review whose
    body, line breaks replaced, is longer than 32000 bytes has as
    [review_text] the first 32000 bytes of it followed by three dots; a
    body of 32000 bytes or fewer is there unchanged, without the dots;
    and a body of 32050 bytes without line breaks gives its own first
    32000 bytes and the dots. *)
Theorem review_text_truncated (env : Env) (reviews : list ReviewData.t) (w w' : World) :
  ExportAnimeReviews env reviews w = (None, w') →
  ∃ rows,
    files w' !! AnimeReviewsCSV = Some (reviewsHeader :: rows)
    ∧ Forall2
        (λ review row,
           ∃ text,
             review_text row = Some text
             ∧ let raw := ReviewData.Review review in
               let body := breaksToSpaces raw in
               (32000 < Z.of_nat (String.length body) →
                text = substring 0 (Z.to_nat 32000) body +:+ "...")
               ∧ (Z.of_nat (String.length body) ≤ 32000 → text = body)
               ∧ (Z.of_nat (String.length raw) = 32050 →
                  ¬ occurs LF raw → ¬ occurs CR raw →
                  text = substring 0 (Z.to_nat 32000) raw +:+ "..."))
        reviews rows.
Proof.
  intros Hrun. rewrite ExportAnimeReviews_export in Hrun.
  apply export_inv in Hrun. exists (map reviewRow reviews). split; [exact Hrun|].
  apply Forall2_map_r. intros review. exists (reviewText review).
  split; [reflexivity|].
  intros raw body. destruct (reviewText_spec review) as [Hlong Hshort].
  fold raw in Hlong, Hshort. fold body in Hlong, Hshort.
  split; [exact Hlong|]. split; [exact Hshort|].
  intros Hlen Hlf Hcr. subst body.
  rewrite (breaksToSpaces_id raw Hlf Hcr) in Hlong. apply Hlong. lia.
Qed.

Lemma review_text_has_no_line_break_witness :
  let env := Mock.site Mock.small in
  let reviews := [Mock.review 11 1 Mock.brokenBody; Mock.review 12 1 "Good."] in
  let w' := (ExportAnimeReviews env reviews World0).2 in
  ∃ rows,
    files w' !! AnimeReviewsCSV = Some (reviewsHeader :: rows)
    ∧ Forall2
        (λ review row,
           ∃ text,
             review_text row = Some text
             ∧ ¬ occurs LF text ∧ ¬ occurs CR text
             ∧ let body := breaksToSpaces (ReviewData.Review review) in
               text = body ∨ text = substring 0 (Z.to_nat 32000) body +:+ "...")
        reviews rows.
Proof.
  intros env reviews w'.
  apply (review_text_has_no_line_break env reviews World0 w').
  vm_compute. reflexivity.
Defined.

Example reviewText_broken :
  reviewText (Mock.review 11 1 Mock.brokenBody) = "Line one. Line two.  Line three.".
Proof. vm_compute. reflexivity. Qed.

Lemma healthy_site (s : Mock.Site) : healthy (Mock.site s).
Proof. repeat split. Qed.

Lemma ExportAnimeReviews_healthy env reviews w :
  healthy env →
  ExportAnimeReviews env reviews w = (None, (ExportAnimeReviews env reviews w).2).
Proof. rewrite !ExportAnimeReviews_export. apply export_healthy_run. Qed.

Lemma review_text_truncated_witness :
  let env := Mock.site Mock.small in
  let reviews := [Mock.review 11 1 Mock.longBody;
                  Mock.review 12 1 Mock.brokenBody;
                  Mock.review 13 1 Mock.accentedBody] in
  let w' := (ExportAnimeReviews env reviews World0).2 in
  ∃ rows,
    files w' !! AnimeReviewsCSV = Some (reviewsHeader :: rows)
    ∧ Forall2
        (λ review row,
           ∃ text,
             review_text row = Some text
             ∧ let raw := ReviewData.Review review in
               let body := breaksToSpaces raw in
               (32000 < Z.of_nat (String.length body) →
                text = substring 0 (Z.to_nat 32000) body +:+ "...")
               ∧ (Z.of_nat (String.length body) ≤ 32000 → text = body)
               ∧ (Z.of_nat (String.length raw) = 32050 →
                  ¬ occurs LF raw → ¬ occurs CR raw →
                  text = substring 0 (Z.to_nat 32000) raw +:+ "..."))
        reviews rows.
Proof.
  intros env reviews w'.
  apply (review_text_truncated env reviews World0 w').
  apply ExportAnimeReviews_healthy, healthy_site.
Defined.

(** C5 as stated fails: a body of 20000 characters of two bytes each,
    without a line break. It has fewer than 32000 characters, and the
    export, which succeeds, does not leave it unchanged: the text in the
    table is another one, of 32003 bytes, the first 32000 bytes of the
    body and three dots. *)
Lemma two_byte_characters_are_cut :
  let env := Mock.site Mock.small in
  let review := Mock.review 11 1 Mock.accentedBody in
  let body := breaksToSpaces (ReviewData.Review review) in
  let run := ExportAnimeReviews env [review] World0 in
  Z.of_nat (characters body) ≤ 32000
  ∧ run.1 = None
  ∧ ∃ row text,
      files run.2 !! AnimeReviewsCSV = Some [reviewsHeader; row]
      ∧ review_text row = Some text
      ∧ text = substring 0 (Z.to_nat 32000) body +:+ "..."
      ∧ Z.of_nat (String.length text) = 32003
      ∧ text ≠ body.
Proof.
  intros env review body run.
  assert (Hrun : run = (None, {| requests := []; slept := 0;
                                 files := <[AnimeReviewsCSV := [reviewsHeader; reviewRow review]]> ∅ |})).
  { unfold run. rewrite ExportAnimeReviews_export.
    apply (export_accepted env AnimeReviewsCSV reviewsHeader [reviewRow review] World0);
      reflexivity. }
  assert (Hbody : Z.of_nat (String.length body) = 40000) by (vm_compute; reflexivity).
  assert (Hlong : 32000 < Z.of_nat (String.length body)) by lia.
  assert (Htext : reviewText review = substring 0 (Z.to_nat 32000) body +:+ "...")
    by (apply (reviewText_spec review), Hlong).
  assert (Hlen : Z.of_nat (String.length (reviewText review)) = 32003).
  { rewrite Htext, length_append', length_substring_0 by lia.
    rewrite Nat2Z.inj_add, Z2Nat.id by lia. reflexivity. }
  split; [vm_compute; discriminate|]. split; [rewrite Hrun; reflexivity|].
  exists (reviewRow review), (reviewText review). rewrite Hrun.
  split; [apply lookup_insert_eq|]. split; [reflexivity|]. split; [exact Htext|].
  split; [exact Hlen|].
  intros Heq. rewrite Heq in Hlen. lia.
Qed.

Example accentedBody_size :
  (Z.of_nat (characters Mock.accentedBody), Z.of_nat (String.length Mock.accentedBody))
  = (20000, 40000).
Proof. vm_compute. reflexivity. Qed.

(** The body of 32050 bytes, which has no line break, is cut to its
    first 32000 bytes and the three dots. *)
Example reviewText_long :
  let text := reviewText (Mock.review 11 1 Mock.longBody) in
  (Nat.eqb (String.length Mock.longBody) (Z.to_nat 32050)
   && Nat.eqb (String.length text) (Z.to_nat 32003)
   && String.eqb text (substring 0 (Z.to_nat 32000) Mock.longBody +:+ "..."))%bool
  = true.
Proof. vm_compute. reflexivity. Qed.

(** ** The statistics table *)

Lemma Itoa_inj (i j : Z) : Itoa i = Itoa j → i = j.
Proof.
  assert (Hnil : ∀ z, Z.to_int z ≠ Decimal.Pos Decimal.Nil
                      ∧ Z.to_int z ≠ Decimal.Neg Decimal.Nil).
  { intros z. split; intros H; pose proof (DecimalZ.of_to z) as Hz;
      rewrite H in Hz; cbn in Hz; subst z; vm_compute in H; discriminate H. }
  unfold Itoa. intros H.
  apply (f_equal NilZero.int_of_string) in H.
  rewrite !NilZero.isi in H by apply Hnil.
  apply DecimalZ.to_int_inj. congruence.
Qed.

Lemma fillScore_slotOf (slots : Slots) (key : string) (data : ScoreData.t) :
  fillScore slots (key, data)
  = match slotOf key with
    | Some idx =>
        (<[idx := Itoa (ScoreData.Votes data)]> slots.1,
         <[idx := FormatFloat (ScoreData.Percentage data) 2]> slots.2)
    | None => slots
    end.
Proof.
  unfold fillScore, slotOf. destruct (Atoi key) as [n|]; [|reflexivity].
  destruct ((1 <=? n) && (n <=? 10)); reflexivity.
Qed.

(** A key that is not the decimal form of a score from 1 to 10 has no
    column. *)
Lemma slotOf_None (key : string) :
  Atoi key = None ∨ (∃ n, Atoi key = Some n ∧ (n < 1 ∨ 10 < n)) → slotOf key = None.
Proof.
  unfold slotOf. intros [-> | (n & -> & Hn)]; [reflexivity|].
  destruct (1 <=? n) eqn:H1; destruct (n <=? 10) eqn:H10; try reflexivity.
  apply Z.leb_le in H1, H10. lia.
Qed.

Lemma fillScore_comm (slots : Slots) (e1 e2 : string * ScoreData.t) :
  (∀ i, slotOf e1.1 = Some i → slotOf e2.1 = Some i → e1 = e2) →
  fillScore (fillScore slots e1) e2 = fillScore (fillScore slots e2) e1.
Proof.
  destruct e1 as [k1 d1], e2 as [k2 d2]. cbn [fst]. intros Hsame.
  rewrite !fillScore_slotOf.
  destruct (slotOf k1) as [i|] eqn:H1, (slotOf k2) as [j|] eqn:H2; cbn [fst snd];
    try reflexivity.
  destruct (decide (i = j)) as [->|Hne].
  - specialize (Hsame j eq_refl eq_refl). inversion Hsame; subst. reflexivity.
  - f_equal; apply list_insert_insert_ne; congruence.
Qed.

Lemma compatible_perm (l l' : list (string * ScoreData.t)) :
  l ≡ₚ l' → compatible l → compatible l'.
Proof.
  intros Hperm Hc e1 e2 i H1 H2. apply Hc; rewrite Hperm; assumption.
Qed.

(** The slots do not depend on the order of a visit in which no two
    entries go to the same column. *)
Lemma foldl_fillScore_perm (l l' : list (string * ScoreData.t)) :
  l ≡ₚ l' → compatible l → ∀ slots, foldl fillScore slots l = foldl fillScore slots l'.
Proof.
  induction 1 as [|x l l' Hperm IH|x y l|l l' l'' H1 IH1 H2 IH2]; intros Hc slots.
  - reflexivity.
  - cbn [foldl]. apply IH. intros e1 e2 i He1 He2. apply Hc; right; assumption.
  - cbn [foldl]. rewrite (fillScore_comm slots y x); [reflexivity|].
    intros i Hy Hx. apply (Hc y x i); [left|right; left|..]; assumption.
  - rewrite IH1 by assumption. apply IH2. eapply compatible_perm; eassumption.
Qed.

Lemma unambiguous_compatible (scores : gmap string ScoreData.t)
    (visit : list (string * ScoreData.t)) :
  unambiguous scores → visit ≡ₚ map_to_list scores → compatible visit.
Proof.
  intros Hun Hperm [k1 d1] [k2 d2] i He1 He2 H1 H2. cbn [fst] in *.
  rewrite Hperm in He1, He2. apply elem_of_map_to_list in He1, He2.
  assert (k1 = k2) by (apply (Hun k1 k2 i); eauto). subst k2.
  congruence.
Qed.

Lemma writeAll_withRange env range path rows : ∀ w,
  writeAll (withRange env range) path rows w = writeAll env path rows w.
Proof.
  induction rows as [|row rest IH]; intros w; [reflexivity|].
  cbn [writeAll]. unfoldM.
  change (Write (withRange env range) path row w) with (Write env path row w).
  destruct (Write env path row w) as [[e|] w1]; [reflexivity|apply IH].
Qed.

Lemma export_withRange env range path header rows w :
  export (withRange env range) path header rows w = export env path header rows w.
Proof.
  unfold export. unfoldM.
  change (Create (withRange env range) path w) with (Create env path w).
  destruct (Create env path w) as [[e|] w0]; [reflexivity|].
  change (Write (withRange env range) path header w0) with (Write env path header w0).
  destruct (Write env path header w0) as [[e|] w1]; [reflexivity|].
  apply writeAll_withRange.
Qed.

Lemma tagRows_withRange env range path anime tags : ∀ w,
  tagRows (withRange env range) path anime tags w = tagRows env path anime tags w.
Proof.
  induction tags as [|tag rest IH]; intros w; [reflexivity|].
  cbn [tagRows]. unfoldM.
  change (Write (withRange env range) path (tagRow anime tag) w)
    with (Write env path (tagRow anime tag) w).
  destruct (Write env path (tagRow anime tag) w) as [[e|] w1]; [reflexivity|apply IH].
Qed.

Lemma genreRows_withRange env range animeList : ∀ w,
  genreRows (withRange env range) animeList w = genreRows env animeList w.
Proof.
  induction animeList as [|anime rest IH]; intros w; [reflexivity|].
  cbn [genreRows]. unfoldM. rewrite tagRows_withRange.
  destruct (tagRows env AnimeGenresCSV anime _ w) as [[e|] w1]; [reflexivity|apply IH].
Qed.

Lemma studioRows_withRange env range animeList : ∀ w,
  studioRows (withRange env range) animeList w = studioRows env animeList w.
Proof.
  induction animeList as [|anime rest IH]; intros w; [reflexivity|].
  cbn [studioRows]. unfoldM. rewrite tagRows_withRange.
  destruct (tagRows env AnimeStudiosCSV anime _ w) as [[e|] w1]; [reflexivity|apply IH].
Qed.

Lemma basicRows_withRange env range animeList : ∀ w,
  basicRows (withRange env range) animeList w = basicRows env animeList w.
Proof.
  intros w. rewrite !basicRows_writeAll. apply writeAll_withRange.
Qed.

Lemma statisticsTable_withRange env range animeList :
  rangeValid env →
  (∀ i m, range i m ≡ₚ map_to_list m) →
  (∀ anime stats, anime ∈ animeList → AnimeData.Statistics anime = Some stats →
     unambiguous (AnimeStatistics.Scores stats)) →
  ∀ i, statisticsTable (withRange env range) i animeList = statisticsTable env i animeList.
Proof.
  intros Hvalid Hrange. induction animeList as [|anime rest IH]; intros Hun i; [reflexivity|].
  cbn [statisticsTable].
  assert (Hrest : ∀ j, statisticsTable (withRange env range) j rest = statisticsTable env j rest).
  { apply IH. intros a s Ha. apply Hun. right. exact Ha. }
  destruct (AnimeData.Statistics anime) as [stats|] eqn:Hstats; [|apply Hrest].
  rewrite Hrest. f_equal. unfold statisticsRow. cbn [rangeScores withRange].
  rewrite (foldl_fillScore_perm (range i (AnimeStatistics.Scores stats))
             (rangeScores env i (AnimeStatistics.Scores stats))); [reflexivity| |].
  - etrans; [apply Hrange|symmetry; apply Hvalid].
  - eapply unambiguous_compatible; [|apply Hrange]. eapply Hun; [left|exact Hstats].
Qed.

(** 12.34 lies within half a unit in the last place of [pct_12_34], and
    both constants are normal binary64 numbers. *)
Example pct_12_34_nearest :
  2 * Z.abs (100 * 6946802425218990 - 1234 * 2 ^ 49) ≤ 100
  ∧ bounded 53 1024 6946802425218990 (-49) = true
  ∧ bounded 53 1024 6755399441055744 (-51) = true
  ∧ 6755399441055744 = 3 * 2 ^ 51.
Proof. vm_compute. repeat split; congruence. Qed.

Lemma roundTripScores_visit (visit : list (string * ScoreData.t)) :
  visit ≡ₚ map_to_list roundTripScores →
  foldl fillScore emptySlots visit
  = (["5"; "0"; "0"; "0"; "0"; "0"; "2"; "0"; "0"; "0"],
     ["12.34"; "0"; "0"; "0"; "0"; "0"; "3.00"; "0"; "0"; "0"])%string.
Proof.
  intros Hperm. symmetry in Hperm.
  assert (Hlist : map_to_list roundTripScores
                  = [("7"%string, {| ScoreData.Votes := 2; ScoreData.Percentage := pct_3 |});
                     ("1"%string, {| ScoreData.Votes := 5; ScoreData.Percentage := pct_12_34 |})])
    by (vm_compute; reflexivity).
  rewrite Hlist in Hperm.
  apply Permutation_length_2_inv in Hperm as [-> | ->]; vm_compute; reflexivity.
Qed.

(** The row of the round trip, in whatever order the two keys are
    visited. *)
Lemma statisticsRow_roundTrip (anime : AnimeData.t) (stats : AnimeStatistics.t)
    (visit : list (string * ScoreData.t)) :
  AnimeStatistics.Scores stats = roundTripScores →
  visit ≡ₚ map_to_list (AnimeStatistics.Scores stats) →
  statisticsRow anime stats visit
  = [Itoa (AnimeData.MalID anime);
     Itoa (AnimeStatistics.Watching stats);
     Itoa (AnimeStatistics.Completed stats);
     Itoa (AnimeStatistics.OnHold stats);
     Itoa (AnimeStatistics.Dropped stats);
     Itoa (AnimeStatistics.PlanToWatch stats);
     Itoa (AnimeStatistics.Total stats);
     "5"; "12.34"; "0"; "0"; "0"; "0"; "0"; "0"; "0"; "0"; "0"; "0";
     "2"; "3.00"; "0"; "0"; "0"; "0"; "0"; "0"]%string.
Proof.
  intros Hscores Hvisit. rewrite Hscores in Hvisit. unfold statisticsRow.
  rewrite (roundTripScores_visit visit Hvisit). reflexivity.
Qed.

(** A key that is not a number, or a number outside 1 to 10, leaves the
    row as it is without it, wherever in the visit it comes. *)
Lemma statisticsRow_ignores (anime : AnimeData.t) (stats : AnimeStatistics.t)
    (key : string) (data : ScoreData.t) (before after : list (string * ScoreData.t)) :
  Atoi key = None ∨ (∃ n, Atoi key = Some n ∧ (n < 1 ∨ 10 < n)) →
  statisticsRow anime stats (before ++ (key, data) :: after)
  = statisticsRow anime stats (before ++ after).
Proof.
  intros Hkey. unfold statisticsRow. rewrite !foldl_app. cbn [foldl].
  rewrite fillScore_slotOf, (slotOf_None key Hkey). reflexivity.
Qed.

(** The table has one row for each entry with a snapshot, in order: the
    row of the entry and its snapshot, the scores visited in the order
    the environment gives for some position of the list. *)
Lemma statisticsTable_visits env animeList : ∀ i,
  Forall2
    (λ anime row,
       ∃ stats j,
         AnimeData.Statistics anime = Some stats
         ∧ row = statisticsRow anime stats (rangeScores env j (AnimeStatistics.Scores stats)))
    (List.filter hasStatistics animeList) (statisticsTable env i animeList).
Proof.
  induction animeList as [|anime rest IH]; intros i; [constructor|].
  cbn [List.filter statisticsTable]. unfold hasStatistics at 1.
  destruct (AnimeData.Statistics anime) as [stats|] eqn:Hstats; [|apply IH].
  constructor; [|apply IH]. exists stats, i. split; [exact Hstats|reflexivity].
Qed.

(** C7. In the statistics table that a successful export leaves, the
    row of every entry with a snapshot is the row of its scores in the
    order the map was visited in, which is some order of the entries of
    the map. Whatever that order, the row of an entry whose scores are 1
    with 5 votes and 12.34 percent and 7 with 2 votes and 3.00 percent,
    and no others, has "5" and "12.34" in the columns of score 1, "2"
    and "3.00" in those of score 7 and "0" and "0" in the other eight
    pairs; and a key of the map that is not a number, or a number
    outside 1 to 10, leaves the row of its entry as it is without that
    key. *)
Theorem statistics_row_round_trip (env : Env) (animeList : list AnimeData.t)
    (w w' : World) :
  rangeValid env →
  ExportAnimeStatistics env animeList w = (None, w') →
  ∃ rows,
    files w' !! AnimeStatisticsCSV = Some (statisticsHeader :: rows)
    ∧ Forall2
        (λ anime row,
           ∃ stats visit,
             AnimeData.Statistics anime = Some stats
             ∧ visit ≡ₚ map_to_list (AnimeStatistics.Scores stats)
             ∧ row = statisticsRow anime stats visit
             ∧ (AnimeStatistics.Scores stats = roundTripScores →
                row = [Itoa (AnimeData.MalID anime);
                       Itoa (AnimeStatistics.Watching stats);
                       Itoa (AnimeStatistics.Completed stats);
                       Itoa (AnimeStatistics.OnHold stats);
                       Itoa (AnimeStatistics.Dropped stats);
                       Itoa (AnimeStatistics.PlanToWatch stats);
                       Itoa (AnimeStatistics.Total stats);
                       "5"; "12.34"; "0"; "0"; "0"; "0"; "0"; "0"; "0"; "0"; "0"; "0";
                       "2"; "3.00"; "0"; "0"; "0"; "0"; "0"; "0"]%string)
             ∧ ∀ (key : string) (data : ScoreData.t)
                 (before after : list (string * ScoreData.t)),
                 visit = before ++ (key, data) :: after →
                 Atoi key = None ∨ (∃ n, Atoi key = Some n ∧ (n < 1 ∨ 10 < n)) →
                 row = statisticsRow anime stats (before ++ after))
        (List.filter hasStatistics animeList) rows.
Proof.
  intros Hvalid Hrun. rewrite ExportAnimeStatistics_export in Hrun.
  apply export_inv in Hrun. exists (statisticsTable env 0 animeList).
  split; [exact Hrun|].
  eapply Forall2_impl; [apply statisticsTable_visits|].
  intros anime row (stats & j & Hstats & ->).
  exists stats, (rangeScores env j (AnimeStatistics.Scores stats)).
  split; [exact Hstats|]. split; [apply Hvalid|]. split; [reflexivity|]. split.
  - intros Hscores. apply statisticsRow_roundTrip; [exact Hscores|apply Hvalid].
  - intros key data before after -> Hkey. apply statisticsRow_ignores, Hkey.
Qed.

Lemma statistics_row_round_trip_witness :
  let env := withRange (Mock.site Mock.small) (λ _ m, reverse (map_to_list m)) in
  let animeList := [Mock.anime 1 None;
                    Mock.anime 5114 (Some (Mock.statistics roundTripScores));
                    Mock.anime 7 (Some (Mock.statistics Mock.strayKeys))] in
  let w' := (ExportAnimeStatistics env animeList World0).2 in
  ∃ rows,
    files w' !! AnimeStatisticsCSV = Some (statisticsHeader :: rows)
    ∧ Forall2
        (λ anime row,
           ∃ stats visit,
             AnimeData.Statistics anime = Some stats
             ∧ visit ≡ₚ map_to_list (AnimeStatistics.Scores stats)
             ∧ row = statisticsRow anime stats visit
             ∧ (AnimeStatistics.Scores stats = roundTripScores →
                row = [Itoa (AnimeData.MalID anime);
                       Itoa (AnimeStatistics.Watching stats);
                       Itoa (AnimeStatistics.Completed stats);
                       Itoa (AnimeStatistics.OnHold stats);
                       Itoa (AnimeStatistics.Dropped stats);
                       Itoa (AnimeStatistics.PlanToWatch stats);
                       Itoa (AnimeStatistics.Total stats);
                       "5"; "12.34"; "0"; "0"; "0"; "0"; "0"; "0"; "0"; "0"; "0"; "0";
                       "2"; "3.00"; "0"; "0"; "0"; "0"; "0"; "0"]%string)
             ∧ ∀ (key : string) (data : ScoreData.t)
                 (before after : list (string * ScoreData.t)),
                 visit = before ++ (key, data) :: after →
                 Atoi key = None ∨ (∃ n, Atoi key = Some n ∧ (n < 1 ∨ 10 < n)) →
                 row = statisticsRow anime stats (before ++ after))
        (List.filter hasStatistics animeList) rows.
Proof.
  intros env animeList w'.
  apply (statistics_row_round_trip env animeList World0 w').
  - intros i m. apply reverse_Permutation.
  - vm_compute. reflexivity.
Defined.

(** The table of the round trip and of the stray keys, the maps visited
    backwards: the keys "11", "0" and "ten" leave no trace. *)
Example ExportAnimeStatistics_strayKeys :
  let env := withRange (Mock.site Mock.small) (λ _ m, reverse (map_to_list m)) in
  let run := ExportAnimeStatistics env
               [Mock.anime 1 None;
                Mock.anime 5114 (Some (Mock.statistics roundTripScores));
                Mock.anime 7 (Some (Mock.statistics Mock.strayKeys))] World0 in
  run.1 = None
  ∧ files run.2 !! AnimeStatisticsCSV
    = Some [statisticsHeader;
            ["5114"; "10"; "20"; "3"; "4"; "5"; "42";
             "5"; "12.34"; "0"; "0"; "0"; "0"; "0"; "0"; "0"; "0"; "0"; "0";
             "2"; "3.00"; "0"; "0"; "0"; "0"; "0"; "0"];
            ["7"; "10"; "20"; "3"; "4"; "5"; "42";
             "5"; "12.34"; "0"; "0"; "0"; "0"; "0"; "0"; "0"; "0"; "0"; "0";
             "0"; "0"; "0"; "0"; "0"; "0"; "0"; "0"]]%string.
Proof. vm_compute. split; reflexivity. Qed.

Lemma statisticsRow_head anime stats visit :
  statisticsRow anime stats visit !! 0%nat = Some (Itoa (AnimeData.MalID anime)).
Proof. unfold statisticsRow. destruct (foldl fillScore emptySlots visit). reflexivity. Qed.

(** The table has one row for each entry with a snapshot, in order. *)
Lemma statisticsTable_rows env animeList : ∀ i,
  Forall2 (λ anime row, row !! 0%nat = Some (Itoa (AnimeData.MalID anime)))
    (List.filter hasStatistics animeList) (statisticsTable env i animeList).
Proof.
  induction animeList as [|anime rest IH]; intros i; [constructor|].
  cbn [List.filter statisticsTable]. unfold hasStatistics at 1.
  destruct (AnimeData.Statistics anime) as [stats|]; [|apply IH].
  constructor; [apply statisticsRow_head|apply IH].
Qed.

Lemma Forall2_elem_r {A B : Type} (P : A → B → Prop) (l : list A) (k : list B) (y : B) :
  Forall2 P l k → y ∈ k → ∃ x, x ∈ l ∧ P x y.
Proof.
  induction 1 as [|x y' l k Hxy HF IH]; intros Hin.
  - inversion Hin.
  - apply elem_of_cons in Hin as [->|Hin].
    + exists x. split; [left|exact Hxy].
    + destruct (IH Hin) as (x' & Hx' & HP). exists x'. split; [right; exact Hx'|exact HP].
Qed.

(** C8. The statistics export fails only with an error of the file
    system, and not at all on a healthy one, whatever entries lack a
    snapshot; when it succeeds the table has, after the header, exactly
    one row for each entry that has a snapshot, in order, and so no row
    with the ID of an entry without one. *)
Theorem statistics_rows_only_for_snapshots (env : Env) (animeList : list AnimeData.t)
    (w : World) (err : option error) (w' : World) :
  ExportAnimeStatistics env animeList w = (err, w') →
  (healthy env → err = None)
  ∧ match err with
    | Some e => raisedByDisk env e
    | None =>
        ∃ rows,
          files w' !! AnimeStatisticsCSV = Some (statisticsHeader :: rows)
          ∧ Forall2 (λ anime row, row !! 0%nat = Some (Itoa (AnimeData.MalID anime)))
              (List.filter hasStatistics animeList) rows
          ∧ ∀ anime,
              anime ∈ animeList →
              AnimeData.Statistics anime = None →
              (∀ other, other ∈ animeList →
                 AnimeData.MalID other = AnimeData.MalID anime →
                 AnimeData.Statistics other = None) →
              ∀ row, row ∈ rows → row !! 0%nat ≠ Some (Itoa (AnimeData.MalID anime))
    end.
Proof.
  intros Hrun. rewrite ExportAnimeStatistics_export in Hrun. split.
  - intros Hdisk.
    destruct (export_healthy env AnimeStatisticsCSV statisticsHeader
                (statisticsTable env 0 animeList) w Hdisk) as [w0 Hok].
    congruence.
  - apply export_inv in Hrun. destruct err as [e|]; [exact Hrun|].
    exists (statisticsTable env 0 animeList). split; [exact Hrun|].
    pose proof (statisticsTable_rows env animeList 0%nat) as Hrows.
    split; [exact Hrows|].
    intros anime Hin Hnone Hothers row Hrow Hid.
    destruct (Forall2_elem_r _ _ _ _ Hrows Hrow) as (other & Hother & Hhead).
    apply list_elem_of_In, filter_In in Hother as [Hother Hhas].
    apply list_elem_of_In in Hother.
    rewrite Hhead in Hid. inversion Hid as [Heq]. apply Itoa_inj in Heq.
    unfold hasStatistics in Hhas. rewrite (Hothers other Hother Heq) in Hhas.
    discriminate.
Qed.

Lemma statistics_rows_only_for_snapshots_witness :
  let env := Mock.site Mock.small in
  let animeList := [Mock.anime 1 None;
                    Mock.anime 2 (Some (Mock.statistics roundTripScores));
                    Mock.anime 3 None] in
  let run := ExportAnimeStatistics env animeList World0 in
  (healthy env → run.1 = None)
  ∧ match run.1 with
    | Some e => raisedByDisk env e
    | None =>
        ∃ rows,
          files run.2 !! AnimeStatisticsCSV = Some (statisticsHeader :: rows)
          ∧ Forall2 (λ anime row, row !! 0%nat = Some (Itoa (AnimeData.MalID anime)))
              (List.filter hasStatistics animeList) rows
          ∧ ∀ anime,
              anime ∈ animeList →
              AnimeData.Statistics anime = None →
              (∀ other, other ∈ animeList →
                 AnimeData.MalID other = AnimeData.MalID anime →
                 AnimeData.Statistics other = None) →
              ∀ row, row ∈ rows → row !! 0%nat ≠ Some (Itoa (AnimeData.MalID anime))
    end.
Proof.
  intros env animeList run.
  apply (statistics_rows_only_for_snapshots env animeList World0 run.1 run.2).
  vm_compute. reflexivity.
Defined.

Example ExportAnimeStatistics_sample :
  let run := ExportAnimeStatistics (Mock.site Mock.small)
               [Mock.anime 1 None;
                Mock.anime 2 (Some (Mock.statistics roundTripScores));
                Mock.anime 3 None] World0 in
  run.1 = None
  ∧ files run.2 !! AnimeStatisticsCSV
    = Some [statisticsHeader;
            ["2"; "10"; "20"; "3"; "4"; "5"; "42";
             "5"; "12.34"; "0"; "0"; "0"; "0"; "0"; "0"; "0"; "0"; "0"; "0";
             "2"; "3.00"; "0"; "0"; "0"; "0"; "0"; "0"]%string].
Proof. vm_compute. split; reflexivity. Qed.

(** C6, amended. With the same environment and the same input, every
    export returns the same error and leaves the same files, whatever
    order the runtime visits the score maps in, provided no snapshot has
    two keys for the same score from 1 to 10. *)
Theorem exports_do_not_depend_on_visiting_order (env : Env)
    (range : nat → gmap string ScoreData.t → list (string * ScoreData.t))
    (animeList : list AnimeData.t) (reviews : list ReviewData.t) (w : World) :
  rangeValid env →
  (∀ i m, range i m ≡ₚ map_to_list m) →
  (∀ anime stats, anime ∈ animeList → AnimeData.Statistics anime = Some stats →
     unambiguous (AnimeStatistics.Scores stats)) →
  let env' := withRange env range in
  ExportAnimeBasicData env' animeList w = ExportAnimeBasicData env animeList w
  ∧ ExportAnimeGenres env' animeList w = ExportAnimeGenres env animeList w
  ∧ ExportAnimeStudios env' animeList w = ExportAnimeStudios env animeList w
  ∧ ExportAnimeStatistics env' animeList w = ExportAnimeStatistics env animeList w
  ∧ ExportAnimeReviews env' reviews w = ExportAnimeReviews env reviews w.
Proof.
  intros Hvalid Hrange Hun env'.
  assert (Hshape : ∀ path header (rows rows' : World → option error * World),
            (∀ w1, rows' w1 = rows w1) →
            orReturn (Create env' path) (orReturn (Write env' path header) rows') w
            = orReturn (Create env path) (orReturn (Write env path header) rows) w).
  { intros path header rows rows' Hrows. unfoldM.
    change (Create env' path w) with (Create env path w).
    destruct (Create env path w) as [[e|] w0]; [reflexivity|].
    change (Write env' path header w0) with (Write env path header w0).
    destruct (Write env path header w0) as [[e|] w1]; [reflexivity|apply Hrows]. }
  repeat split.
  - apply Hshape. apply basicRows_withRange.
  - apply Hshape. apply genreRows_withRange.
  - apply Hshape. apply studioRows_withRange.
  - rewrite !ExportAnimeStatistics_export. unfold env'.
    rewrite export_withRange, statisticsTable_withRange by assumption. reflexivity.
  - rewrite !ExportAnimeReviews_export. apply export_withRange.
Qed.

Lemma rangeValid_site (s : Mock.Site) : rangeValid (Mock.site s).
Proof. intros i m. reflexivity. Qed.

Lemma roundTripScores_unambiguous : unambiguous roundTripScores.
Proof.
  intros k1 k2 i [d1 H1] [d2 H2] Hs1 Hs2.
  apply elem_of_map_to_list in H1, H2.
  assert (Hkeys : ∀ k d, (k, d) ∈ map_to_list roundTripScores → k = "7"%string ∨ k = "1"%string).
  { intros k d Hin. vm_compute in Hin.
    repeat (apply elem_of_cons in Hin as [Hin|Hin]; [inversion Hin; auto|]).
    inversion Hin. }
  destruct (Hkeys _ _ H1) as [-> | ->], (Hkeys _ _ H2) as [-> | ->];
    try reflexivity; vm_compute in Hs1, Hs2; congruence.
Qed.

Lemma exports_do_not_depend_on_visiting_order_witness :
  let env := Mock.site Mock.small in
  let env' := withRange env (λ _ m, reverse (map_to_list m)) in
  let animeList := [Mock.anime 1 (Some (Mock.statistics roundTripScores)); Mock.anime 2 None] in
  let reviews := [Mock.review 11 1 "Good."] in
  ExportAnimeBasicData env' animeList World0 = ExportAnimeBasicData env animeList World0
  ∧ ExportAnimeGenres env' animeList World0 = ExportAnimeGenres env animeList World0
  ∧ ExportAnimeStudios env' animeList World0 = ExportAnimeStudios env animeList World0
  ∧ ExportAnimeStatistics env' animeList World0 = ExportAnimeStatistics env animeList World0
  ∧ ExportAnimeReviews env' reviews World0 = ExportAnimeReviews env reviews World0.
Proof.
  intros env env' animeList reviews.
  apply (exports_do_not_depend_on_visiting_order env (λ _ m, reverse (map_to_list m))
           animeList reviews World0).
  - apply rangeValid_site.
  - intros i m. apply reverse_Permutation.
  - intros anime stats Hin Hstats.
    apply elem_of_cons in Hin as [->|Hin].
    + inversion Hstats; subst. apply roundTripScores_unambiguous.
    + apply elem_of_cons in Hin as [->|Hin]; [discriminate Hstats|inversion Hin].
Defined.

(** C6 as stated fails: a snapshot with the keys "7" and "07", both for
    the score 7. Visited in one order the row has the votes of "07", in
    the other those of "7"; both orders visit every entry once. *)
Lemma two_keys_for_one_score_depend_on_order :
  let env := Mock.site Mock.small in
  let env' := withRange env (λ _ m, reverse (map_to_list m)) in
  let animeList := [Mock.anime 1 (Some (Mock.statistics Mock.twoSevens))] in
  rangeValid env ∧ rangeValid env'
  ∧ files (ExportAnimeStatistics env animeList World0).2 !! AnimeStatisticsCSV
    ≠ files (ExportAnimeStatistics env' animeList World0).2 !! AnimeStatisticsCSV.
Proof.
  intros env env' animeList. split; [apply rangeValid_site|]. split.
  - intros i m. apply reverse_Permutation.
  - vm_compute. intros H. discriminate H.
Qed.

Example twoSevens_rows :
  let animeList := [Mock.anime 1 (Some (Mock.statistics Mock.twoSevens))] in
  (statisticsTable (Mock.site Mock.small) 0 animeList,
   statisticsTable (withRange (Mock.site Mock.small) (λ _ m, reverse (map_to_list m))) 0 animeList)
  = ([["1"; "10"; "20"; "3"; "4"; "5"; "42";
       "0"; "0"; "0"; "0"; "0"; "0"; "0"; "0"; "0"; "0"; "0"; "0";
       "2"; "12.34"; "0"; "0"; "0"; "0"; "0"; "0"]],
     [["1"; "10"; "20"; "3"; "4"; "5"; "42";
       "0"; "0"; "0"; "0"; "0"; "0"; "0"; "0"; "0"; "0"; "0"; "0";
       "1"; "3.00"; "0"; "0"; "0"; "0"; "0"; "0"]])%string.
Proof. vm_compute. reflexivity. Qed.

(** ** The collector *)

Section Frames.
Variable env : Env.

Lemma fetchAttempts_files n : ∀ attempt url err body w,
  files (fetchAttempts env n attempt url err body w).2 = files w.
Proof.
  induction n as [|n IH]; intros attempt url err body w; [reflexivity|].
  cbn [fetchAttempts]. unfoldM.
  destruct (1 <? attempt); cbn [requests];
    destruct (http env url (length (requests w))) as [e|status read readErr];
    rewrite ?IH; try reflexivity;
    destruct (status =? 429); rewrite ?IH; try reflexivity;
    destruct (negb (status =? 200)); rewrite ?IH; try reflexivity;
    destruct readErr; rewrite ?IH; reflexivity.
Qed.

Lemma fetchData_files url w : files (fetchData env url w).2 = files w.
Proof.
  unfold fetchData. unfoldM.
  pose proof (fetchAttempts_files (Z.to_nat MaxRetries) 1 url None EmptyString w) as H.
  destruct (fetchAttempts env (Z.to_nat MaxRetries) 1 url None EmptyString w)
    as [[[e|] body] w1]; exact H.
Qed.

Lemma pageLoop_files {T : Type} (pageURL : Z → string)
    (unmarshal : string → error + Response.t T) (msg : string) limit page all w :
  files (pageLoop env pageURL unmarshal msg limit page all w).2 = files w.
Proof.
  funelim (pageLoop env pageURL unmarshal msg limit page all w);
    try rewrite <- Heqcall; cbn [snd]; try reflexivity;
    match goal with
    | Hf : fetchData env ?u ?w = (_, ?w1) |- _ =>
        pose proof (fetchData_files u w) as Hfiles; rewrite Hf in Hfiles
    end; cbn [snd] in Hfiles; congruence.
Qed.

Lemma GetAnimeDetails_files malID w : files (GetAnimeDetails env malID w).2 = files w.
Proof.
  unfold GetAnimeDetails. unfoldM.
  pose proof (fetchData_files (animeDetailsURL malID) w) as H.
  destruct (fetchData env (animeDetailsURL malID) w) as [[body [e|]] w1]; [exact H|].
  destruct (unmarshalSingleAnimeResponse env body); exact H.
Qed.

(** [GetAnimeDetails] returns a record whenever it returns no error. *)
Lemma GetAnimeDetails_nonnil malID w detailed w1 :
  GetAnimeDetails env malID w = ((detailed, None), w1) → ∃ d, detailed = Some d.
Proof.
  unfold GetAnimeDetails. unfoldM.
  destruct (fetchData env (animeDetailsURL malID) w) as [[body [e|]] w0]; [discriminate|].
  destruct (unmarshalSingleAnimeResponse env body); intros H; inversion H; eauto.
Qed.

Lemma collectReviews_files topAnime n : ∀ i all w,
  files (collectReviews env topAnime n i all w).2 = files w.
Proof.
  induction n as [|n IH]; intros i all w; [reflexivity|].
  cbn [collectReviews]. destruct (topAnime !! i) as [anime|]; [|reflexivity].
  unfoldM. unfold GetAnimeReviews.
  pose proof (pageLoop_files (animeReviewsURL (AnimeData.MalID anime))
                (unmarshalReviewResponse env) "failed to unmarshal reviews"
                reviewLimit 1 [] w) as H.
  destruct (pageLoop env _ _ _ reviewLimit 1 [] w) as [[reviews [e|]] w1];
    rewrite IH; exact H.
Qed.

Lemma collectDetails_files items : ∀ limit i enriched w,
  files (collectDetails env limit i items enriched w).2 = files w.
Proof.
  induction items as [|anime rest IH]; intros limit i enriched w; [reflexivity|].
  cbn [collectDetails]. destruct (limit <=? i); [reflexivity|].
  unfoldM.
  pose proof (GetAnimeDetails_files (AnimeData.MalID anime) w) as H.
  destruct (GetAnimeDetails env (AnimeData.MalID anime) w) as [[detailed [e|]] w1].
  - rewrite IH. exact H.
  - destruct detailed; rewrite IH; exact H.
Qed.

Lemma Write_other path row w p :
  p ≠ path → files (Write env path row w).2 !! p = files w !! p.
Proof.
  intros Hne. unfold Write.
  destruct (write env path _ row); cbn; [reflexivity|].
  apply lookup_insert_ne. congruence.
Qed.

Lemma writeAll_other path rows p : ∀ w,
  p ≠ path → files (writeAll env path rows w).2 !! p = files w !! p.
Proof.
  induction rows as [|row rest IH]; intros w Hne; [reflexivity|].
  cbn [writeAll]. unfoldM.
  pose proof (Write_other path row w p Hne) as H.
  destruct (Write env path row w) as [[e|] w1]; [exact H|].
  rewrite IH by exact Hne. exact H.
Qed.

(** An export leaves the other files alone. *)
Lemma export_other path header rows w p :
  p ≠ path → files (export env path header rows w).2 !! p = files w !! p.
Proof.
  intros Hne. unfold export. unfoldM. unfold Create.
  destruct (create env path); [reflexivity|].
  set (w0 := {| requests := requests w; slept := slept w; files := <[path:=[]]> (files w) |}).
  pose proof (Write_other path header w0 p Hne) as H.
  destruct (Write env path header w0) as [[e|] w1]; cbn [snd] in H |- *.
  - rewrite H. apply lookup_insert_ne. congruence.
  - rewrite writeAll_other by exact Hne. rewrite H. apply lookup_insert_ne. congruence.
Qed.

End Frames.

Section Passes.
Variable env : Env.

Lemma writeAll_app path rows1 rows2 : ∀ w,
  writeAll env path (rows1 ++ rows2) w
  = orReturn (writeAll env path rows1) (writeAll env path rows2) w.
Proof.
  induction rows1 as [|row rest IH]; intros w; [reflexivity|].
  cbn [app writeAll]. unfoldM.
  destruct (Write env path row w) as [[e|] w1]; [reflexivity|].
  rewrite IH. reflexivity.
Qed.

Lemma tagRows_writeAll path anime tags : ∀ w,
  tagRows env path anime tags w = writeAll env path (map (tagRow anime) tags) w.
Proof.
  induction tags as [|tag rest IH]; intros w; [reflexivity|].
  cbn [tagRows map writeAll]. unfoldM.
  destruct (Write env path (tagRow anime tag) w) as [[e|] w1]; [reflexivity|apply IH].
Qed.

Lemma genreRows_writeAll animeList : ∀ w,
  genreRows env animeList w
  = writeAll env AnimeGenresCSV
      (flat_map (λ anime, map (tagRow anime) (AnimeData.Genres anime)) animeList) w.
Proof.
  induction animeList as [|anime rest IH]; intros w; [reflexivity|].
  cbn [genreRows flat_map]. rewrite writeAll_app. unfoldM.
  rewrite tagRows_writeAll.
  destruct (writeAll env AnimeGenresCSV _ w) as [[e|] w1]; [reflexivity|apply IH].
Qed.

Lemma studioRows_writeAll animeList : ∀ w,
  studioRows env animeList w
  = writeAll env AnimeStudiosCSV
      (flat_map (λ anime, map (tagRow anime) (AnimeData.Studios anime)) animeList) w.
Proof.
  induction animeList as [|anime rest IH]; intros w; [reflexivity|].
  cbn [studioRows flat_map]. rewrite writeAll_app. unfoldM.
  rewrite tagRows_writeAll.
  destruct (writeAll env AnimeStudiosCSV _ w) as [[e|] w1]; [reflexivity|apply IH].
Qed.

Lemma export_ext path header (rows : M (option error)) table w :
  (∀ w1, rows w1 = writeAll env path table w1) →
  orReturn (Create env path) (orReturn (Write env path header) rows) w
  = export env path header table w.
Proof.
  intros Hrows. unfold export. unfoldM.
  destruct (Create env path w) as [[e|] w0]; [reflexivity|].
  destruct (Write env path header w0) as [[e|] w1]; [reflexivity|apply Hrows].
Qed.

Lemma ExportAnimeBasicData_export animeList w :
  ExportAnimeBasicData env animeList w
  = export env AnimeBasicCSV basicHeader (map basicRow animeList) w.
Proof. apply export_ext, basicRows_writeAll. Qed.

Lemma ExportAnimeGenres_export animeList w :
  ExportAnimeGenres env animeList w
  = export env AnimeGenresCSV genresHeader
      (flat_map (λ anime, map (tagRow anime) (AnimeData.Genres anime)) animeList) w.
Proof. apply export_ext, genreRows_writeAll. Qed.

Lemma ExportAnimeStudios_export animeList w :
  ExportAnimeStudios env animeList w
  = export env AnimeStudiosCSV studiosHeader
      (flat_map (λ anime, map (tagRow anime) (AnimeData.Studios anime)) animeList) w.
Proof. apply export_ext, studioRows_writeAll. Qed.

(** The detail pass looks at the first [limit - i] entries, skips those
    whose fetch fails and appends the records of the others. *)
Lemma collectDetails_Enriched items : ∀ limit i enriched w out w',
  collectDetails env limit i items enriched w = (out, w') →
  ∃ more, out = enriched ++ more
          ∧ Enriched env w (take (Z.to_nat (limit - i)) items) more w'.
Proof.
  induction items as [|anime rest IH]; intros limit i enriched w out w' Hrun.
  - inversion Hrun; subst. exists []. rewrite app_nil_r, take_nil. split; [reflexivity|constructor].
  - cbn [collectDetails] in Hrun. destruct (limit <=? i) eqn:Hlim.
    + apply Z.leb_le in Hlim. inversion Hrun; subst. exists [].
      replace (Z.to_nat (limit - i)) with 0%nat by lia.
      rewrite app_nil_r. split; [reflexivity|constructor].
    + apply Z.leb_gt in Hlim.
      replace (Z.to_nat (limit - i)) with (S (Z.to_nat (limit - (i + 1)))) by lia.
      cbn [take]. unfoldM.
      destruct (GetAnimeDetails env (AnimeData.MalID anime) w)
        as [[detailed [e|]] w1] eqn:Hget.
      * destruct (IH _ _ _ _ _ _ Hrun) as (more & -> & Hmore).
        exists more. split; [reflexivity|]. econstructor 2; eassumption.
      * destruct (GetAnimeDetails_nonnil _ _ _ _ _ Hget) as [d ->].
        destruct (IH _ _ _ _ _ _ Hrun) as (more & -> & Hmore).
        exists (d :: more). rewrite <- app_assoc. split; [reflexivity|].
        econstructor 3; eassumption.
Qed.

(** The review pass looks at [n] entries from the [i]-th on, skips those
    whose fetch fails and appends the reviews of the others. *)
Lemma collectReviews_Reviewed topAnime n : ∀ i all w out w',
  collectReviews env topAnime n i all w = (out, w') →
  ∃ more, out = all ++ more ∧ Reviewed env w (take n (drop i topAnime)) more w'.
Proof.
  induction n as [|n IH]; intros i all w out w' Hrun.
  - inversion Hrun; subst. exists []. rewrite app_nil_r. split; [reflexivity|constructor].
  - cbn [collectReviews] in Hrun. destruct (topAnime !! i) as [anime|] eqn:Hi.
    + rewrite (drop_S _ _ _ Hi). cbn [take]. unfoldM.
      destruct (GetAnimeReviews env (AnimeData.MalID anime) reviewLimit w)
        as [[reviews [e|]] w1] eqn:Hget;
        destruct (IH _ _ _ _ _ Hrun) as (more & -> & Hmore).
      * exists more. split; [reflexivity|]. econstructor 2; eassumption.
      * exists (reviews ++ more). rewrite <- app_assoc. split; [reflexivity|].
        econstructor 3; eassumption.
    + inversion Hrun; subst. apply lookup_ge_None in Hi. rewrite drop_ge by exact Hi.
      exists []. rewrite app_nil_r. split; [reflexivity|constructor].
Qed.

Lemma take_min_length {A : Type} (n : nat) (l : list A) :
  take (Nat.min n (length l)) l = take n l.
Proof.
  destruct (Nat.le_ge_cases n (length l)) as [H|H].
  - rewrite Nat.min_l by exact H. reflexivity.
  - rewrite Nat.min_r by exact H. rewrite !take_ge; [reflexivity|exact H|reflexivity].
Qed.

End Passes.

Lemma export_cases env path header rows w :
  ∃ err w',
    export env path header rows w = (err, w')
    ∧ (healthy env → err = None)
    ∧ match err with
      | Some e => raisedByDisk env e
      | None => files w' !! path = Some (header :: rows)
      end.
Proof.
  destruct (export env path header rows w) as [err w'] eqn:Hrun.
  exists err, w'. split; [reflexivity|]. split.
  - intros Hdisk. destruct (export_healthy env path header rows w Hdisk) as [w0 Hok].
    congruence.
  - apply (export_inv _ _ _ _ _ _ _ Hrun).
Qed.

(** C9. In a run whose output directory could be made and whose fetch
    of the ranked list succeeded, the only errors are those of the file
    system, wrapped by the step that met them: no failure of a detail or
    review fetch ends the run. When the run succeeds, the detail pass
    went through the first 100 entries and the review pass through the
    first 20, each skipping the entries whose fetch failed and going on
    with the rest, and the statistics and reviews files hold the rows of
    what the passes kept, so nothing for a skipped entry. *)
Theorem enrichment_failures_do_not_abort (env : Env) (w : World)
    (topAnime : list AnimeData.t) (w1 : World) (err : option error) (w' : World) :
  mkdirAll env OutputDirectory = None →
  GetTopAnime env MaxItemsToFetch w = ((topAnime, None), w1) →
  CollectAnimeData env w = (err, w') →
  (healthy env → err = None)
  ∧ match err with
    | Some e => ∃ msg cause, e = Wrapped msg cause ∧ raisedByDisk env cause
    | None =>
        ∃ wd wd' wr wr' enrichedAnime allReviews,
          Enriched env wd (take 100 topAnime) enrichedAnime wd'
          ∧ Reviewed env wr (take 20 topAnime) allReviews wr'
          ∧ files w' !! AnimeStatisticsCSV
            = Some (statisticsHeader :: statisticsTable env 0 enrichedAnime)
          ∧ files w' !! AnimeReviewsCSV
            = Some (reviewsHeader :: map reviewRow allReviews)
    end.
Proof.
  intros Hmk Htop Hrun.
  unfold CollectAnimeData, Initialize in Hrun. unfoldM.
  rewrite Hmk, Htop in Hrun.
  rewrite ExportAnimeBasicData_export in Hrun.
  destruct (export_cases env AnimeBasicCSV basicHeader (map basicRow topAnime) w1)
    as (e1 & w2 & Heq1 & Hh1 & Hi1).
  rewrite Heq1 in Hrun.
  destruct e1 as [e1|];
    [inversion Hrun; subst; split; [intros Hd; specialize (Hh1 Hd); discriminate|eauto]|].
  rewrite ExportAnimeGenres_export in Hrun.
  destruct (export_cases env AnimeGenresCSV genresHeader
              (flat_map (λ anime, map (tagRow anime) (AnimeData.Genres anime)) topAnime) w2)
    as (e2 & w3 & Heq2 & Hh2 & Hi2).
  rewrite Heq2 in Hrun.
  destruct e2 as [e2|];
    [inversion Hrun; subst; split; [intros Hd; specialize (Hh2 Hd); discriminate|eauto]|].
  rewrite ExportAnimeStudios_export in Hrun.
  destruct (export_cases env AnimeStudiosCSV studiosHeader
              (flat_map (λ anime, map (tagRow anime) (AnimeData.Studios anime)) topAnime) w3)
    as (e3 & w4 & Heq3 & Hh3 & Hi3).
  rewrite Heq3 in Hrun.
  destruct e3 as [e3|];
    [inversion Hrun; subst; split; [intros Hd; specialize (Hh3 Hd); discriminate|eauto]|].
  destruct (collectDetails env (Z.min MaxItemsToFetch 100) 0 topAnime [] w4)
    as [enrichedAnime w5] eqn:Hdetails.
  apply collectDetails_Enriched in Hdetails as (more & -> & Henriched).
  change (Z.to_nat (Z.min MaxItemsToFetch 100 - 0)) with 100%nat in Henriched.
  cbn [app] in Hrun.
  rewrite ExportAnimeStatistics_export in Hrun.
  destruct (export_cases env AnimeStatisticsCSV statisticsHeader
              (statisticsTable env 0 more) w5)
    as (e4 & w6 & Heq4 & Hh4 & Hi4).
  rewrite Heq4 in Hrun.
  destruct e4 as [e4|];
    [inversion Hrun; subst; split; [intros Hd; specialize (Hh4 Hd); discriminate|eauto]|].
  pose proof (collectReviews_files env topAnime (Nat.min 20 (length topAnime)) 0 [] w6)
    as Hframe.
  destruct (collectReviews env topAnime (Nat.min 20 (length topAnime)) 0 [] w6)
    as [allReviews w7] eqn:Hreviews.
  apply collectReviews_Reviewed in Hreviews as (kept & -> & Hreviewed).
  cbn [drop] in Hreviewed. rewrite take_min_length in Hreviewed.
  cbn [app snd] in Hrun, Hframe.
  rewrite ExportAnimeReviews_export in Hrun.
  pose proof (export_other env AnimeReviewsCSV reviewsHeader (map reviewRow kept) w7
                AnimeStatisticsCSV) as Hother.
  destruct (export_cases env AnimeReviewsCSV reviewsHeader (map reviewRow kept) w7)
    as (e5 & w8 & Heq5 & Hh5 & Hi5).
  rewrite Heq5 in Hrun, Hother. cbn [snd] in Hother.
  destruct e5 as [e5|];
    [inversion Hrun; subst; split; [intros Hd; specialize (Hh5 Hd); discriminate|eauto]|].
  inversion Hrun; subst. split; [reflexivity|].
  exists w4, w5, w6, w7, more, kept.
  split; [exact Henriched|]. split; [exact Hreviewed|]. split; [|exact Hi5].
  rewrite Hother by discriminate. rewrite Hframe. exact Hi4.
Qed.

Lemma enrichment_failures_do_not_abort_witness :
  let env := Mock.site Mock.flaky in
  let top := GetTopAnime env MaxItemsToFetch World0 in
  let run := CollectAnimeData env World0 in
  (healthy env → run.1 = None)
  ∧ match run.1 with
    | Some e => ∃ msg cause, e = Wrapped msg cause ∧ raisedByDisk env cause
    | None =>
        ∃ wd wd' wr wr' enrichedAnime allReviews,
          Enriched env wd (take 100 top.1.1) enrichedAnime wd'
          ∧ Reviewed env wr (take 20 top.1.1) allReviews wr'
          ∧ files run.2 !! AnimeStatisticsCSV
            = Some (statisticsHeader :: statisticsTable env 0 enrichedAnime)
          ∧ files run.2 !! AnimeReviewsCSV
            = Some (reviewsHeader :: map reviewRow allReviews)
    end.
Proof.
  intros env top run.
  apply (enrichment_failures_do_not_abort env World0 top.1.1 top.2 run.1 run.2);
    vm_compute; reflexivity.
Defined.

(** The run on the flaky site: the detail of entry 1 and the reviews of
    entry 2 fail after three attempts each; the run ends without error,
    with the statistics of entry 2 and the review of entry 1. *)
Example CollectAnimeData_flaky :
  let run := CollectAnimeData (Mock.site Mock.flaky) World0 in
  run.1 = None
  ∧ length (requests run.2) = 11%nat
  ∧ files run.2 !! AnimeBasicCSV
    = Some [basicHeader;
            basicRow (Mock.anime 1 None);
            basicRow (Mock.anime 2 None)]
  ∧ files run.2 !! AnimeStatisticsCSV
    = Some [statisticsHeader;
            ["2"; "10"; "20"; "3"; "4"; "5"; "42";
             "5"; "12.34"; "0"; "0"; "0"; "0"; "0"; "0"; "0"; "0"; "0"; "0";
             "2"; "3.00"; "0"; "0"; "0"; "0"; "0"; "0"]%string]
  ∧ files run.2 !! AnimeReviewsCSV
    = Some [reviewsHeader;
            ["11"; "1"; "Title"; "reader"; "8"; "2020-01-01"; "false";
             "Recommended|Funny"; "Line one. Line two.  Line three."]%string].
Proof. vm_compute. repeat split; reflexivity. Qed.

(** * Further properties *)

(** ** The fetcher, request by request *)

Section FetcherRuns.
Variable env : Env.

(** One turn of the loop: a request is sent, after the retry delay if
    the turn is not the first, and followed by the long delay if the
    answer is a 429; a good answer ends the loop, any other goes round. *)
Lemma fetchAttempts_turn n attempt url err body w :
  ∃ w1,
    match failure (answer env url w 0) with
    | Some c =>
        ∃ body', fetchAttempts env (S n) attempt url err body w
                 = fetchAttempts env n (attempt + 1) url c body' w1
    | None =>
        ∃ read, answer env url w 0 = HTTPResponse 200 read None
                ∧ fetchAttempts env (S n) attempt url err body w = ((None, read), w1)
    end
    ∧ requests w1 = requests w ++ [url]
    ∧ files w1 = files w
    ∧ slept w1 = slept w + (if 1 <? attempt then RetryDelay else 0)
                 + (if rateLimitedAnswer (answer env url w 0) then 2 * RateLimitDelay else 0).
Proof.
  unfold answer. rewrite Nat.add_0_r.
  cbn [fetchAttempts]. unfoldM. unfold RateLimitDelay, RetryDelay.
  destruct (1 <? attempt); cbn [requests];
    destruct (http env url (length (requests w))) as [e|status read readErr];
    cbn [failure rateLimitedAnswer];
    try (destruct (status =? 429) eqn:H429);
    try (destruct (negb (status =? 200)) eqn:H200);
    try (destruct readErr as [e|]);
    try (apply negb_false_iff, Z.eqb_eq in H200; subst status);
    eexists; (split; [eexists; first [reflexivity | split; reflexivity]|]);
    cbn [requests files slept]; repeat split; lia.
Qed.

Lemma answer_shift url w w1 k :
  requests w1 = requests w ++ [url] →
  answer env url w1 k = answer env url w (S k).
Proof.
  intros Hreq. unfold answer. rewrite Hreq, length_app. cbn. f_equal. lia.
Qed.

Lemma answers_shift url w w1 k :
  requests w1 = requests w ++ [url] →
  answers env url w (S k) = answer env url w 0 :: answers env url w1 k.
Proof.
  intros Hreq. unfold answers. cbn [seq map]. f_equal.
  rewrite <- seq_shift, map_map. apply map_ext. intros j.
  symmetry. apply answer_shift, Hreq.
Qed.

(** A whole run of the loop: [k] requests were sent, all to [url]; the
    sleep is that of the retry delays and of the 429s; every answer but
    the last was a failure; and either all [n] turns were used and failed,
    or the last answer was good and its body is returned. *)
Lemma fetchAttempts_run n : ∀ attempt url err0 body0 w err body w',
  1 ≤ attempt →
  fetchAttempts env n attempt url err0 body0 w = ((err, body), w') →
  ∃ k,
    (k ≤ n)%nat
    ∧ requests w' = requests w ++ replicate k url
    ∧ files w' = files w
    ∧ slept w' = slept w + RetryDelay * retrySleeps attempt k
                 + 2 * RateLimitDelay * backoffs (answers env url w k)
    ∧ (∀ j, (S j < k)%nat → failure (answer env url w j) ≠ None)
    ∧ ((k = n
        ∧ (∀ j, (j < k)%nat → failure (answer env url w j) ≠ None)
        ∧ err = match k with
                | O => err0
                | S k' => default None (failure (answer env url w k'))
                end)
       ∨ (∃ k' read, k = S k'
            ∧ answer env url w k' = HTTPResponse 200 read None
            ∧ err = None ∧ body = read)).
Proof.
  induction n as [|n IH]; intros attempt url err0 body0 w err body w' Hattempt Hrun.
  { inversion Hrun; subst. exists 0%nat. cbn [replicate]. rewrite app_nil_r.
    unfold retrySleeps, backoffs, answers. cbn.
    repeat split; try lia; try (destruct (1 <? attempt); lia).
    left. repeat split. intros j Hj. lia. }
  destruct (fetchAttempts_turn n attempt url err0 body0 w)
    as (w1 & Hturn & Hreq & Hfiles & Hslept).
  destruct (failure (answer env url w 0)) as [c|] eqn:Hc.
  - destruct Hturn as (body' & Heq). rewrite Heq in Hrun.
    destruct (IH (attempt + 1) url c body' w1 err body w' ltac:(lia) Hrun)
      as (k & Hk & Hreq' & Hfiles' & Hslept' & Hinit & Hend).
    exists (S k).
    assert (Hfail : ∀ j, (j < k)%nat → failure (answer env url w1 j) ≠ None →
                         failure (answer env url w (S j)) ≠ None).
    { intros j _. rewrite (answer_shift url w w1 j Hreq). auto. }
    split; [lia|]. split.
    { rewrite Hreq', Hreq, <- app_assoc. reflexivity. }
    split; [congruence|]. split.
    { rewrite Hslept', Hslept, (answers_shift url w w1 k Hreq).
      unfold backoffs, retrySleeps. cbn [List.filter].
      replace (1 <? attempt + 1) with true by (symmetry; apply Z.ltb_lt; lia).
      destruct (rateLimitedAnswer (answer env url w 0)); cbn [length Nat.pred];
        destruct (1 <? attempt); lia. }
    split.
    { intros [|j] Hj; [rewrite Hc; discriminate|].
      rewrite <- (answer_shift url w w1 j Hreq). apply Hinit. lia. }
    destruct Hend as [(-> & Hall & ->) | (k' & read & -> & Hgood & -> & ->)].
    + left. split; [reflexivity|]. split.
      * intros [|j] Hj; [rewrite Hc; discriminate|].
        rewrite <- (answer_shift url w w1 j Hreq). apply Hall. lia.
      * destruct n as [|n']; [rewrite Hc; reflexivity|].
        rewrite (answer_shift url w w1 n' Hreq). reflexivity.
    + right. exists (S k'), read. rewrite <- (answer_shift url w w1 k' Hreq).
      auto.
  - destruct Hturn as (read & Hgood & Heq). rewrite Heq in Hrun.
    inversion Hrun; subst. exists 1%nat.
    split; [lia|]. split; [exact Hreq|]. split; [exact Hfiles|]. split.
    { rewrite Hslept. unfold backoffs, retrySleeps, answers. cbn [seq map List.filter].
      destruct (rateLimitedAnswer (answer env url w 0)); cbn [length Nat.pred];
        destruct (1 <? attempt); lia. }
    split; [intros j Hj; lia|].
    right. eexists 0%nat, _. split; [reflexivity|]. split; [exact Hgood|]. auto.
Qed.

End FetcherRuns.

Section FetchData.
Variable env : Env.

(** A call of [fetchData], in full. *)
Lemma fetchData_run url w data err w' :
  fetchData env url w = ((data, err), w') →
  ∃ k,
    (1 ≤ k ≤ 3)%nat
    ∧ requests w' = requests w ++ replicate k url
    ∧ files w' = files w
    ∧ slept w' = slept w + RetryDelay * Z.of_nat (Nat.pred k)
                 + 2 * RateLimitDelay * backoffs (answers env url w k)
                 + match err with Some _ => 0 | None => RateLimitDelay end
    ∧ (∀ j, (S j < k)%nat → failure (answer env url w j) ≠ None)
    ∧ ((k = 3%nat
        ∧ (∀ j, (j < 3)%nat → failure (answer env url w j) ≠ None)
        ∧ match failure (answer env url w 2) with
          | Some (Some cause) => data = EmptyString ∧ err = Some (Exhausted cause)
          | _ => err = None
          end)
       ∨ (∃ k' read, k = S k'
            ∧ answer env url w k' = HTTPResponse 200 read None
            ∧ err = None ∧ data = read)).
Proof.
  unfold fetchData. unfoldM. change (Z.to_nat MaxRetries) with 3%nat.
  destruct (fetchAttempts env 3 1 url None EmptyString w) as [[err1 body1] w1] eqn:Hloop.
  destruct (fetchAttempts_run env 3 1 url None EmptyString w err1 body1 w1 ltac:(lia) Hloop)
    as (k & Hk & Hreq & Hfiles & Hslept & Hinit & Hend).
  unfold retrySleeps in Hslept. change (1 <? 1) with false in Hslept.
  assert (Hk1 : (1 ≤ k)%nat).
  { destruct Hend as [(-> & _) | (k' & _ & -> & _)]; lia. }
  intros Hrun. exists k.
  destruct Hend as [(-> & Hall & ->) | (k' & read & -> & Hgood & -> & ->)].
  - destruct (failure (answer env url w 2)) as [[cause|]|] eqn:Hlast; cbn [default] in Hrun;
      inversion Hrun; subst; cbn [requests files slept];
      (split; [lia|]); (split; [exact Hreq|]); (split; [exact Hfiles|]);
      (split; [rewrite Hslept; lia|]); (split; [exact Hinit|]);
      left; (split; [reflexivity|]); (split; [exact Hall|]); try rewrite Hlast; auto.
  - inversion Hrun; subst; cbn [requests files slept].
    split; [lia|]. split; [exact Hreq|]. split; [exact Hfiles|].
    split; [rewrite Hslept; lia|]. split; [exact Hinit|].
    right. exists k', data. auto.
Qed.

(** X1. Every call of [fetchData] sends at least one and at most three
    requests, all of them to the URL it was given, and three when it
    returns an error. *)
Theorem fetchData_requests (url : string) (w : World) :
  let run := fetchData env url w in
  ∃ k, (1 ≤ k ≤ 3)%nat
       ∧ requests run.2 = requests w ++ replicate k url
       ∧ (run.1.2 ≠ None → k = 3%nat).
Proof.
  intros run. subst run.
  destruct (fetchData env url w) as [[data err] w'] eqn:Hrun.
  destruct (fetchData_run _ _ _ _ _ Hrun) as (k & Hk & Hreq & _ & _ & _ & Hend).
  exists k. split; [exact Hk|]. split; [exact Hreq|].
  cbn [fst snd]. intros Herr.
  destruct Hend as [(-> & _) | (k' & read & _ & _ & -> & _)]; [reflexivity|contradiction].
Qed.

(** X2. [fetchData] returns an error exactly when its three attempts all
    failed and the third was not answered 429; the error is then
    [Exhausted] around the cause of the third failure, and the data is
    nil. *)
Theorem fetchData_error_iff (url : string) (w : World) (e : error) :
  let run := fetchData env url w in
  (run.1.2 = Some e
   ↔ ∃ cause,
       e = Exhausted cause
       ∧ (∀ j, (j < 3)%nat → failure (answer env url w j) ≠ None)
       ∧ failure (answer env url w 2) = Some (Some cause))
  ∧ (run.1.2 = Some e → run.1.1 = EmptyString).
Proof.
  intros run. subst run.
  destruct (fetchData env url w) as [[data err] w'] eqn:Hrun. cbn [fst snd].
  destruct (fetchData_run _ _ _ _ _ Hrun) as (k & Hk & _ & _ & _ & Hinit & Hend).
  destruct Hend as [(-> & Hall & Hlast) | (k' & read & -> & Hgood & -> & ->)].
  - destruct (failure (answer env url w 2)) as [[cause|]|] eqn:H2.
    + destruct Hlast as [-> ->]. split; [|reflexivity]. split.
      * intros [= <-]. exists cause. auto.
      * intros (c & -> & _ & [= ->]). reflexivity.
    + subst err. split; [|discriminate]. split; [discriminate|].
      intros (c & _ & _ & [=]).
    + subst err. split; [|discriminate]. split; [discriminate|].
      intros (c & _ & _ & [=]).
  - split; [|discriminate]. split; [discriminate|].
    intros (c & _ & Hall & Hlast).
    specialize (Hall k' ltac:(lia)). rewrite Hgood in Hall. cbn in Hall. contradiction.
Qed.

End FetchData.

(** X3. When the attempts before the [i]-th fail and the [i]-th, one of
    the three, is answered 200 with a body that reads to the end,
    [fetchData] returns that body and no error, and has sent exactly
    those requests: failures are retried, and nothing is asked after a
    good answer. *)
Theorem fetchData_first_success (env : Env) (url : string) (w : World)
    (i : nat) (read : string) :
  (i < 3)%nat →
  (∀ j, (j < i)%nat → failure (answer env url w j) ≠ None) →
  answer env url w i = HTTPResponse 200 read None →
  (fetchData env url w).1 = (read, None)
  ∧ requests (fetchData env url w).2 = requests w ++ replicate (S i) url.
Proof.
  intros Hi Hbefore Hgood.
  destruct (fetchData env url w) as [[data err] w'] eqn:Hrun. cbn [fst snd].
  destruct (fetchData_run _ _ _ _ _ _ Hrun) as (k & Hk & Hreq & _ & _ & Hinit & Hend).
  assert (Hok : failure (answer env url w i) = None) by (rewrite Hgood; reflexivity).
  destruct Hend as [(-> & Hall & _) | (k' & read' & -> & Hgood' & -> & ->)].
  - exfalso. apply (Hall i Hi), Hok.
  - assert (Hok' : failure (answer env url w k') = None) by (rewrite Hgood'; reflexivity).
    assert (k' = i) as ->.
    { destruct (Nat.lt_trichotomy k' i) as [Hlt|[Heq|Hgt]]; [|exact Heq|].
      - exfalso. apply (Hbefore k' Hlt), Hok'.
      - exfalso. apply (Hinit i); [lia|exact Hok]. }
    rewrite Hgood in Hgood'. inversion Hgood'; subst. split; [reflexivity|exact Hreq].
Qed.

Lemma fetchData_first_success_witness :
  (fetchData Mock.busy (topAnimeURL 1) World0).1 = ("{}"%string, None)
  ∧ requests (fetchData Mock.busy (topAnimeURL 1) World0).2
    = requests World0 ++ replicate 3 (topAnimeURL 1).
Proof.
  apply (fetchData_first_success Mock.busy (topAnimeURL 1) World0 2 "{}").
  - lia.
  - intros j Hj. destruct j as [|[|j]]; [discriminate|discriminate|lia].
  - reflexivity.
Defined.

Lemma backoffs_le env url w k : 0 ≤ backoffs (answers env url w k) ≤ Z.of_nat k.
Proof.
  unfold backoffs, answers.
  pose proof (filter_length_le rateLimitedAnswer (map (answer env url w) (seq 0 k))) as H.
  rewrite length_map, length_seq in H. lia.
Qed.

(** X4. What a call of [fetchData] sleeps: the retry delay before each
    request but the first, twice the rate-limit delay after each answer
    429, and the rate-limit delay once more when it returns no error;
    in all between one and nine seconds. *)
Theorem fetchData_sleep (env : Env) (url : string) (w : World) :
  let run := fetchData env url w in
  ∃ k,
    requests run.2 = requests w ++ replicate (S k) url
    ∧ slept run.2
      = slept w + RetryDelay * Z.of_nat k
        + 2 * RateLimitDelay * backoffs (answers env url w (S k))
        + match run.1.2 with Some _ => 0 | None => RateLimitDelay end
    ∧ 1 * Second ≤ slept run.2 - slept w ≤ 9 * Second.
Proof.
  intros run. subst run.
  destruct (fetchData env url w) as [[data err] w'] eqn:Hrun. cbn [fst snd].
  destruct (fetchData_run _ _ _ _ _ _ Hrun) as (k & Hk & Hreq & _ & Hslept & _ & Hend).
  destruct k as [|k]; [lia|]. exists k. cbn [Nat.pred] in Hslept.
  split; [exact Hreq|]. split; [exact Hslept|].
  pose proof (backoffs_le env url w (S k)) as Hb.
  rewrite Hslept. unfold RetryDelay, RateLimitDelay, Second.
  destruct Hend as [(Hk3 & _ & _) | (k' & read & _ & _ & -> & _)].
  - destruct err; lia.
  - lia.
Qed.

(** The upstream that is busy twice: two long delays, two retry delays
    and the closing delay, seven seconds. *)
Example fetchData_busy :
  fetchData Mock.busy (topAnimeURL 1) World0
  = (("{}"%string, None),
     {| requests := replicate 3 (topAnimeURL 1); slept := 7 * Second; files := ∅ |}).
Proof. vm_compute. reflexivity. Qed.

(** ** The API client, call by call *)

Lemma fetchData_error_shape env url w data e w' :
  fetchData env url w = ((data, Some e), w') →
  data = EmptyString ∧ ∃ cause, e = Exhausted cause.
Proof.
  intros Hrun.
  destruct (fetchData_run _ _ _ _ _ _ Hrun) as (k & _ & _ & _ & _ & _ & Hend).
  destruct Hend as [(_ & _ & Hlast) | (k' & read & _ & _ & [=] & _)].
  destruct (failure (answer env url w 2)) as [[cause|]|]; try discriminate Hlast.
  destruct Hlast as [-> [= ->]]. eauto.
Qed.

(** X5. [GetAnimeDetails] sends one to three requests, all to the detail
    URL of the entry, and returns either a record and no error, the one
    the decoder read from the body fetched; or no record and the error
    of the fetch as it is; or no record and the error of the decoder,
    wrapped, the fetch not being tried again. *)
Theorem GetAnimeDetails_result (env : Env) (malID : Z) (w : World) :
  let run := GetAnimeDetails env malID w in
  let fetched := fetchData env (animeDetailsURL malID) w in
  (∃ k, (1 ≤ k ≤ 3)%nat
        ∧ requests run.2 = requests w ++ replicate k (animeDetailsURL malID))
  ∧ run.2 = fetched.2
  ∧ ((∃ response,
        fetched.1.2 = None
        ∧ unmarshalSingleAnimeResponse env fetched.1.1 = inr response
        ∧ run.1 = (Some (SingleAnimeResponse.Data response), None))
     ∨ (∃ cause,
          fetched.1.2 = Some (Exhausted cause)
          ∧ run.1 = (None, Some (Exhausted cause)))
     ∨ (∃ cause,
          fetched.1.2 = None
          ∧ unmarshalSingleAnimeResponse env fetched.1.1 = inl cause
          ∧ run.1 = (None, Some (Wrapped "failed to unmarshal anime details" cause)))).
Proof.
  intros run fetched. subst run fetched. unfold GetAnimeDetails. unfoldM.
  destruct (fetchData env (animeDetailsURL malID) w) as [[body err] w1] eqn:Hfetch.
  destruct (fetchData_run _ _ _ _ _ _ Hfetch) as (k & Hk & Hreq & _).
  cbn [fst snd].
  destruct err as [e|].
  - destruct (fetchData_error_shape _ _ _ _ _ _ Hfetch) as (_ & cause & ->).
    cbn [fst snd]. split; [eauto|]. split; [reflexivity|]. right. left. eauto.
  - destruct (unmarshalSingleAnimeResponse env body) as [cause|response] eqn:Hdec;
      cbn [fst snd]; (split; [eauto|]); (split; [reflexivity|]).
    + right. right. eauto.
    + left. eauto.
Qed.

Section PaginatorRuns.
Context {T : Type}.
Variable env : Env.
Variable pageURL : Z → string.
Variable unmarshal : string → error + Response.t T.
Variable unmarshalFailed : string.

Abbreviation run := (pageLoop env pageURL unmarshal unmarshalFailed).

(** A run that fails has met a fetch that was exhausted or a body that
    did not decode; it returns no item. *)
Lemma pageLoop_failure limit page all w res e w' :
  run limit page all w = ((res, Some e), w') →
  res = []
  ∧ ((∃ cause, e = Exhausted cause)
     ∨ (∃ cause, e = Wrapped unmarshalFailed cause)).
Proof.
  funelim (run limit page all w); intros Hrun; try rewrite <- Heqcall in Hrun;
    try discriminate Hrun.
  - inversion Hrun; subst.
    match goal with
    | Hf : fetchData _ _ _ = _ |- _ =>
        destruct (fetchData_error_shape _ _ _ _ _ _ Hf) as (_ & cause & ->)
    end. eauto.
  - inversion Hrun; subst. eauto.
  - eauto.
Qed.

(** The requests of a run are those of the pages 1, 2, ... in order,
    each sent one to three times, for at most as many pages as items are
    still wanted. *)
Lemma pageLoop_requests limit page all w :
  ∃ tries,
    Forall (λ k, (1 ≤ k ≤ 3)%nat) tries
    ∧ (length tries ≤ Z.to_nat (limit - Z.of_nat (length all)))%nat
    ∧ requests (run limit page all w).2 = requests w ++ pageRequests pageURL page tries.
Proof.
  funelim (run limit page all w); try rewrite <- Heqcall; cbn [snd];
    try match goal with
        | Hf : fetchData _ _ _ = _ |- _ =>
            destruct (fetchData_run _ _ _ _ _ _ Hf) as (k & Hk & Hreq & _)
        end.
  1: { exists []. cbn. rewrite app_nil_r. split; [constructor|]. split; [lia|reflexivity]. }
  1-4: exists [k]; cbn [pageRequests length]; rewrite app_nil_r;
       (split; [constructor; [exact Hk|constructor]|]); (split; [lia|exact Hreq]).
  destruct H as (tries & Htries & Hlen & Hrest).
  exists (k :: tries). cbn [pageRequests length].
  split; [constructor; assumption|]. split.
  - rewrite length_app in Hlen.
    assert (length (Response.Data response) ≠ 0%nat) by (intros Hz; apply n; left; exact Hz).
    lia.
  - rewrite Hrest, Hreq, <- app_assoc. reflexivity.
Qed.

End PaginatorRuns.

(** X6. A paginated fetch that fails returns no item at all, whatever
    the pages before had given, and its error is that of the exhausted
    fetch, as it is, or that of the decoder, wrapped with the message of
    the function. *)
Theorem paginators_fail_empty (env : Env) (malID limit : Z) (w : World) (e : error) :
  let top := GetTopAnime env limit w in
  let reviews := GetAnimeReviews env malID limit w in
  (top.1.2 = Some e →
   top.1.1 = []
   ∧ ((∃ cause, e = Exhausted cause)
      ∨ (∃ cause, e = Wrapped "failed to unmarshal response" cause)))
  ∧ (reviews.1.2 = Some e →
     reviews.1.1 = []
     ∧ ((∃ cause, e = Exhausted cause)
        ∨ (∃ cause, e = Wrapped "failed to unmarshal reviews" cause))).
Proof.
  intros top reviews. subst top reviews. unfold GetTopAnime, GetAnimeReviews. split.
  - destruct (pageLoop env topAnimeURL _ _ limit 1 [] w) as [[res err] w'] eqn:Hrun.
    cbn [fst snd]. intros ->. apply (pageLoop_failure _ _ _ _ _ _ _ _ _ _ _ Hrun).
  - destruct (pageLoop env (animeReviewsURL malID) _ _ limit 1 [] w)
      as [[res err] w'] eqn:Hrun.
    cbn [fst snd]. intros ->. apply (pageLoop_failure _ _ _ _ _ _ _ _ _ _ _ Hrun).
Qed.

(** X7. The requests of a paginated fetch are those of page 1, then
    page 2, and so on without a gap, each page asked for one to three
    times, and of no more pages than the limit: the loop ends even if
    every page says that there is a next one. *)
Theorem paginators_requests (env : Env) (malID limit : Z) (w : World) :
  (∃ tries,
     Forall (λ k, (1 ≤ k ≤ 3)%nat) tries
     ∧ (length tries ≤ Z.to_nat limit)%nat
     ∧ requests (GetTopAnime env limit w).2
       = requests w ++ pageRequests topAnimeURL 1 tries)
  ∧ (∃ tries,
       Forall (λ k, (1 ≤ k ≤ 3)%nat) tries
       ∧ (length tries ≤ Z.to_nat limit)%nat
       ∧ requests (GetAnimeReviews env malID limit w).2
         = requests w ++ pageRequests (animeReviewsURL malID) 1 tries).
Proof.
  unfold GetTopAnime, GetAnimeReviews. split.
  - destruct (pageLoop_requests env topAnimeURL (unmarshalAnimeResponse env)
                "failed to unmarshal response" limit 1 [] w) as (tries & Hk & Hlen & Hreq).
    exists tries. cbn in Hlen. rewrite Z.sub_0_r in Hlen. auto.
  - destruct (pageLoop_requests env (animeReviewsURL malID) (unmarshalReviewResponse env)
                "failed to unmarshal reviews" limit 1 [] w) as (tries & Hk & Hlen & Hreq).
    exists tries. cbn in Hlen. rewrite Z.sub_0_r in Hlen. auto.
Qed.

Lemma pageLoop_prefix {T : Type} (env : Env) (pageURL : Z → string)
    (unmarshal : string → error + Response.t T) (msg : string) limit w res w' :
  pageLoop env pageURL unmarshal msg limit 1 [] w = ((res, None), w') →
  ∃ pages,
    servePages env pageURL unmarshal (length pages) 1 w = Some (pages, w')
    ∧ res `prefix_of` items pages.
Proof.
  intros Hrun.
  destruct (pageLoop_stops _ _ _ _ _ _ _ _ _ _ Hrun)
    as [(_ & -> & ->) | (_ & before & last & Hserve & _ & Hend)].
  - exists []. split; [reflexivity|]. exists []. reflexivity.
  - exists (before ++ [last]). rewrite length_app, Nat.add_1_r. split; [exact Hserve|].
    cbn [app] in Hend. unfold items in *. rewrite map_app, concat_app. cbn [map concat].
    rewrite app_nil_r.
    destruct Hend as [[_ ->] | (_ & _ & ->)].
    + apply prefix_app_r. reflexivity.
    + exists (drop (Z.to_nat limit) (concat (map Response.Data before) ++ Response.Data last)).
      symmetry. apply take_drop.
Qed.

(** X8. What a successful paginated fetch returns is a prefix of the
    items of the pages it read, page after page and in the order of
    each page: nothing is reordered, repeated or taken from elsewhere. *)
Theorem paginators_return_prefix (env : Env) (malID limit : Z) (w : World) :
  (∀ res w', GetTopAnime env limit w = ((res, None), w') →
     ∃ pages,
       servePages env topAnimeURL (unmarshalAnimeResponse env) (length pages) 1 w
       = Some (pages, w')
       ∧ res `prefix_of` items pages)
  ∧ (∀ res w', GetAnimeReviews env malID limit w = ((res, None), w') →
       ∃ pages,
         servePages env (animeReviewsURL malID) (unmarshalReviewResponse env)
           (length pages) 1 w
         = Some (pages, w')
         ∧ res `prefix_of` items pages).
Proof.
  unfold GetTopAnime, GetAnimeReviews.
  split; intros res w'; apply pageLoop_prefix.
Qed.

Lemma paginators_return_prefix_witness :
  let env := Mock.site Mock.paged in
  let top := GetTopAnime env 3 World0 in
  let reviews := GetAnimeReviews env 1 3 World0 in
  (∃ pages,
     servePages env topAnimeURL (unmarshalAnimeResponse env) (length pages) 1 World0
     = Some (pages, top.2)
     ∧ top.1.1 `prefix_of` items pages)
  ∧ (∃ pages,
       servePages env (animeReviewsURL 1) (unmarshalReviewResponse env)
         (length pages) 1 World0
       = Some (pages, reviews.2)
       ∧ reviews.1.1 `prefix_of` items pages).
Proof.
  intros env top reviews.
  destruct (paginators_return_prefix env 1 3 World0) as [Htop Hreviews].
  split.
  - apply Htop. vm_compute. reflexivity.
  - apply Hreviews. vm_compute. reflexivity.
Defined.

(** X9. No call of the API client creates or changes a file. *)
Theorem api_keeps_files (env : Env) (url : string) (malID limit : Z) (w : World) :
  files (fetchData env url w).2 = files w
  ∧ files (GetTopAnime env limit w).2 = files w
  ∧ files (GetAnimeDetails env malID w).2 = files w
  ∧ files (GetAnimeReviews env malID limit w).2 = files w.
Proof.
  split; [apply fetchData_files|]. split; [apply pageLoop_files|].
  split; [apply GetAnimeDetails_files|apply pageLoop_files].
Qed.

(** ** The exports, record by record *)

Section ExportRuns.
Variable env : Env.

Lemma Write_frame path row w :
  requests (Write env path row w).2 = requests w
  ∧ slept (Write env path row w).2 = slept w.
Proof. unfold Write. destruct (write env path _ row); split; reflexivity. Qed.

Lemma writeAll_frame path rows : ∀ w,
  requests (writeAll env path rows w).2 = requests w
  ∧ slept (writeAll env path rows w).2 = slept w.
Proof.
  induction rows as [|row rest IH]; intros w; [split; reflexivity|].
  cbn [writeAll]. unfoldM.
  pose proof (Write_frame path row w) as [Hr Hs].
  destruct (Write env path row w) as [[e|] w1]; cbn [snd] in *; [auto|].
  destruct (IH w1) as [Hr1 Hs1]. split; congruence.
Qed.

(** An export changes nothing but its file. *)
Lemma export_touchedOnly path header rows w err w' :
  export env path header rows w = (err, w') → touchedOnly path w w'.
Proof.
  intros Hrun.
  pose proof (export_other env path header rows w) as Hother.
  rewrite Hrun in Hother. cbn [snd] in Hother.
  unfold export in Hrun. unfoldM. unfold Create in Hrun.
  destruct (create env path) as [e0|].
  { inversion Hrun; subst. repeat split. }
  set (w0 := {| requests := requests w; slept := slept w;
                files := <[path:=[]]> (files w) |}) in *.
  pose proof (Write_frame path header w0) as [Hr1 Hs1].
  destruct (Write env path header w0) as [[e1|] w1]; cbn [snd] in Hr1, Hs1.
  - inversion Hrun; subst. repeat split; assumption.
  - pose proof (writeAll_frame path rows w1) as [Hr2 Hs2].
    rewrite Hrun in Hr2, Hs2. cbn [snd] in Hr2, Hs2.
    repeat split; [rewrite Hr2, Hr1; reflexivity|rewrite Hs2, Hs1; reflexivity|exact Hother].
Qed.

(** When the file cannot be created the export returns the error of
    [os.Create] and nothing has changed. *)
Lemma export_not_created path header rows w e :
  create env path = Some e → export env path header rows w = (Some e, w).
Proof. intros Hcreate. unfold export. unfoldM. unfold Create. rewrite Hcreate. reflexivity. Qed.

(** Each of the five exports creates its file, writes the header and
    writes the records. *)
Lemma exports_export animeList reviews path table run :
  (path, table, run) ∈ exports env animeList reviews →
  ∃ header rows, table = header :: rows ∧ ∀ w, run w = export env path header rows w.
Proof.
  unfold exports. intros Hin.
  repeat (apply elem_of_cons in Hin as [Hin|Hin]; [inversion Hin; subst; clear Hin|]);
    [..|inversion Hin];
    eexists _, _; (split; [reflexivity|]); intros w.
  - apply ExportAnimeBasicData_export.
  - apply ExportAnimeGenres_export.
  - apply ExportAnimeStudios_export.
  - apply ExportAnimeStatistics_export.
  - apply ExportAnimeReviews_export.
Qed.

(** What an export does on a file system that takes every write. *)
Lemma exports_accepted animeList reviews path table run w :
  (path, table, run) ∈ exports env animeList reviews →
  (∀ n row, write env path n row = None) →
  run w = match create env path with
          | Some e => (Some e, w)
          | None => (None, {| requests := requests w; slept := slept w;
                              files := <[path := table]> (files w) |})
          end.
Proof.
  intros Hin Hwrite.
  destruct (exports_export animeList reviews path table run Hin)
    as (header & rows & -> & Hrun).
  rewrite Hrun. destruct (create env path) as [e|] eqn:Hcreate.
  - apply export_not_created, Hcreate.
  - apply export_accepted; [exact Hcreate|]. intros n row _. apply Hwrite.
Qed.

End ExportRuns.

(** X10. On a file system that takes every write, each of the five
    exports either cannot create its file, and then returns the error of
    [os.Create] and changes nothing, or returns no error and leaves in
    its file the header and then the records of its input in order: one
    for each entry, for each genre or studio of each entry, for each
    entry with a snapshot, for each review. Nothing else changes. *)
Theorem exports_wrote (env : Env) (animeList : list AnimeData.t)
    (reviews : list ReviewData.t) (path : string) (table : list Row)
    (run : M (option error)) (w : World) :
  (path, table, run) ∈ exports env animeList reviews →
  (∀ n row, write env path n row = None) →
  run w = match create env path with
          | Some e => (Some e, w)
          | None => (None, {| requests := requests w; slept := slept w;
                              files := <[path := table]> (files w) |})
          end.
Proof. apply exports_accepted. Qed.

Lemma exports_wrote_witness :
  let env := Mock.site Mock.small in
  ExportAnimeGenres env Mock.shelf World0
  = (None, {| requests := requests World0; slept := slept World0;
              files := <[AnimeGenresCSV := genresFile Mock.shelf]> (files World0) |}).
Proof.
  intros env.
  apply (exports_wrote env Mock.shelf [] AnimeGenresCSV (genresFile Mock.shelf)
           (ExportAnimeGenres env Mock.shelf) World0).
  - apply list_elem_of_further, list_elem_of_here.
  - reflexivity.
Defined.

(** X11. No export sends a request or sleeps, and none changes a file
    other than its own. *)
Theorem exports_touch_only_their_file (env : Env) (animeList : list AnimeData.t)
    (reviews : list ReviewData.t) (w : World) :
  touchedOnly AnimeBasicCSV w (ExportAnimeBasicData env animeList w).2
  ∧ touchedOnly AnimeGenresCSV w (ExportAnimeGenres env animeList w).2
  ∧ touchedOnly AnimeStudiosCSV w (ExportAnimeStudios env animeList w).2
  ∧ touchedOnly AnimeStatisticsCSV w (ExportAnimeStatistics env animeList w).2
  ∧ touchedOnly AnimeReviewsCSV w (ExportAnimeReviews env reviews w).2.
Proof.
  rewrite ExportAnimeBasicData_export, ExportAnimeGenres_export, ExportAnimeStudios_export,
    ExportAnimeStatistics_export, ExportAnimeReviews_export.
  repeat split; eapply export_touchedOnly, surjective_pairing.
Qed.

(** The genres and studios tables of the shelf; where no file can be
    created nothing is written. *)
Example ExportAnimeGenres_shelf :
  files (ExportAnimeGenres (Mock.site Mock.small) Mock.shelf World0).2 !! AnimeGenresCSV
  = Some [genresHeader; ["1"; "1"; "Action"]; ["1"; "2"; "Drama"]; ["3"; "2"; "Drama"]]%string
  ∧ files (ExportAnimeStudios (Mock.site Mock.small) Mock.shelf World0).2 !! AnimeStudiosCSV
    = Some [studiosHeader; ["1"; "4"; "Bones"]; ["3"; "4"; "Bones"];
            ["3"; "5"; "Madhouse"]]%string
  ∧ ExportAnimeGenres Mock.readOnly Mock.shelf World0 = (Some Mock.denied, World0).
Proof. vm_compute. repeat split; reflexivity. Qed.


Lemma statisticsRow_length anime stats visit :
  length (statisticsRow anime stats visit) = 27%nat.
Proof.
  unfold statisticsRow. destruct (foldl fillScore emptySlots visit). reflexivity.
Qed.

Lemma statisticsTable_widths env animeList : ∀ i,
  Forall (λ row, length row = 27%nat) (statisticsTable env i animeList).
Proof.
  induction animeList as [|anime rest IH]; intros i; [constructor|].
  cbn [statisticsTable]. destruct (AnimeData.Statistics anime); [|apply IH].
  constructor; [apply statisticsRow_length|apply IH].
Qed.

(** The records of each table are as wide as its header. *)
Lemma exports_widths env animeList reviews path table run :
  (path, table, run) ∈ exports env animeList reviews →
  ∃ header rows,
    table = header :: rows ∧ Forall (λ row, length row = length header) rows.
Proof.
  unfold exports. intros Hin.
  repeat (apply elem_of_cons in Hin as [Hin|Hin]; [inversion Hin; subst; clear Hin|]);
    [..|inversion Hin];
    eexists _, _; (split; [reflexivity|]).
  - apply Forall_forall. intros row Hin. apply list_elem_of_fmap in Hin as (a & -> & _).
    reflexivity.
  - apply Forall_forall. intros row Hin. apply list_elem_of_In, in_flat_map in Hin
      as (a & _ & Hin). apply in_map_iff in Hin as (t & <- & _). reflexivity.
  - apply Forall_forall. intros row Hin. apply list_elem_of_In, in_flat_map in Hin
      as (a & _ & Hin). apply in_map_iff in Hin as (t & <- & _). reflexivity.
  - apply statisticsTable_widths.
  - apply Forall_forall. intros row Hin. apply list_elem_of_fmap in Hin as (r & -> & _).
    reflexivity.
Qed.

(** X12. On a file system that takes every write, the file that any of
    the five exports leaves when it succeeds is rectangular: after the
    header come records that all have as many fields as the header,
    whatever the entries, their tags, their score keys and the reviews
    are. *)
Theorem tables_rectangular (env : Env) (animeList : list AnimeData.t)
    (reviews : list ReviewData.t) (path : string) (table : list Row)
    (run : M (option error)) (w w' : World) :
  (path, table, run) ∈ exports env animeList reviews →
  (∀ n row, write env path n row = None) →
  run w = (None, w') →
  ∃ header rows,
    files w' !! path = Some (header :: rows)
    ∧ Forall (λ row, length row = length header) rows.
Proof.
  intros Hin _ Hrun.
  destruct (exports_widths env animeList reviews path table run Hin)
    as (header & rows & -> & Hwidths).
  destruct (exports_export env animeList reviews path _ run Hin)
    as (header' & rows' & [= <- <-] & Hexport).
  rewrite Hexport in Hrun. apply export_inv in Hrun.
  exists header, rows. split; [exact Hrun|exact Hwidths].
Qed.

Lemma tables_rectangular_witness :
  let env := Mock.site Mock.small in
  let animeList := [Mock.anime 1 (Some (Mock.statistics Mock.strayKeys));
                    Mock.anime 2 None;
                    Mock.anime 3 (Some (Mock.statistics Mock.twoSevens))] in
  let w' := (ExportAnimeStatistics env animeList World0).2 in
  ∃ header rows,
    files w' !! AnimeStatisticsCSV = Some (header :: rows)
    ∧ Forall (λ row, length row = length header) rows.
Proof.
  intros env animeList w'.
  apply (tables_rectangular env animeList [] AnimeStatisticsCSV
           (statisticsFile env animeList) (ExportAnimeStatistics env animeList) World0 w').
  - do 3 apply list_elem_of_further. apply list_elem_of_here.
  - reflexivity.
  - vm_compute. reflexivity.
Defined.

(** X14. On a file system that accepts everything, an export run a
    second time on the same input leaves the world as the first run left
    it: the file is created anew, not appended to. The second run may
    visit the score maps in another order than the first, provided no
    snapshot has two keys for the same score from 1 to 10. *)
Theorem exports_repeat (env : Env)
    (range : nat → gmap string ScoreData.t → list (string * ScoreData.t))
    (animeList : list AnimeData.t) (reviews : list ReviewData.t) (k : nat)
    (path path' : string) (table table' : list Row) (run run' : M (option error))
    (w : World) :
  healthy env →
  rangeValid env →
  (∀ i m, range i m ≡ₚ map_to_list m) →
  (∀ anime stats, anime ∈ animeList → AnimeData.Statistics anime = Some stats →
     unambiguous (AnimeStatistics.Scores stats)) →
  exports env animeList reviews !! k = Some (path, table, run) →
  exports (withRange env range) animeList reviews !! k = Some (path', table', run') →
  (run w).1 = None ∧ run' (run w).2 = (None, (run w).2).
Proof.
  intros Hdisk Hvalid Hrange Hun Hk Hk'.
  pose proof Hdisk as (_ & Hcreate & Hwrite).
  assert (Hsame : path' = path ∧ table' = table).
  { unfold exports in Hk, Hk'.
    destruct k as [|[|[|[|[|k]]]]]; simpl in Hk, Hk'; [..|discriminate Hk];
      inversion Hk; inversion Hk'; subst; (split; [reflexivity|]); try reflexivity.
    unfold statisticsFile. f_equal. apply statisticsTable_withRange; assumption. }
  destruct Hsame as [-> ->].
  apply list_elem_of_lookup_2 in Hk, Hk'.
  pose proof (exports_accepted env animeList reviews path table run w Hk
                (Hwrite path)) as Hfirst.
  rewrite Hcreate in Hfirst. rewrite Hfirst. cbn [fst snd]. split; [reflexivity|].
  rewrite (exports_accepted (withRange env range) animeList reviews path table run' _ Hk'
             (Hwrite path)).
  cbn [create withRange]. rewrite Hcreate. cbn [requests slept files].
  rewrite insert_insert_eq. reflexivity.
Qed.

Lemma exports_repeat_witness :
  let env := Mock.site Mock.small in
  let range := λ (_ : nat) (m : gmap string ScoreData.t), reverse (map_to_list m) in
  let animeList := [Mock.anime 1 (Some (Mock.statistics roundTripScores)); Mock.anime 2 None] in
  let first := ExportAnimeStatistics env animeList World0 in
  first.1 = None
  ∧ ExportAnimeStatistics (withRange env range) animeList first.2 = (None, first.2).
Proof.
  intros env range animeList first.
  apply (exports_repeat env range animeList [] 3 AnimeStatisticsCSV AnimeStatisticsCSV
           (statisticsFile env animeList) (statisticsFile (withRange env range) animeList)
           (ExportAnimeStatistics env animeList)
           (ExportAnimeStatistics (withRange env range) animeList) World0).
  - apply healthy_site.
  - apply rangeValid_site.
  - intros i m. apply reverse_Permutation.
  - intros anime stats Hin Hstats.
    apply elem_of_cons in Hin as [->|Hin].
    + inversion Hstats; subst. apply roundTripScores_unambiguous.
    + apply elem_of_cons in Hin as [->|Hin]; [discriminate Hstats|inversion Hin].
  - reflexivity.
  - reflexivity.
Defined.

(** ** The text of a review and the columns of the scores *)

(** The text of a review is as long as the body when the body has
    32000 bytes or fewer, and 32003 bytes long otherwise. *)
Lemma reviewText_size (review : ReviewData.t) :
  let n := Z.of_nat (String.length (ReviewData.Review review)) in
  Z.of_nat (String.length (reviewText review)) = (if 32000 <? n then 32003 else n).
Proof.
  intros n. subst n. unfold reviewText, maxReviewLen.
  rewrite cleanReview_breaksToSpaces, breaksToSpaces_length.
  destruct (32000 <? Z.of_nat (String.length (ReviewData.Review review))) eqn:Hlen;
    [|rewrite breaksToSpaces_length; reflexivity].
  apply Z.ltb_lt in Hlen.
  rewrite length_append', length_substring_0.
  - rewrite Nat2Z.inj_add, Z2Nat.id by lia. reflexivity.
  - rewrite breaksToSpaces_length. lia.
Qed.

(** X15. In the reviews table that a successful export leaves, the text
    of every review is as long as its body when the body has 32000 bytes
    or fewer, and 32003 bytes long otherwise: never longer than 32003,
    and longer than the body itself when the body has 32001 or 32002
    bytes. *)
Theorem reviewText_length (env : Env) (reviews : list ReviewData.t) (w w' : World) :
  ExportAnimeReviews env reviews w = (None, w') →
  ∃ rows,
    files w' !! AnimeReviewsCSV = Some (reviewsHeader :: rows)
    ∧ Forall2
        (λ review row,
           ∃ text,
             review_text row = Some text
             ∧ let n := Z.of_nat (String.length (ReviewData.Review review)) in
               Z.of_nat (String.length text) = (if 32000 <? n then 32003 else n))
        reviews rows.
Proof.
  intros Hrun. rewrite ExportAnimeReviews_export in Hrun.
  apply export_inv in Hrun. exists (map reviewRow reviews). split; [exact Hrun|].
  apply Forall2_map_r. intros review. exists (reviewText review).
  split; [reflexivity|apply reviewText_size].
Qed.

Lemma reviewText_length_witness :
  let env := Mock.site Mock.small in
  let reviews := [Mock.review 11 1 Mock.longBody; Mock.review 12 1 Mock.brokenBody] in
  let w' := (ExportAnimeReviews env reviews World0).2 in
  ∃ rows,
    files w' !! AnimeReviewsCSV = Some (reviewsHeader :: rows)
    ∧ Forall2
        (λ review row,
           ∃ text,
             review_text row = Some text
             ∧ let n := Z.of_nat (String.length (ReviewData.Review review)) in
               Z.of_nat (String.length text) = (if 32000 <? n then 32003 else n))
        reviews rows.
Proof.
  intros env reviews w'.
  apply (reviewText_length env reviews World0 w').
  apply ExportAnimeReviews_healthy, healthy_site.
Defined.

Lemma scoreColumns_lookup (votes percentages : list string) (i : nat) :
  (i < 10)%nat →
  let columns := flat_map (λ i, [nth i votes EmptyString; nth i percentages EmptyString])
                   (seq 0 10) in
  columns !! (2 * i)%nat = Some (nth i votes EmptyString)
  ∧ columns !! (2 * i + 1)%nat = Some (nth i percentages EmptyString).
Proof.
  intros Hi. do 10 (destruct i as [|i]; [split; reflexivity|]). lia.
Qed.

(** The columns of score [i + 1] in a row are the [i]-th places of the
    two slices. *)
Lemma statisticsRow_columns anime stats visit (i : nat) :
  (i < 10)%nat →
  statisticsRow anime stats visit !! (7 + 2 * i)%nat
  = Some (nth i (foldl fillScore emptySlots visit).1 EmptyString)
  ∧ statisticsRow anime stats visit !! (8 + 2 * i)%nat
    = Some (nth i (foldl fillScore emptySlots visit).2 EmptyString).
Proof.
  intros Hi. unfold statisticsRow.
  destruct (foldl fillScore emptySlots visit) as [votes percentages]. cbn [fst snd].
  destruct (scoreColumns_lookup votes percentages i Hi) as [Hv Hp].
  split.
  - exact Hv.
  - replace (8 + 2 * i)%nat with (7 + (2 * i + 1))%nat by lia. exact Hp.
Qed.


Lemma slotOf_inv (key : string) (i : nat) :
  slotOf key = Some i → ∃ n, 1 ≤ n ≤ 10 ∧ Atoi key = Some n ∧ i = Z.to_nat (n - 1).
Proof.
  unfold slotOf. destruct (Atoi key) as [n|]; [|discriminate].
  destruct (1 <=? n) eqn:H1; destruct (n <=? 10) eqn:H10; try discriminate.
  cbn. intros [= <-]. apply Z.leb_le in H1, H10. eauto.
Qed.

(** The places that no entry of the visit names are left alone. *)
Lemma foldl_fillScore_other (i : nat) (visit : list (string * ScoreData.t)) : ∀ slots,
  (∀ key data, (key, data) ∈ visit → slotOf key ≠ Some i) →
  (foldl fillScore slots visit).1 !! i = slots.1 !! i
  ∧ (foldl fillScore slots visit).2 !! i = slots.2 !! i.
Proof.
  induction visit as [|[key data] rest IH]; intros slots Hnone; [auto|].
  cbn [foldl].
  destruct (IH (fillScore slots (key, data))) as [H1 H2].
  { intros k d Hin. apply (Hnone k d). right. exact Hin. }
  rewrite H1, H2, fillScore_slotOf.
  specialize (Hnone key data ltac:(left)).
  destruct (slotOf key) as [j|]; [|auto]. cbn [fst snd].
  rewrite !list_lookup_insert_ne by congruence. auto.
Qed.


(** The columns of a score that no key of the visit stands for hold the
    defaults. *)
Lemma statisticsRow_unnamed (anime : AnimeData.t) (stats : AnimeStatistics.t)
    (visit : list (string * ScoreData.t)) (n : Z) :
  1 ≤ n ≤ 10 →
  (∀ key data, (key, data) ∈ visit → Atoi key ≠ Some n) →
  let row := statisticsRow anime stats visit in
  row !! Z.to_nat (5 + 2 * n) = Some "0"%string
  ∧ row !! Z.to_nat (6 + 2 * n) = Some "0"%string.
Proof.
  intros Hn Hnone row. subst row.
  assert (Hi : (Z.to_nat (n - 1) < 10)%nat) by lia.
  destruct (statisticsRow_columns anime stats visit _ Hi) as [Hv Hp].
  replace (Z.to_nat (5 + 2 * n)) with (7 + 2 * Z.to_nat (n - 1))%nat by lia.
  replace (Z.to_nat (6 + 2 * n)) with (8 + 2 * Z.to_nat (n - 1))%nat by lia.
  rewrite Hv, Hp.
  destruct (foldl_fillScore_other (Z.to_nat (n - 1)) visit emptySlots) as [H1 H2].
  { intros key data Hin Hslot. apply slotOf_inv in Hslot as (m & Hm & Hkey & Heq).
    apply (Hnone key data Hin). rewrite Hkey. f_equal. lia. }
  rewrite !nth_lookup, H1, H2. unfold emptySlots. cbn [fst snd].
  rewrite !lookup_replicate_2 by exact Hi. split; reflexivity.
Qed.



(** X17. In the statistics table that a successful export leaves, the
    two columns of a score from 1 to 10 that no key of the map of an
    entry stands for hold "0" and "0" in the row of that entry; so do
    all twenty when the map is empty. *)
Theorem unnamed_scores_stay_zero (env : Env) (animeList : list AnimeData.t)
    (w w' : World) :
  rangeValid env →
  ExportAnimeStatistics env animeList w = (None, w') →
  ∃ rows,
    files w' !! AnimeStatisticsCSV = Some (statisticsHeader :: rows)
    ∧ Forall2
        (λ anime row,
           ∃ stats,
             AnimeData.Statistics anime = Some stats
             ∧ ∀ n,
                 1 ≤ n ≤ 10 →
                 (∀ key, is_Some (AnimeStatistics.Scores stats !! key) →
                         Atoi key ≠ Some n) →
                 row !! Z.to_nat (5 + 2 * n) = Some "0"%string
                 ∧ row !! Z.to_nat (6 + 2 * n) = Some "0"%string)
        (List.filter hasStatistics animeList) rows.
Proof.
  intros Hvalid Hrun. rewrite ExportAnimeStatistics_export in Hrun.
  apply export_inv in Hrun. exists (statisticsTable env 0 animeList).
  split; [exact Hrun|].
  eapply Forall2_impl; [apply statisticsTable_visits|].
  intros anime row (stats & j & Hstats & ->).
  exists stats. split; [exact Hstats|].
  intros n Hn Hnone. apply statisticsRow_unnamed; [exact Hn|].
  intros key data Hin. apply Hnone.
  rewrite (Hvalid j (AnimeStatistics.Scores stats)) in Hin.
  apply elem_of_map_to_list in Hin. eauto.
Qed.

Lemma unnamed_scores_stay_zero_witness :
  let env := Mock.site Mock.small in
  let animeList := [Mock.anime 1 (Some (Mock.statistics Mock.strayKeys));
                    Mock.anime 2 None;
                    Mock.anime 3 (Some (Mock.statistics ∅))] in
  let w' := (ExportAnimeStatistics env animeList World0).2 in
  ∃ rows,
    files w' !! AnimeStatisticsCSV = Some (statisticsHeader :: rows)
    ∧ Forall2
        (λ anime row,
           ∃ stats,
             AnimeData.Statistics anime = Some stats
             ∧ ∀ n,
                 1 ≤ n ≤ 10 →
                 (∀ key, is_Some (AnimeStatistics.Scores stats !! key) →
                         Atoi key ≠ Some n) →
                 row !! Z.to_nat (5 + 2 * n) = Some "0"%string
                 ∧ row !! Z.to_nat (6 + 2 * n) = Some "0"%string)
        (List.filter hasStatistics animeList) rows.
Proof.
  intros env animeList w'.
  apply (unnamed_scores_stay_zero env animeList World0 w').
  - apply rangeValid_site.
  - vm_compute. reflexivity.
Defined.

(** ** The whole run *)

Lemma paths_distinct :
  AnimeBasicCSV ≠ AnimeGenresCSV ∧ AnimeBasicCSV ≠ AnimeStudiosCSV
  ∧ AnimeBasicCSV ≠ AnimeStatisticsCSV ∧ AnimeBasicCSV ≠ AnimeReviewsCSV
  ∧ AnimeGenresCSV ≠ AnimeStudiosCSV ∧ AnimeGenresCSV ≠ AnimeStatisticsCSV
  ∧ AnimeGenresCSV ≠ AnimeReviewsCSV ∧ AnimeStudiosCSV ≠ AnimeStatisticsCSV
  ∧ AnimeStudiosCSV ≠ AnimeReviewsCSV ∧ AnimeStatisticsCSV ≠ AnimeReviewsCSV.
Proof. repeat split; discriminate. Qed.

(** A run that succeeds, step by step. *)
Lemma CollectAnimeData_success (env : Env) (w w' : World) :
  CollectAnimeData env w = (None, w') →
  ∃ topAnime w1 wd wd' wr wr' enrichedAnime allReviews,
    GetTopAnime env MaxItemsToFetch w = ((topAnime, None), w1)
    ∧ Enriched env wd (take 100 topAnime) enrichedAnime wd'
    ∧ Reviewed env wr (take 20 topAnime) allReviews wr'
    ∧ files w' !! AnimeBasicCSV = Some (basicFile topAnime)
    ∧ files w' !! AnimeGenresCSV = Some (genresFile topAnime)
    ∧ files w' !! AnimeStudiosCSV = Some (studiosFile topAnime)
    ∧ files w' !! AnimeStatisticsCSV = Some (statisticsFile env enrichedAnime)
    ∧ files w' !! AnimeReviewsCSV = Some (reviewsFile allReviews).
Proof.
  intros Hrun.
  pose proof paths_distinct as (Hbg & Hbs & Hbt & Hbr & Hgs & Hgt & Hgr & Hst & Hsr & Htr).
  unfold CollectAnimeData, Initialize in Hrun. unfoldM.
  destruct (mkdirAll env OutputDirectory); [discriminate|].
  destruct (GetTopAnime env MaxItemsToFetch w) as [[topAnime [e|]] w1] eqn:Htop;
    [discriminate|].
  rewrite ExportAnimeBasicData_export in Hrun.
  destruct (export env AnimeBasicCSV basicHeader (map basicRow topAnime) w1)
    as [[e|] w2] eqn:H1; [discriminate|].
  rewrite ExportAnimeGenres_export in Hrun.
  destruct (export env AnimeGenresCSV genresHeader _ w2) as [[e|] w3] eqn:H2; [discriminate|].
  rewrite ExportAnimeStudios_export in Hrun.
  destruct (export env AnimeStudiosCSV studiosHeader _ w3) as [[e|] w4] eqn:H3; [discriminate|].
  pose proof (collectDetails_files env topAnime (Z.min MaxItemsToFetch 100) 0 [] w4) as Hf5.
  destruct (collectDetails env (Z.min MaxItemsToFetch 100) 0 topAnime [] w4)
    as [enrichedAnime w5] eqn:Hdetails.
  apply collectDetails_Enriched in Hdetails as (more & -> & Henriched).
  change (Z.to_nat (Z.min MaxItemsToFetch 100 - 0)) with 100%nat in Henriched.
  cbn [app snd] in Hrun, Hf5.
  rewrite ExportAnimeStatistics_export in Hrun.
  destruct (export env AnimeStatisticsCSV statisticsHeader _ w5) as [[e|] w6] eqn:H4;
    [discriminate|].
  pose proof (collectReviews_files env topAnime (Nat.min 20 (length topAnime)) 0 [] w6)
    as Hf7.
  destruct (collectReviews env topAnime (Nat.min 20 (length topAnime)) 0 [] w6)
    as [allReviews w7] eqn:Hreviews.
  apply collectReviews_Reviewed in Hreviews as (kept & -> & Hreviewed).
  cbn [drop] in Hreviewed. rewrite take_min_length in Hreviewed.
  cbn [app snd] in Hrun, Hf7.
  rewrite ExportAnimeReviews_export in Hrun.
  destruct (export env AnimeReviewsCSV reviewsHeader _ w7) as [[e|] w8] eqn:H5;
    [discriminate|].
  inversion Hrun; subst w8.
  pose proof (export_inv _ _ _ _ _ _ _ H1) as Hw1.
  pose proof (export_inv _ _ _ _ _ _ _ H2) as Hw2.
  pose proof (export_inv _ _ _ _ _ _ _ H3) as Hw3.
  pose proof (export_inv _ _ _ _ _ _ _ H4) as Hw4.
  pose proof (export_inv _ _ _ _ _ _ _ H5) as Hw5.
  destruct (export_touchedOnly _ _ _ _ _ _ _ H2) as (_ & _ & Ho2).
  destruct (export_touchedOnly _ _ _ _ _ _ _ H3) as (_ & _ & Ho3).
  destruct (export_touchedOnly _ _ _ _ _ _ _ H4) as (_ & _ & Ho4).
  destruct (export_touchedOnly _ _ _ _ _ _ _ H5) as (_ & _ & Ho5).
  cbn beta iota in Hw1, Hw2, Hw3, Hw4, Hw5.
  exists topAnime, w1, w4, w5, w6, w7, more, kept.
  split; [reflexivity|]. split; [exact Henriched|]. split; [exact Hreviewed|].
  unfold basicFile, genresFile, studiosFile, statisticsFile, reviewsFile.
  split; [|split; [|split; [|split]]].
  - rewrite Ho5, Hf7, Ho4, Hf5, Ho3, Ho2 by congruence. exact Hw1.
  - rewrite Ho5, Hf7, Ho4, Hf5, Ho3 by congruence. exact Hw2.
  - rewrite Ho5, Hf7, Ho4, Hf5 by congruence. exact Hw3.
  - rewrite Ho5, Hf7 by congruence. exact Hw4.
  - exact Hw5.
Qed.

(** X18. When the output directory is there and the fetch of the ranked
    list fails, the run ends with that error wrapped as the failure to
    fetch the top anime, in the world the fetch left: no file is created
    or changed, and no detail or review is asked for. *)
Theorem collect_stops_at_failed_list (env : Env) (w : World)
    (res : list AnimeData.t) (e : error) (w1 : World) :
  mkdirAll env OutputDirectory = None →
  GetTopAnime env MaxItemsToFetch w = ((res, Some e), w1) →
  CollectAnimeData env w = (Some (Wrapped "failed to fetch top anime" e), w1)
  ∧ files w1 = files w.
Proof.
  intros Hmk Htop. split.
  - unfold CollectAnimeData, Initialize. unfoldM. rewrite Hmk, Htop. reflexivity.
  - pose proof (pageLoop_files env topAnimeURL (unmarshalAnimeResponse env)
                  "failed to unmarshal response" MaxItemsToFetch 1 [] w) as Hfiles.
    unfold GetTopAnime in Htop. rewrite Htop in Hfiles. exact Hfiles.
Qed.

Lemma collect_stops_at_failed_list_witness :
  let top := GetTopAnime Mock.unavailable MaxItemsToFetch World0 in
  CollectAnimeData Mock.unavailable World0
  = (Some (Wrapped "failed to fetch top anime" (Exhausted (StatusError 503))), top.2)
  ∧ files top.2 = files World0.
Proof.
  intros top.
  apply (collect_stops_at_failed_list Mock.unavailable World0 [] _ top.2).
  - reflexivity.
  - vm_compute. reflexivity.
Defined.

(** X19. A run that succeeds has fetched the ranked list, at most 1000
    entries of it, and leaves the basic, genres and studios tables of
    exactly that list: the two enrichment passes and the later exports,
    which come after, do not touch them. *)
Theorem collect_leaves_list_tables (env : Env) (w w' : World) :
  CollectAnimeData env w = (None, w') →
  ∃ topAnime,
    (GetTopAnime env MaxItemsToFetch w).1 = (topAnime, None)
    ∧ (length topAnime ≤ 1000)%nat
    ∧ files w' !! AnimeBasicCSV = Some (basicFile topAnime)
    ∧ files w' !! AnimeGenresCSV = Some (genresFile topAnime)
    ∧ files w' !! AnimeStudiosCSV = Some (studiosFile topAnime).
Proof.
  intros Hrun.
  destruct (CollectAnimeData_success env w w' Hrun)
    as (topAnime & w1 & _ & _ & _ & _ & _ & _ & Htop & _ & _ & Hb & Hg & Hs & _).
  exists topAnime. rewrite Htop. split; [reflexivity|]. split; [|auto].
  pose proof (pageLoop_length env topAnimeURL (unmarshalAnimeResponse env)
                "failed to unmarshal response" MaxItemsToFetch 1 [] w
                ltac:(cbn; unfold MaxItemsToFetch; lia)) as Hlen.
  unfold GetTopAnime in Htop. rewrite Htop in Hlen. cbn [fst] in Hlen.
  unfold MaxItemsToFetch in Hlen. lia.
Qed.

Lemma collect_leaves_list_tables_witness :
  let env := Mock.site Mock.flaky in
  let w' := (CollectAnimeData env World0).2 in
  ∃ topAnime,
    (GetTopAnime env MaxItemsToFetch World0).1 = (topAnime, None)
    ∧ (length topAnime ≤ 1000)%nat
    ∧ files w' !! AnimeBasicCSV = Some (basicFile topAnime)
    ∧ files w' !! AnimeGenresCSV = Some (genresFile topAnime)
    ∧ files w' !! AnimeStudiosCSV = Some (studiosFile topAnime).
Proof.
  intros env w'.
  apply (collect_leaves_list_tables env World0 w').
  vm_compute. reflexivity.
Defined.

Lemma Enriched_length env w items out w' :
  Enriched env w items out w' → (length out ≤ length items)%nat.
Proof. induction 1; cbn [length]; lia. Qed.

Lemma Reviewed_length env w items out w' :
  Reviewed env w items out w' → (length out ≤ 50 * length items)%nat.
Proof.
  induction 1 as [|w anime rest reviews e w1 out w' Hget _ IH
                  |w anime rest reviews w1 out w' Hget _ IH]; cbn [length]; [lia|lia|].
  pose proof (pageLoop_length env (animeReviewsURL (AnimeData.MalID anime))
                (unmarshalReviewResponse env) "failed to unmarshal reviews"
                reviewLimit 1 [] w ltac:(cbn; unfold reviewLimit; lia)) as Hlen.
  unfold GetAnimeReviews in Hget. rewrite Hget in Hlen. cbn [fst] in Hlen.
  unfold reviewLimit in Hlen. rewrite length_app. lia.
Qed.

Lemma statisticsTable_length env animeList : ∀ i,
  (length (statisticsTable env i animeList) ≤ length animeList)%nat.
Proof.
  induction animeList as [|anime rest IH]; intros i; [reflexivity|].
  cbn [statisticsTable length]. specialize (IH (S i)).
  destruct (AnimeData.Statistics anime); cbn [length]; lia.
Qed.

(** X20. After a run that succeeds the statistics table has at most 100
    rows after its header and the reviews table at most 1000: details
    are asked for the first 100 entries only, reviews for the first 20,
    and no more than 50 reviews are kept for an entry. *)
Theorem collect_bounds (env : Env) (w w' : World) :
  CollectAnimeData env w = (None, w') →
  ∃ statistics reviews,
    files w' !! AnimeStatisticsCSV = Some (statisticsHeader :: statistics)
    ∧ files w' !! AnimeReviewsCSV = Some (reviewsHeader :: reviews)
    ∧ (length statistics ≤ 100)%nat
    ∧ (length reviews ≤ 1000)%nat.
Proof.
  intros Hrun.
  destruct (CollectAnimeData_success env w w' Hrun)
    as (topAnime & w1 & wd & wd' & wr & wr' & enrichedAnime & allReviews
        & _ & Henriched & Hreviewed & _ & _ & _ & Hstats & Hreviews).
  exists (statisticsTable env 0 enrichedAnime), (map reviewRow allReviews).
  split; [exact Hstats|]. split; [exact Hreviews|].
  apply Enriched_length in Henriched. apply Reviewed_length in Hreviewed.
  pose proof (statisticsTable_length env enrichedAnime 0).
  rewrite length_take in Henriched, Hreviewed. rewrite length_map. lia.
Qed.

Lemma collect_bounds_witness :
  let w' := (CollectAnimeData (Mock.site Mock.flaky) World0).2 in
  ∃ statistics reviews,
    files w' !! AnimeStatisticsCSV = Some (statisticsHeader :: statistics)
    ∧ files w' !! AnimeReviewsCSV = Some (reviewsHeader :: reviews)
    ∧ (length statistics ≤ 100)%nat
    ∧ (length reviews ≤ 1000)%nat.
Proof.
  intros w'.
  apply (collect_bounds (Mock.site Mock.flaky) World0 w').
  vm_compute. reflexivity.
Defined.

(** X13. After a run that succeeds the genres table has, for each entry
    of the ranked list in order, one row for each genre of the entry,
    and the studios table one for each studio, so none for an entry
    without any; and the first field of each of these rows is the
    identifier of the entry, which is the first field of the row of the
    entry in the basic table. *)
Theorem link_rows_reference_basic_rows (env : Env) (w w' : World) :
  CollectAnimeData env w = (None, w') →
  ∃ topAnime basic genres studios,
    (GetTopAnime env MaxItemsToFetch w).1 = (topAnime, None)
    ∧ files w' !! AnimeBasicCSV = Some (basicHeader :: basic)
    ∧ files w' !! AnimeGenresCSV = Some (genresHeader :: concat genres)
    ∧ files w' !! AnimeStudiosCSV = Some (studiosHeader :: concat studios)
    ∧ Forall2 (λ anime row, row !! 0%nat = Some (Itoa (AnimeData.MalID anime)))
        topAnime basic
    ∧ Forall2
        (λ anime rows,
           length rows = length (AnimeData.Genres anime)
           ∧ Forall (λ row, row !! 0%nat = Some (Itoa (AnimeData.MalID anime))) rows)
        topAnime genres
    ∧ Forall2
        (λ anime rows,
           length rows = length (AnimeData.Studios anime)
           ∧ Forall (λ row, row !! 0%nat = Some (Itoa (AnimeData.MalID anime))) rows)
        topAnime studios.
Proof.
  intros Hrun.
  destruct (CollectAnimeData_success env w w' Hrun)
    as (topAnime & w1 & _ & _ & _ & _ & _ & _ & Htop & _ & _ & Hb & Hg & Hs & _).
  exists topAnime, (map basicRow topAnime),
    (map (λ anime, map (tagRow anime) (AnimeData.Genres anime)) topAnime),
    (map (λ anime, map (tagRow anime) (AnimeData.Studios anime)) topAnime).
  rewrite Htop, <- !flat_map_concat_map.
  split; [reflexivity|]. split; [exact Hb|]. split; [exact Hg|]. split; [exact Hs|].
  split; [|split]; apply Forall2_map_r; intros anime.
  - reflexivity.
  - rewrite length_map. split; [reflexivity|].
    apply Forall_forall. intros row Hin. apply list_elem_of_fmap in Hin as (t & -> & _).
    reflexivity.
  - rewrite length_map. split; [reflexivity|].
    apply Forall_forall. intros row Hin. apply list_elem_of_fmap in Hin as (t & -> & _).
    reflexivity.
Qed.

Lemma link_rows_reference_basic_rows_witness :
  let env := Mock.site Mock.library in
  let w' := (CollectAnimeData env World0).2 in
  ∃ topAnime basic genres studios,
    (GetTopAnime env MaxItemsToFetch World0).1 = (topAnime, None)
    ∧ files w' !! AnimeBasicCSV = Some (basicHeader :: basic)
    ∧ files w' !! AnimeGenresCSV = Some (genresHeader :: concat genres)
    ∧ files w' !! AnimeStudiosCSV = Some (studiosHeader :: concat studios)
    ∧ Forall2 (λ anime row, row !! 0%nat = Some (Itoa (AnimeData.MalID anime)))
        topAnime basic
    ∧ Forall2
        (λ anime rows,
           length rows = length (AnimeData.Genres anime)
           ∧ Forall (λ row, row !! 0%nat = Some (Itoa (AnimeData.MalID anime))) rows)
        topAnime genres
    ∧ Forall2
        (λ anime rows,
           length rows = length (AnimeData.Studios anime)
           ∧ Forall (λ row, row !! 0%nat = Some (Itoa (AnimeData.MalID anime))) rows)
        topAnime studios.
Proof.
  intros env w'.
  apply (link_rows_reference_basic_rows env World0 w').
  vm_compute. reflexivity.
Defined.

(** The run over the library: the three tables of the list. *)
Example CollectAnimeData_library :
  let run := CollectAnimeData (Mock.site Mock.library) World0 in
  run.1 = None
  ∧ files run.2 !! AnimeGenresCSV
    = Some [genresHeader; ["1"; "1"; "Action"]; ["1"; "2"; "Drama"]; ["3"; "2"; "Drama"]]%string
  ∧ files run.2 !! AnimeStudiosCSV
    = Some [studiosHeader; ["1"; "4"; "Bones"]; ["3"; "4"; "Bones"];
            ["3"; "5"; "Madhouse"]]%string
  ∧ (λ rows, map (λ row, row !! 0%nat) rows) <$> files run.2 !! AnimeBasicCSV
    = Some [Some "mal_id"; Some "1"; Some "2"; Some "3"]%string.
Proof. vm_compute. repeat split; reflexivity. Qed.






(** The requests of the run on the flaky site: the detail of entry 1
    and the reviews of entry 2 are asked for three times each. *)
Example CollectAnimeData_flaky_requests :
  requests (CollectAnimeData (Mock.site Mock.flaky) World0).2
  = [topAnimeURL 1; topAnimeURL 2]
    ++ replicate 3 (animeDetailsURL 1) ++ [animeDetailsURL 2]
    ++ [animeReviewsURL 1 1; animeReviewsURL 1 2]
    ++ replicate 3 (animeReviewsURL 2 1).
Proof. vm_compute. reflexivity. Qed.
